(** * ATCmdParser: a shallow embedding of [ATCmdParser.c] / [ATCmdParser.h]

    The C code works on [char] arrays, [int] counters and a transport given
    as a struct of function pointers.  Here a [char] is a [Z] in [0, 256),
    an array is a [list Z] of its cells, a C string is the run of cells in
    front of the first NUL, and every array write goes through a checked
    [store], so that a write outside the array (undefined behaviour in C)
    shows up as the result [OutOfBounds idx] instead of being lost. *)

From Stdlib Require Import ZArith List Bool Lia String Ascii.
Import ListNotations.
Open Scope Z_scope.

(** ** Constants of the header and the character codes the code tests *)

Definition AT_BUFFER_SIZE : Z := 2048.

Abbreviation LF := 10 (only parsing).
Abbreviation CR := 13 (only parsing).
Abbreviation ch_percent := 37 (only parsing).
Abbreviation ch_star := 42 (only parsing).
Abbreviation ch_comma := 44 (only parsing).
Abbreviation ch_colon := 58 (only parsing).
Abbreviation ch_lbracket := 91 (only parsing).
Abbreviation ch_backslash := 92 (only parsing).
Abbreviation ch_caret := 94 (only parsing).
Abbreviation ch_n := 110 (only parsing).
Abbreviation ch_x := 120 (only parsing).

(** [(char)c] for an [int] c, seen as an unsigned byte.  Every constant the
    code compares a [char] with is below 128, so the signedness of [char]
    does not change any test. *)
Definition to_char (c : Z) : Z := c mod 256.

(** The bytes of a Rocq string literal, for readable examples. *)
Fixpoint bytes (s : string) : list Z :=
  match s with
  | EmptyString => []
  | String a s' => Z.of_N (N_of_ascii a) :: bytes s'
  end.

(** ** Arrays with checked writes *)

Inductive result (A : Type) : Type :=
| Ok (a : A)
| OutOfBounds (idx : Z).
Arguments Ok {A} a.
Arguments OutOfBounds {A} idx.

Definition bind {A B : Type} (r : result A) (k : A -> result B) : result B :=
  match r with
  | Ok a => k a
  | OutOfBounds idx => OutOfBounds idx
  end.

Notation "x <- r ;; k" := (bind r (fun x => k))
  (at level 61, r at next level, right associativity).

(** [m[k]] as an rvalue.  A C string literal is stored without its
    terminator, so the cell just behind a list reads as NUL. *)
Definition rd (m : list Z) (k : Z) : Z :=
  if k <? 0 then 0 else nth (Z.to_nat k) m 0.

Fixpoint upd (n : nat) (v : Z) (m : list Z) : list Z :=
  match m with
  | [] => []
  | x :: tl =>
      match n with
      | O => v :: tl
      | S n' => x :: upd n' v tl
      end
  end.

(** [m[k] = v] on an array of [cap] cells. *)
Definition store (cap : Z) (m : list Z) (k v : Z) : result (list Z) :=
  if (0 <=? k) && (k <? cap) then Ok (upd (Z.to_nat k) v m) else OutOfBounds k.

(** [memcpy(m + dst, m + src, n)] inside one array, copying upwards one byte
    at a time.  The code only calls it with [dst = src - 1] on overlapping
    regions, where a copy in ascending order moves the bytes down by one. *)
Fixpoint memcpy_up (n : nat) (cap : Z) (m : list Z) (dst src : Z) : result (list Z) :=
  match n with
  | O => Ok m
  | S n' =>
      m' <- store cap m dst (rd m src) ;;
      memcpy_up n' cap m' (dst + 1) (src + 1)
  end.

Definition memcpy (cap : Z) (m : list Z) (dst src n : Z) : result (list Z) :=
  memcpy_up (Z.to_nat n) cap m dst src.

(** [memcpy(m + dst, src, n)] from another object. *)
Fixpoint copy_in (cap : Z) (m : list Z) (dst : Z) (src : list Z) : result (list Z) :=
  match src with
  | [] => Ok m
  | c :: tl =>
      m' <- store cap m dst c ;;
      copy_in cap m' (dst + 1) tl
  end.

(** The C string that starts at the head of a run of cells. *)
Fixpoint cstr_from (m : list Z) : list Z :=
  match m with
  | [] => []
  | c :: tl => if c =? 0 then [] else c :: cstr_from tl
  end.

(** The C string at [m + k], for [0 <= k]. *)
Definition cstr (m : list Z) (k : Z) : list Z :=
  cstr_from (skipn (Z.to_nat k) m).

(** The [n] cells at [m + k]: what [memcmp] looks at. *)
Definition region (m : list Z) (k n : Z) : list Z :=
  firstn (Z.to_nat n) (skipn (Z.to_nat k) m).

Definition bytes_eqb (a b : list Z) : bool :=
  if list_eq_dec Z.eq_dec a b then true else false.

(** ** [ATCmdParser_analyse_args] *)

Module Args.

(** The loop [for (int i = 0; i <= len; i++)].  [args] is the caller's
    string with its terminator, [arg_list] the caller's array of pointers,
    a pointer [&args[k]] being kept as the index [k].  [len] is read once
    before the loop and never updated. *)
Fixpoint analyse_loop (fuel : nat) (len list_size i : Z)
         (args arg_list : list Z) (arg_num _in_prev : Z)
  : result (Z * list Z * list Z) :=
  match fuel with
  | O => Ok (arg_num, args, arg_list)
  | S fuel' =>
      if i <=? len then
        if rd args i =? ch_comma then
          if _in_prev =? ch_backslash then
            args1 <- store (Zlength args) args (i - i) ch_comma ;;
            args2 <- memcpy (Zlength args) args1 i (i + 1) (len - (i + 1)) ;;
            analyse_loop fuel' len list_size (i + 1) args2 arg_list arg_num (rd args2 i)
          else
            args1 <- store (Zlength args) args i 0 ;;
            arg_list1 <- store (Zlength arg_list) arg_list arg_num (i + 1) ;;
            let arg_num1 := arg_num + 1 in
            if arg_num1 >? list_size then Ok (arg_num1, args1, arg_list1)
            else analyse_loop fuel' len list_size (i + 1) args1 arg_list1 arg_num1 (rd args1 i)
        else
          analyse_loop fuel' len list_size (i + 1) args arg_list arg_num (rd args i)
      else Ok (arg_num, args, arg_list)
  end.

(** [ATCmdParser_analyse_args(at, args, arg_list, list_size)]: the return
    value, the string as the call leaves it, and the pointer array.  The
    loop body runs for [i = 0 .. len], so [len + 2] rounds of fuel always
    reach the exit test. *)
Definition ATCmdParser_analyse_args (args arg_list : list Z) (list_size : Z)
  : result (Z * list Z * list Z) :=
  let len := Zlength (cstr args 0) in
  arg_list0 <- store (Zlength arg_list) arg_list 0 0 ;;
  analyse_loop (Z.to_nat (len + 2)) len list_size 0 args arg_list0 1 0.

(** The strings the first [n] pointers of [arg_list] denote. *)
Definition arguments (args arg_list : list Z) (n : Z) : list (list Z) :=
  map (cstr args) (firstn (Z.to_nat n) arg_list).

(** The example of the header: [111,222,333\,33,444]. *)
Definition example_args : list Z := bytes "111,222,333\,33,444" ++ [0].

End Args.

(** ** The session and its collaborators *)

(** A function pointer is the name of the function it points to; the null
    pointer is [None]. *)
Definition fnptr : Type := nat.

(** [struct oob]; the [next] link is the tail of the list the node heads. *)
Record oob : Type := {
  len : Z;
  prefix : list Z;
  cb : option fnptr
}.

(** [ATParser].  The [ops] pointer is kept outside of the record, as the
    instance of [serial_ops] below. *)
Record ATParser : Type := {
  _oobs : list oob;
  unprocessed_data : option fnptr;
  character_timeout : Z;
  _dbg_on : bool;
  _output_delimiter : list Z;
  _output_delim_size : Z;
  _input_delimiter : list Z;
  _input_delim_size : Z;
  _buffer : list Z
}.

Definition set_buffer (a : ATParser) (b : list Z) : ATParser :=
  {| _oobs := _oobs a; unprocessed_data := unprocessed_data a;
     character_timeout := character_timeout a; _dbg_on := _dbg_on a;
     _output_delimiter := _output_delimiter a;
     _output_delim_size := _output_delim_size a;
     _input_delimiter := _input_delimiter a;
     _input_delim_size := _input_delim_size a;
     _buffer := b |}.

(** [ATCmdParser_add_oob]: a new node in front of the list. *)
Definition ATCmdParser_add_oob (a : ATParser) (p : list Z) (f : option fnptr) : ATParser :=
  {| _oobs := {| len := Zlength p; prefix := p; cb := f |} :: _oobs a;
     unprocessed_data := unprocessed_data a;
     character_timeout := character_timeout a; _dbg_on := _dbg_on a;
     _output_delimiter := _output_delimiter a;
     _output_delim_size := _output_delim_size a;
     _input_delimiter := _input_delimiter a;
     _input_delim_size := _input_delim_size a;
     _buffer := _buffer a |}.

(** [ATCmdParser_init], without the call of [ops->init]: [calloc] gives a
    zeroed struct and the delimiters are filled in. *)
Definition ATCmdParser_init (output_delimiter input_delimiter : list Z) (debug : bool)
  : ATParser :=
  {| _oobs := []; unprocessed_data := None; character_timeout := 0;
     _dbg_on := debug;
     _output_delimiter := output_delimiter;
     _output_delim_size := Zlength output_delimiter;
     _input_delimiter := input_delimiter;
     _input_delim_size := Zlength input_delimiter;
     _buffer := repeat 0 (Z.to_nat AT_BUFFER_SIZE) |}.

(** [ATCmdParser_set_unprocessed_cb] *)
Definition ATCmdParser_set_unprocessed_cb (a : ATParser) (f : option fnptr) : ATParser :=
  {| _oobs := _oobs a; unprocessed_data := f;
     character_timeout := character_timeout a; _dbg_on := _dbg_on a;
     _output_delimiter := _output_delimiter a;
     _output_delim_size := _output_delim_size a;
     _input_delimiter := _input_delimiter a;
     _input_delim_size := _input_delim_size a;
     _buffer := _buffer a |}.

(** The part of [serial_ops] the functions below call: [get(timeout)] gives
    a byte or a negative number when the time is up, [readable()] is not 0
    when a byte is waiting.  Both act on the state of the port. *)
Class serial_ops (port : Type) : Type := {
  ops_get : Z -> port -> Z * port;
  ops_readable : port -> Z * port
}.

(** A scripted port: the results the next calls of [get] give, one by one;
    once the script is over every read times out. *)
#[export] Instance script_ops : serial_ops (list Z) := {
  ops_get := fun _ s =>
    match s with
    | [] => (-1, [])
    | c :: tl => (c, tl)
    end;
  ops_readable := fun s =>
    match s with
    | [] => (0, s)
    | _ :: _ => (1, s)
    end
}.

(** What the engine does to the world outside of the session, in order: the
    reads of the port, the templates it stages (the [AT?] trace), the
    handlers and the sink it calls, and the extractions it runs. *)
Inductive event : Type :=
| EvGet (c : Z)
| EvStage (template : list Z)
| EvCall (f : fnptr)
| EvExtract (input format : list Z)
| EvUnprocessed (f : fnptr) (data : list Z).

Record World (port : Type) : Type := {
  session : ATParser;
  io : port;
  log : list event
}.
Arguments session {port} w.
Arguments io {port} w.
Arguments log {port} w.

Definition calls_of (f : fnptr) (l : list event) : nat :=
  List.length (filter (fun e => match e with EvCall g => Nat.eqb f g | _ => false end) l).

(** A registered prefix fires when the candidate is as long as the prefix
    and [memcmp] finds the same bytes: the test of both scanning loops. *)
Definition oob_hit (buf : list Z) (offset j : Z) (e : oob) : bool :=
  (j =? len e) && bytes_eqb (firstn (Z.to_nat (len e)) (prefix e)) (region buf offset (len e)).

(** The locals of [ATCmdParser_vrecv], [v_x] for the local [x]: those that
    live across lines ... *)
Record flocals : Type := {
  v_response : list Z;
  v_in_prev : Z;
  v_aborted : bool
}.

(** ... and those declared inside the loop over the lines. *)
Record llocals : Type := {
  v_i : Z;
  v_offset : Z;
  v_whole_line_wanted : bool;
  v_j : Z;
  v_dummy : Z;
  v_dummy_pos : list Z
}.

(** How a call of [ATCmdParser_vrecv] ends: the three [return]s, and a write
    outside of an array. *)
Inductive verdict : Type :=
| Matched
| TimedOut
| Aborted
| Overrun (idx : Z).

(** How a call of [ATCmdParser_process_oob] ends. *)
Inductive poll : Type :=
| Handled
| Idle
| PollTimedOut
| PollOverrun (idx : Z).

Definition returned (v : verdict) : option bool :=
  match v with
  | Matched => Some true
  | TimedOut | Aborted => Some false
  | Overrun _ => None
  end.

Definition poll_returned (r : poll) : option bool :=
  match r with
  | Handled => Some true
  | Idle | PollTimedOut => Some false
  | PollOverrun _ => None
  end.

(** *** The pattern rewriter: the first loop of [ATCmdParser_vrecv] *)

(** [while (response[i])] with its [break]; [i] grows in every round, so a
    round of fuel for each byte of [response] and one more reach the exit. *)
Fixpoint stage_loop (fuel : nat) (response buf : list Z) (i offset : Z)
  : result (list Z * Z * Z * bool) :=
  match fuel with
  | O => Ok (buf, i, offset, false)
  | S fuel' =>
      if rd response i =? 0 then Ok (buf, i, offset, false)
      else if (rd response i =? ch_percent)
                && negb (rd response (i + 1) =? ch_percent)
                && negb (rd response (i + 1) =? ch_star)
      then
        buf1 <- store AT_BUFFER_SIZE buf offset ch_percent ;;
        buf2 <- store AT_BUFFER_SIZE buf1 (offset + 1) ch_star ;;
        stage_loop fuel' response buf2 (i + 1) (offset + 2)
      else
        buf1 <- store AT_BUFFER_SIZE buf offset (rd response i) ;;
        let i1 := i + 1 in
        let offset1 := offset + 1 in
        if (rd response (i1 - 1) =? LF)
             && negb ((3 <=? i1) && (rd response (i1 - 3) =? ch_lbracket)
                      && (rd response (i1 - 2) =? ch_caret))
        then Ok (buf1, i1, offset1, true)
        else stage_loop fuel' response buf1 i1 offset1
  end.

(** The rewriter with the three bytes the code puts behind the template:
    the new buffer, [i], [offset] and [whole_line_wanted]. *)
Definition stage_line (buf response : list Z) : result (list Z * Z * Z * bool) :=
  r <- stage_loop (S (List.length response)) response buf 0 0 ;;
  let '(buf1, i, offset, wlw) := r in
  buf2 <- store AT_BUFFER_SIZE buf1 offset ch_percent ;;
  buf3 <- store AT_BUFFER_SIZE buf2 (offset + 1) ch_n ;;
  buf4 <- store AT_BUFFER_SIZE buf3 (offset + 2) 0 ;;
  Ok (buf4, i, offset + 3, wlw).

(** *** The candidate *)

(** Lines 120 to 128: the filler, then the byte and the sentinel. *)
Definition append_byte (buf : list Z) (in_prev : Z) (ll : llocals) (c : Z)
  : result (list Z * llocals) :=
  r <- (if (to_char c =? LF) && (in_prev =? ch_colon) then
          dp <- store 20 (v_dummy_pos ll) (v_dummy ll) (v_j ll) ;;
          buf1 <- store AT_BUFFER_SIZE buf (v_offset ll + v_j ll) ch_x ;;
          Ok (buf1, v_j ll + 1, v_dummy ll + 1, dp)
        else Ok (buf, v_j ll, v_dummy ll, v_dummy_pos ll)) ;;
  let '(buf1, j1, dummy1, dp1) := r in
  buf2 <- store AT_BUFFER_SIZE buf1 (v_offset ll + j1) (to_char c) ;;
  let j2 := j1 + 1 in
  buf3 <- store AT_BUFFER_SIZE buf2 (v_offset ll + j2) 0 ;;
  Ok (buf3, {| v_i := v_i ll; v_offset := v_offset ll;
               v_whole_line_wanted := v_whole_line_wanted ll;
               v_j := j2; v_dummy := dummy1; v_dummy_pos := dp1 |}).

(** Lines 163 to 167: the fillers are taken out again, one [memcpy] each. *)
Fixpoint strip_dummies (n : nat) (k : Z) (buf dp : list Z) (offset j : Z)
  : result (list Z * list Z * Z) :=
  match n with
  | O => Ok (buf, dp, j)
  | S n' =>
      dp1 <- store 20 dp k (rd dp k - k) ;;
      buf1 <- memcpy AT_BUFFER_SIZE buf (offset + rd dp1 k) (offset + rd dp1 k + 1)
                     (j - rd dp1 k - 1) ;;
      strip_dummies n' (k + 1) buf1 dp1 offset (j - 1)
  end.

(** Lines 181 to 187: the candidate is dropped at a line feed or when the
    buffer is full. *)
Definition reset_if_boundary (c : Z) (ll : llocals) : llocals :=
  if (to_char c =? LF) || (v_j ll + 1 >=? AT_BUFFER_SIZE - v_offset ll) then
    {| v_i := v_i ll; v_offset := v_offset ll;
       v_whole_line_wanted := v_whole_line_wanted ll;
       v_j := 0; v_dummy := 0; v_dummy_pos := v_dummy_pos ll |}
  else ll.

(** ** The engine *)

Section Engine.

Context {port : Type} {ops : serial_ops port}.

(** [sscanf(input, format, &count)] of the C library, for a format whose
    only storing conversion is [%n]: the number it stores in [count], or
    [None] when the scan stops before it stores one. *)
Variable sscanf : list Z -> list Z -> option Z.

(** What the function behind a handler pointer does with the session it
    is given and with the port.  The locals of the engine are out of its
    reach. *)
Variable run_cb : fnptr -> ATParser * port -> ATParser * port.

(** The bytes of the session struct in front of [_buffer], by (negative)
    index: [ATCmdParser_process_oob] reads them while the candidate is
    shorter than the input delimiter. *)
Variable stray : Z -> Z.

Definition emit (w : World port) (e : event) : World port :=
  {| session := session w; io := io w; log := log w ++ [e] |}.

Definition with_buffer (w : World port) (b : list Z) : World port :=
  {| session := set_buffer (session w) b; io := io w; log := log w |}.

(** [at->ops->get(at->character_timeout)] *)
Definition get (w : World port) : Z * World port :=
  let (c, p) := ops_get (character_timeout (session w)) (io w) in
  (c, {| session := session w; io := p; log := log w ++ [EvGet c] |}).

(** [if (oob->cb) oob->cb(at);] *)
Definition invoke (e : oob) (w : World port) : World port :=
  match cb e with
  | None => w
  | Some f =>
      let (a, p) := run_cb f (session w, io w) in
      {| session := a; io := p; log := log w ++ [EvCall f] |}
  end.

(** *** [ATCmdParser_read] *)

(** [data] is the caller's array; the model keeps the bytes the loop has
    written to [data[0]], [data[1]], ... so far. *)
Fixpoint read_loop (n : nat) (w : World port) (i : Z) (data : list Z)
  : Z * list Z * World port :=
  match n with
  | O => (i, data, w)
  | S n' =>
      let (c, w1) := get w in
      if c <? 0 then (-1, data, w1)
      else read_loop n' w1 (i + 1) (data ++ [to_char c])
  end.

(** [for (; i < size; i++)] runs [size] times, and not at all for a
    [size] below 1. *)
Definition ATCmdParser_read (w : World port) (size : Z) : Z * list Z * World port :=
  read_loop (Z.to_nat size) w 0 [].

(** The results of [n] reads in a row, whatever they are. *)
Fixpoint reads (n : nat) (w : World port) : list Z :=
  match n with
  | O => []
  | S n' => let (c, w1) := get w in c :: reads n' w1
  end.

(** *** [ATCmdParser_vrecv] *)

(** Lines 149 to 158.  [count] starts as -1 and [sscanf] is only called
    when the line needs no line feed or the byte is one. *)
Definition verification_count (wlw : bool) (c : Z) (buf : list Z) (offset : Z) : Z :=
  if wlw && negb (to_char c =? LF) then -1
  else match sscanf (cstr buf offset) (cstr buf 0) with
       | Some n => n
       | None => -1
       end.

(** Lines 162 to 178: the body of [if (count == j)]. *)
Definition accept_line (w : World port) (fl : flocals) (ll : llocals)
  : result (World port * flocals) :=
  r <- strip_dummies (Z.to_nat (v_dummy ll)) 0 (_buffer (session w))
                     (v_dummy_pos ll) (v_offset ll) (v_j ll) ;;
  let '(buf1, _, _) := r in
  buf2 <- copy_in AT_BUFFER_SIZE buf1 0 (firstn (Z.to_nat (v_i ll)) (v_response fl)) ;;
  buf3 <- store AT_BUFFER_SIZE buf2 (v_i ll) 0 ;;
  Ok (emit (with_buffer w buf3) (EvExtract (cstr buf3 (v_offset ll)) (cstr buf3 0)),
      {| v_response := skipn (Z.to_nat (v_i ll)) (v_response fl);
         v_in_prev := v_in_prev fl; v_aborted := v_aborted fl |}).

(** Where the control is: at the label [restart], at the head of the loop
    over the lines, at the head of the loop over the bytes, or gone. *)
Inductive config : Type :=
| AtRestart (w : World port) (fl : flocals)
| AtLine (w : World port) (fl : flocals)
| AtChar (w : World port) (fl : flocals) (ll : llocals)
| Done (v : verdict) (w : World port).

(** One round of [while (true)], lines 110 to 188.  In the scan of the
    registry [j] is between 1 and [AT_BUFFER_SIZE], so that the cast
    [(unsigned)j] leaves it as it is. *)
Definition recv_char (w : World port) (fl : flocals) (ll : llocals) : config :=
  let (c, w0) := get w in
  if c <? 0 then Done TimedOut w0
  else
    match append_byte (_buffer (session w0)) (v_in_prev fl) ll c with
    | OutOfBounds k => Done (Overrun k) w0
    | Ok (buf1, ll1) =>
        let fl1 := {| v_response := v_response fl; v_in_prev := to_char c;
                      v_aborted := v_aborted fl |} in
        let w1 := with_buffer w0 buf1 in
        match find (oob_hit buf1 (v_offset ll1) (v_j ll1)) (_oobs (session w1)) with
        | Some e =>
            let w2 := invoke e w1 in
            if v_aborted fl1 then Done Aborted w2 else AtRestart w2 fl1
        | None =>
            let count := verification_count (v_whole_line_wanted ll1) c buf1 (v_offset ll1) in
            if count =? v_j ll1 then
              match accept_line w1 fl1 ll1 with
              | Ok (w3, fl3) => AtLine w3 fl3
              | OutOfBounds k => Done (Overrun k) w1
              end
            else AtChar w1 fl1 (reset_if_boundary c ll1)
        end
    end.

(** The head of [while (response[0])], lines 67 to 107. *)
Definition next_line (w : World port) (fl : flocals) : config :=
  if rd (v_response fl) 0 =? 0 then Done Matched w
  else
    match stage_line (_buffer (session w)) (v_response fl) with
    | OutOfBounds k => Done (Overrun k) w
    | Ok (buf1, i, offset, wlw) =>
        AtChar (emit (with_buffer w buf1) (EvStage (cstr buf1 0))) fl
               {| v_i := i; v_offset := offset; v_whole_line_wanted := wlw;
                  v_j := 0; v_dummy := 0; v_dummy_pos := repeat 0 20 |}
    end.

Definition step (cf : config) : config :=
  match cf with
  | AtRestart w fl =>
      AtLine w {| v_response := v_response fl; v_in_prev := v_in_prev fl;
                  v_aborted := false |}
  | AtLine w fl => next_line w fl
  | AtChar w fl ll => recv_char w fl ll
  | Done v w => Done v w
  end.

Fixpoint run (n : nat) (cf : config) : config :=
  match n with
  | O => cf
  | S n' => run n' (step cf)
  end.

(** The call [ATCmdParser_vrecv(at, response, args)], followed for [n]
    steps.  [_in_prev] starts as 0; [_aborted] has no value before the
    label sets it. *)
Definition ATCmdParser_vrecv (n : nat) (w : World port) (response : list Z) : config :=
  run n (AtRestart w {| v_response := response; v_in_prev := 0; v_aborted := false |}).

Definition verdict_of (cf : config) : option verdict :=
  match cf with
  | Done v _ => Some v
  | _ => None
  end.

Definition world_of (cf : config) : World port :=
  match cf with
  | AtRestart w _ | AtLine w _ | AtChar w _ _ | Done _ w => w
  end.

(** *** [ATCmdParser_process_oob] *)

(** The C string at [at->_buffer + k], also for a [k] below 0. *)
Definition cstr_below (buf : list Z) (k : Z) : list Z :=
  if k <? 0 then
    cstr_from (map (fun n => stray (k + Z.of_nat n)) (seq 0 (Z.to_nat (- k))) ++ buf)
  else cstr buf k.

(** [strcmp(&at->_buffer[i - at->_input_delim_size], at->_input_delimiter) == 0] *)
Definition delimiter_seen (a : ATParser) (i : Z) : bool :=
  bytes_eqb (cstr_below (_buffer a) (i - _input_delim_size a))
            (cstr_from (_input_delimiter a)).

Inductive pconfig : Type :=
| PollAt (w : World port) (i : Z)
| PollDone (r : poll) (w : World port).

(** One round of [while (true)], lines 289 to 320. *)
Definition poll_char (w : World port) (i : Z) : pconfig :=
  let (c, w0) := get w in
  if c <? 0 then PollDone PollTimedOut w0
  else
    match (buf1 <- store AT_BUFFER_SIZE (_buffer (session w0)) i (to_char c) ;;
           store AT_BUFFER_SIZE buf1 (i + 1) 0) with
    | OutOfBounds k => PollDone (PollOverrun k) w0
    | Ok buf2 =>
        let i1 := i + 1 in
        let w1 := with_buffer w0 buf2 in
        match find (oob_hit buf2 0 i1) (_oobs (session w1)) with
        | Some e => PollDone Handled (invoke e w1)
        | None =>
            if (i1 + 1 >=? AT_BUFFER_SIZE) || delimiter_seen (session w1) i1 then
              PollAt (match unprocessed_data (session w1) with
                      | Some f => emit w1 (EvUnprocessed f (region buf2 0 i1))
                      | None => w1
                      end) 0
            else PollAt w1 i1
        end
    end.

Definition poll_step (cf : pconfig) : pconfig :=
  match cf with
  | PollAt w i => poll_char w i
  | PollDone r w => PollDone r w
  end.

Fixpoint poll_run (n : nat) (cf : pconfig) : pconfig :=
  match n with
  | O => cf
  | S n' => poll_run n' (poll_step cf)
  end.

(** The call [ATCmdParser_process_oob(at)], its loop followed for [n]
    rounds. *)
Definition ATCmdParser_process_oob (n : nat) (w : World port) : pconfig :=
  let (r, p) := ops_readable (io w) in
  let w0 := {| session := session w; io := p; log := log w |} in
  if r =? 0 then PollDone Idle w0
  else poll_run n (PollAt w0 0).

End Engine.

(** ** Collaborators for the examples *)

Definition is_space (c : Z) : bool := (c =? 32) || ((9 <=? c) && (c <=? 13)).

Fixpoint skip_space (input : list Z) (consumed : Z) : list Z * Z :=
  match input with
  | [] => ([], consumed)
  | c :: tl => if is_space c then skip_space tl (consumed + 1) else (input, consumed)
  end.

(** [sscanf] on the formats that are made of ordinary characters, white
    space and a closing [%n]: an ordinary character has to be the next one
    of the input, white space in the format eats the white space of the
    input, [%n] stores the count of what was eaten.  A format with another
    conversion is outside of what this stand-in knows and stores nothing. *)
Fixpoint sscanf_plain_from (format input : list Z) (consumed : Z) : option Z :=
  match format with
  | [] => None
  | f :: format' =>
      if f =? ch_percent then
        match format' with
        | n :: _ => if n =? ch_n then Some consumed else None
        | [] => None
        end
      else if is_space f then
        let (input', consumed') := skip_space input consumed in
        sscanf_plain_from format' input' consumed'
      else
        match input with
        | c :: input' =>
            if c =? f then sscanf_plain_from format' input' (consumed + 1) else None
        | [] => None
        end
  end.

Definition sscanf_plain (input format : list Z) : option Z :=
  sscanf_plain_from format input 0.

(** Handlers that leave the session and the port alone. *)
Definition quiet_cb : fnptr -> ATParser * list Z -> ATParser * list Z :=
  fun _ s => s.

(** A session fresh from [ATCmdParser_init] with CR LF delimiters, and the
    world that holds it together with a scripted port. *)
Definition fresh_session : ATParser :=
  ATCmdParser_init [CR; LF] [CR; LF] false.

Definition world0 (a : ATParser) (script : list Z) : World (list Z) :=
  {| session := a; io := script; log := [] |}.

(** A registry with the one prefix [+X], handled by the function 1. *)
Definition session_plus_X : ATParser :=
  ATCmdParser_add_oob fresh_session (bytes "+X") (Some 1%nat).

(** The frames of a configuration, to name the state a run has reached. *)
Definition frame_of {port : Type} (cf : @config port) : flocals :=
  match cf with
  | AtRestart _ fl | AtLine _ fl | AtChar _ fl _ => fl
  | Done _ _ => {| v_response := []; v_in_prev := 0; v_aborted := false |}
  end.

Definition line_frame_of {port : Type} (cf : @config port) : llocals :=
  match cf with
  | AtChar _ _ ll => ll
  | _ => {| v_i := 0; v_offset := 0; v_whole_line_wanted := false;
            v_j := 0; v_dummy := 0; v_dummy_pos := [] |}
  end.

Definition poll_world_of {port : Type} (cf : @pconfig port) : World port :=
  match cf with
  | PollAt w _ | PollDone _ w => w
  end.

(** A receive of [pattern] on a scripted port, with the plain [sscanf] and
    quiet handlers, followed for [n] steps. *)
Definition receive (n : nat) (a : ATParser) (script pattern : list Z)
  : @config (list Z) :=
  ATCmdParser_vrecv sscanf_plain quiet_cb n (world0 a script) pattern.

(** ** Notions of the specification *)

(** The verification template the specification asks for: the line with
    every [%] that is followed neither by [%] nor by [*] replaced by [%*]. *)
Fixpoint rewrite_spec (line : list Z) : list Z :=
  match line with
  | [] => []
  | c :: tl =>
      if (c =? ch_percent) && negb (hd 0 tl =? ch_percent) && negb (hd 0 tl =? ch_star)
      then ch_percent :: ch_star :: rewrite_spec tl
      else c :: rewrite_spec tl
  end.

(** The line has a line feed at [k] that does not come right behind the two
    characters of an opening [[^]. *)
Definition bare_lf_at (line : list Z) (k : Z) : Prop :=
  0 <= k < Zlength line /\ rd line k = LF /\
  ~ (rd line (k - 2) = ch_lbracket /\ rd line (k - 1) = ch_caret).

(** A node as [ATCmdParser_add_oob] makes it. *)
Definition oob_wf (e : oob) : Prop := len e = Zlength (prefix e).

(** The accumulated candidate: the [j] bytes behind the template. *)
Definition candidate (buf : list Z) (ll : llocals) : list Z :=
  region buf (v_offset ll) (v_j ll).

(** The flag [_aborted] is clear wherever the control is, and the call has
    not ended as aborted. *)
Definition clean {port : Type} (cf : @config port) : Prop :=
  match cf with
  | AtRestart _ _ => True
  | AtLine _ fl => v_aborted fl = false
  | AtChar _ fl _ => v_aborted fl = false
  | Done v _ => v <> Aborted
  end.

(** The state at the head of the loop over the bytes: the buffer has its
    cells, the template lies in front of the candidate, and no filler is
    pending.  Every round of a receive starts in such a state
    ([vrecv_config_wf] below). *)
Definition line_wf (buf : list Z) (ll : llocals) : Prop :=
  Zlength buf = AT_BUFFER_SIZE /\
  0 <= v_i ll < v_offset ll /\
  0 <= v_j ll /\
  v_dummy ll = 0 /\
  List.length (v_dummy_pos ll) = 20%nat.

(** The same for any place of the control. *)
Definition config_wf {port : Type} (cf : @config port) : Prop :=
  match cf with
  | AtRestart w _ | AtLine w _ => Zlength (_buffer (session w)) = AT_BUFFER_SIZE
  | AtChar w _ ll => line_wf (_buffer (session w)) ll
  | Done _ _ => True
  end.

(** ** The sending side *)

(** [put(c)] of [serial_ops]: a negative result is a failure. *)
Class serial_put (port : Type) : Type := {
  ops_put : Z -> port -> Z * port
}.

(** How a call of [ATCmdParser_vsend] ends: [return true], the two kinds of
    [return false], a write outside of the buffer, or the polls in front
    of the command have not come to an end. *)
Inductive sending : Type :=
| Sent
| NotFormatted
| PutFailed
| SendOverrun (idx : Z)
| Polling.

Definition send_returned (s : sending) : option bool :=
  match s with
  | Sent => Some true
  | NotFormatted | PutFailed => Some false
  | SendOverrun _ | Polling => None
  end.

Section Sending.

Context {port : Type} {ops : serial_ops port} {puts : serial_put port}.

Variable run_cb : fnptr -> ATParser * port -> ATParser * port.
Variable stray : Z -> Z.

(** [vsprintf] together with the arguments of the call: the text a command
    is formatted to, without its terminator, or nothing when [vsprintf]
    returns a negative number. *)
Variable vsprintf : list Z -> option (list Z).

(** A loop of [put] over a string, left at the first [put] that fails:
    lines 205 to 209 and 212 to 216. *)
Fixpoint put_all (data : list Z) (p : port) : bool * port :=
  match data with
  | [] => (true, p)
  | c :: tl =>
      let (r, p1) := ops_put c p in
      if r <? 0 then (false, p1) else put_all tl p1
  end.

(** *** [ATCmdParser_write] *)

Fixpoint write_loop (n : nat) (data : list Z) (p : port) (i : Z) : Z * port :=
  match n with
  | O => (i, p)
  | S n' =>
      let (r, p1) := ops_put (rd data i) p in
      if r <? 0 then (-1, p1) else write_loop n' data p1 (i + 1)
  end.

(** [for (; i < size; i++)] runs [size] times, and not at all for a [size]
    below 1; [data] is the caller's array. *)
Definition ATCmdParser_write (w : World port) (data : list Z) (size : Z) : Z * World port :=
  let (r, p) := write_loop (Z.to_nat size) data (io w) 0 in
  (r, {| session := session w; io := p; log := log w |}).

(** *** [ATCmdParser_vsend] *)

(** [while (ATCmdParser_process_oob(at));] for [rounds] polls at most, each
    followed for [n] rounds of its own loop. *)
Fixpoint poll_all (rounds n : nat) (w : World port) : pconfig :=
  match rounds with
  | O => PollAt w 0
  | S rounds' =>
      match ATCmdParser_process_oob run_cb stray n w with
      | PollDone Handled w1 => poll_all rounds' n w1
      | cf => cf
      end
  end.

(** Lines 195 to 219, without the trace.  [vsprintf] writes the text and
    its terminator from the head of [_buffer] on, whatever their length;
    what it leaves there when it fails is not modelled. *)
Definition ATCmdParser_vsend (rounds n : nat) (w : World port) (command : list Z)
  : sending * World port :=
  match poll_all rounds n w with
  | PollAt w1 _ => (Polling, w1)
  | PollDone Handled w1 => (Polling, w1)
  | PollDone (PollOverrun k) w1 => (SendOverrun k, w1)
  | PollDone _ w1 =>
      match vsprintf command with
      | None => (NotFormatted, w1)
      | Some text =>
          match copy_in AT_BUFFER_SIZE (_buffer (session w1)) 0 (text ++ [0]) with
          | OutOfBounds k => (SendOverrun k, w1)
          | Ok buf =>
              let (ok, p1) := put_all (cstr buf 0) (io w1) in
              if ok then
                let (ok', p2) := put_all (cstr_from (_output_delimiter (session w1))) p1 in
                (if ok' then Sent else PutFailed,
                 {| session := set_buffer (session w1) buf; io := p2; log := log w1 |})
              else
                (PutFailed,
                 {| session := set_buffer (session w1) buf; io := p1; log := log w1 |})
          end
      end
  end.

End Sending.

(** A port with both directions: the script of the reads, the bytes put so
    far, and the number of times [put] will still go through. *)
Record wire : Type := {
  rx : list Z;
  tx : list Z;
  credit : nat
}.

#[export] Instance wire_ops : serial_ops wire := {
  ops_get := fun _ p =>
    match rx p with
    | [] => (-1, p)
    | c :: tl => (c, {| rx := tl; tx := tx p; credit := credit p |})
    end;
  ops_readable := fun p =>
    match rx p with
    | [] => (0, p)
    | _ :: _ => (1, p)
    end
}.

#[export] Instance wire_put : serial_put wire := {
  ops_put := fun c p =>
    match credit p with
    | O => (-1, p)
    | S k => (0, {| rx := rx p; tx := tx p ++ [c]; credit := k |})
    end
}.

(** [vsprintf] on the commands without a conversion: the text is the
    command. *)
Definition vsprintf_plain (command : list Z) : option (list Z) :=
  if existsb (Z.eqb ch_percent) command then None else Some command.
(** ** Notions for the argument splitter *)

(** What a separator becomes in place. *)
Definition zap (c : Z) : Z := if c =? ch_comma then 0 else c.

(** The fields of a string, cut at every comma. *)
Fixpoint fields (s : list Z) : list (list Z) :=
  match s with
  | [] => [[]]
  | c :: tl =>
      if c =? ch_comma then [] :: fields tl
      else match fields tl with
           | f :: fs => (c :: f) :: fs
           | [] => [[c]]
           end
  end.

(** The number of commas of a string. *)
Fixpoint commas (s : list Z) : Z :=
  match s with
  | [] => 0
  | c :: tl => (if c =? ch_comma then 1 else 0) + commas tl
  end.

(** The indices right behind the commas of a string that starts at index
    [k]. *)
Fixpoint starts (s : list Z) (k : Z) : list Z :=
  match s with
  | [] => []
  | c :: tl => if c =? ch_comma then (k + 1) :: starts tl (k + 1) else starts tl (k + 1)
  end.

(** Some comma of the string comes right behind a backslash; [prev] is the
    byte in front of the string. *)
Fixpoint escaped_comma (prev : Z) (s : list Z) : bool :=
  match s with
  | [] => false
  | c :: tl => ((c =? ch_comma) && (prev =? ch_backslash)) || escaped_comma c tl
  end.

(** The state at the head of the loop of the idle poller: the buffer has
    its cells and two of them are free behind the candidate.  A poll has
    not ended by a write outside of the buffer. *)
Definition poll_wf {port : Type} (cf : @pconfig port) : Prop :=
  match cf with
  | PollAt w i =>
      Zlength (_buffer (session w)) = AT_BUFFER_SIZE /\ 0 <= i /\ i + 1 < AT_BUFFER_SIZE
  | PollDone r _ => forall k, r <> PollOverrun k
  end.

(** The buffer of the session a poll has reached is an array of
    [AT_BUFFER_SIZE] cells. *)
Definition poll_sized {port : Type} (cf : @pconfig port) : Prop :=
  Zlength (_buffer (session (poll_world_of cf))) = AT_BUFFER_SIZE.

(** A receive whose pattern leaves room in the buffer: the buffer has its
    cells, the rest of the pattern is short enough for its template and
    five cells more, the sentinel cell of the candidate is inside the
    buffer, and a call that has ended by a write outside has done so at
    [_buffer[AT_BUFFER_SIZE]], right behind the read of a line feed. *)
Definition roomy {port : Type} (cf : @config port) : Prop :=
  match cf with
  | AtRestart w fl | AtLine w fl =>
      Zlength (_buffer (session w)) = AT_BUFFER_SIZE /\
      2 * Zlength (v_response fl) + 5 <= AT_BUFFER_SIZE
  | AtChar w fl ll =>
      line_wf (_buffer (session w)) ll /\
      v_offset ll + v_j ll + 1 < AT_BUFFER_SIZE /\
      2 * Zlength (v_response fl) + 5 <= AT_BUFFER_SIZE
  | Done v w =>
      forall k, v = Overrun k ->
                k = AT_BUFFER_SIZE /\
                exists l c, log w = l ++ [EvGet c] /\ to_char c = LF
  end.

(** The receive of the one-line pattern [s] at the head of the loop over
    the bytes, [k] bytes of the input [m] read and kept as the candidate;
    [rest] is what the port holds behind [m]. *)
Definition reading (a : ATParser) (s m rest : list Z) (k : nat)
           (cf : @config (list Z)) : Prop :=
  match cf with
  | AtChar w fl ll =>
      let buf := _buffer (session w) in
      let template := rewrite_spec s ++ [ch_percent; ch_n] in
      _oobs (session w) = _oobs a /\
      io w = skipn k m ++ rest /\
      Zlength buf = AT_BUFFER_SIZE /\
      region buf 0 (Zlength template) = template /\
      rd buf (Zlength template) = 0 /\
      v_i ll = Zlength s /\
      v_offset ll = Zlength template + 1 /\
      v_whole_line_wanted ll = false /\
      v_j ll = Z.of_nat k /\
      v_dummy ll = 0 /\
      List.length (v_dummy_pos ll) = 20%nat /\
      region buf (v_offset ll) (v_j ll) = firstn k m /\
      v_response fl = s
  | _ => False
  end.

(** ** Facts about arrays *)

Lemma upd_length (n : nat) (v : Z) (m : list Z) :
  List.length (upd n v m) = List.length m.
Proof.
  revert n; induction m as [|x tl IH]; intros [|n]; simpl; auto.
Qed.

Lemma store_inv (cap : Z) (m : list Z) (k v : Z) (m' : list Z) :
  store cap m k v = Ok m' -> 0 <= k < cap /\ m' = upd (Z.to_nat k) v m.
Proof.
  unfold store.
  destruct (0 <=? k) eqn:E1; destruct (k <? cap) eqn:E2; simpl; try discriminate.
  intros Heq; inversion Heq; split; [lia | reflexivity].
Qed.

Lemma store_in_range (cap : Z) (m : list Z) (k v : Z) :
  0 <= k < cap -> store cap m k v = Ok (upd (Z.to_nat k) v m).
Proof.
  intros Hk; unfold store.
  destruct (0 <=? k) eqn:E1; destruct (k <? cap) eqn:E2; simpl; auto; lia.
Qed.


Lemma store_Zlength (cap : Z) (m : list Z) (k v : Z) (m' : list Z) :
  store cap m k v = Ok m' -> Zlength m' = Zlength m.
Proof.
  intros Hs; apply store_inv in Hs; destruct Hs as [_ ->].
  rewrite !Zlength_correct, upd_length; reflexivity.
Qed.

Lemma bind_Ok {A B : Type} (r : result A) (k : A -> result B) (b : B) :
  bind r k = Ok b -> exists a, r = Ok a /\ k a = Ok b.
Proof.
  destruct r as [a|idx]; simpl; [eauto | discriminate].
Qed.

Lemma bytes_eqb_eq (a b : list Z) : bytes_eqb a b = true <-> a = b.
Proof.
  unfold bytes_eqb; destruct (list_eq_dec Z.eq_dec a b); split; auto; discriminate.
Qed.

Lemma region_Zlength (m : list Z) (k n : Z) :
  0 <= k -> 0 <= n -> k + n <= Zlength m -> Zlength (region m k n) = n.
Proof.
  intros Hk Hn Hle; unfold region.
  rewrite Zlength_correct in *.
  rewrite length_firstn, length_skipn; lia.
Qed.

(** ** The argument splitter on the example of its header *)

(** C8: on the string [111,222,333\,33,444] with four slots the function
    returns 4, but the four strings it leaves are [,11], [222], [333\33]
    and [4444], not the [111], [222], [333,33] and [444] of the header:
    [args[i - i]] writes the comma over the first byte of the string, the
    backslash stays, and the shift leaves the last byte twice. *)
Theorem analyse_args_header_example :
  exists args' arg_list',
    Args.ATCmdParser_analyse_args Args.example_args [0; 0; 0; 0] 4
    = Ok (4, args', arg_list') /\
    Args.arguments args' arg_list' 4
    = [bytes ",11"; bytes "222"; bytes "333\33"; bytes "4444"] /\
    Args.arguments args' arg_list' 4
    <> [bytes "111"; bytes "222"; bytes "333,33"; bytes "444"].
Proof.
  eexists; eexists; split; [vm_compute; reflexivity|].
  split; [vm_compute; reflexivity | vm_compute; discriminate].
Qed.

(** ** The idle poller with nothing to read *)

(** C9: when [readable()] answers 0, [ATCmdParser_process_oob] returns
    false at once, whatever the state and however many rounds its loop
    would be given: the session, scratch buffer included, is the one it was
    called with, nothing is read from the port and no handler or sink is
    called, and the port is left as the poll itself left it. *)
Theorem process_oob_idle_when_not_readable
        {port : Type} {ops : serial_ops port}
        (run_cb : fnptr -> ATParser * port -> ATParser * port)
        (stray : Z -> Z) (n : nat) (w : World port) :
  fst (ops_readable (io w)) = 0 ->
  exists w',
    ATCmdParser_process_oob run_cb stray n w = PollDone Idle w' /\
    poll_returned Idle = Some false /\
    session w' = session w /\
    log w' = log w /\
    io w' = snd (ops_readable (io w)).
Proof.
  intros Hr; unfold ATCmdParser_process_oob.
  destruct (ops_readable (io w)) as [r p]; simpl in *; subst r; simpl.
  eexists; repeat split.
Qed.

Lemma process_oob_idle_when_not_readable_witness :
  fst (ops_readable (io (world0 fresh_session []))) = 0 /\
  exists w',
    ATCmdParser_process_oob quiet_cb (fun _ => 0) 5 (world0 fresh_session [])
    = PollDone Idle w' /\
    poll_returned Idle = Some false /\
    session w' = fresh_session /\
    log w' = [] /\
    io w' = [].
Proof.
  split; [reflexivity|].
  exact (process_oob_idle_when_not_readable quiet_cb (fun _ => 0) 5
           (world0 fresh_session []) eq_refl).
Defined.

(** ** Timeouts *)

Section ReadFacts.

Context {port : Type} {ops : serial_ops port}.

Lemma read_loop_all (n : nat) :
  forall (w : World port) (i : Z) (data : list Z),
    Forall (fun c => 0 <= c) (reads n w) ->
    fst (fst (read_loop n w i data)) = i + Z.of_nat n /\
    snd (fst (read_loop n w i data)) = data ++ map to_char (reads n w).
Proof.
  induction n as [|n IH]; intros w i data Hall.
  - simpl; split; [lia | rewrite app_nil_r; reflexivity].
  - simpl in *. destruct (get w) as [c w1].
    inversion Hall as [|c' l' Hc Hl]; subst.
    destruct (c <? 0) eqn:E; [lia|].
    destruct (IH w1 (i + 1) (data ++ [to_char c]) Hl) as [H1 H2].
    rewrite H1, H2; split; [lia|].
    rewrite <- app_assoc; reflexivity.
Qed.

Lemma read_loop_timeout (n : nat) :
  forall (w : World port) (i : Z) (data : list Z),
    Exists (fun c => c < 0) (reads n w) ->
    fst (fst (read_loop n w i data)) = -1.
Proof.
  induction n as [|n IH]; intros w i data Hex.
  - simpl in Hex; inversion Hex.
  - simpl in *. destruct (get w) as [c w1].
    destruct (c <? 0) eqn:E; [reflexivity|].
    inversion Hex as [c' l' Hc | c' l' Hl]; subst; [lia|].
    apply IH; assumption.
Qed.

Lemma reads_all_or_timeout (n : nat) (w : World port) :
  Forall (fun c => 0 <= c) (reads n w) \/ Exists (fun c => c < 0) (reads n w).
Proof.
  destruct (Forall_Exists_dec (fun c => 0 <= c)
                              (fun c => Z_le_dec 0 c) (reads n w)) as [Hf|He].
  - left; assumption.
  - right. apply Exists_impl with (P := fun c => ~ 0 <= c); [intros; lia | assumption].
Qed.

End ReadFacts.

(** C7: a read of the port that times out inside [ATCmdParser_vrecv] ends
    the call with [false] in that very round, with no read after it; and for
    a size [n] that is not negative [ATCmdParser_read] returns -1 as soon as
    one of its [n] reads times out, and [n] exactly when all of them give a
    byte. *)
Theorem timeout_is_surfaced_at_once
        {port : Type} {ops : serial_ops port}
        (sscanf : list Z -> list Z -> option Z)
        (run_cb : fnptr -> ATParser * port -> ATParser * port)
        (w : World port) (fl : flocals) (ll : llocals) (k : nat)
        (w2 : World port) (n : Z) :
  (fst (get w) < 0 ->
     run sscanf run_cb (S k) (AtChar w fl ll) = Done TimedOut (snd (get w)) /\
     returned TimedOut = Some false /\
     log (snd (get w)) = log w ++ [EvGet (fst (get w))]) /\
  (0 <= n ->
     (Exists (fun c => c < 0) (reads (Z.to_nat n) w2) ->
        fst (fst (ATCmdParser_read w2 n)) = -1) /\
     (Forall (fun c => 0 <= c) (reads (Z.to_nat n) w2) <->
        fst (fst (ATCmdParser_read w2 n)) = n)).
Proof.
  split.
  - intros Hneg. split; [|split; [reflexivity|]].
    + simpl. unfold recv_char.
      destruct (get w) as [c w0] eqn:G; simpl in *.
      destruct (c <? 0) eqn:E; [|lia].
      clear; induction k as [|k IH]; simpl; auto.
    + unfold get. destruct (ops_get _ _); reflexivity.
  - intros Hn. unfold ATCmdParser_read. split.
    + apply read_loop_timeout.
    + split.
      * intros Hall. destruct (read_loop_all (Z.to_nat n) w2 0 [] Hall) as [H1 _].
        rewrite H1; lia.
      * intros Hret.
        destruct (reads_all_or_timeout (Z.to_nat n) w2) as [Hall|Hex]; [assumption|].
        rewrite (read_loop_timeout _ w2 0 [] Hex) in Hret; lia.
Qed.

Lemma timeout_is_surfaced_at_once_witness :
  let cf := receive 3 fresh_session [79] (bytes "OK") in
  let w2 := world0 fresh_session [65; -1; 66] in
  (fst (get (world_of cf)) < 0 /\
   run sscanf_plain quiet_cb 1 cf = Done TimedOut (snd (get (world_of cf)))) /\
  (0 <= 3 /\ Exists (fun c => c < 0) (reads 3 w2) /\
   fst (fst (ATCmdParser_read w2 3)) = -1).
Proof.
  intros cf w2.
  pose proof (timeout_is_surfaced_at_once sscanf_plain quiet_cb
                (world_of cf) (frame_of cf) (line_frame_of cf) 0 w2 3) as [H1 H2].
  assert (Hneg : fst (get (world_of cf)) < 0) by (vm_compute; reflexivity).
  assert (Hex : Exists (fun c => c < 0) (reads 3 w2)) by (right; left; simpl; lia).
  split.
  - split; [exact Hneg | exact (proj1 (H1 Hneg))].
  - split; [lia | split; [exact Hex | exact (proj1 (H2 ltac:(lia)) Hex)]].
Defined.

(** ** The abort flag *)

Section EngineFacts.

Context {port : Type} {ops : serial_ops port}.
Variable sscanf : list Z -> list Z -> option Z.
Variable run_cb : fnptr -> ATParser * port -> ATParser * port.

Lemma accept_line_frame (w w' : World port) (fl fl' : flocals) (ll : llocals) :
  accept_line w fl ll = Ok (w', fl') ->
  v_response fl' = skipn (Z.to_nat (v_i ll)) (v_response fl) /\
  v_in_prev fl' = v_in_prev fl /\
  v_aborted fl' = v_aborted fl.
Proof.
  unfold accept_line; intros Hacc.
  apply bind_Ok in Hacc; destruct Hacc as ([[buf1 dp1] j1] & _ & Hacc).
  apply bind_Ok in Hacc; destruct Hacc as (buf2 & _ & Hacc).
  apply bind_Ok in Hacc; destruct Hacc as (buf3 & _ & Hacc).
  inversion Hacc; subst; simpl; auto.
Qed.

Lemma step_clean (cf : config) : clean cf -> clean (step sscanf run_cb cf).
Proof.
  destruct cf as [w fl | w fl | w fl ll | v w]; simpl; intros Hc; auto.
  - unfold next_line.
    destruct (rd (v_response fl) 0 =? 0); simpl; [discriminate|].
    destruct (stage_line _ _) as [[[[buf1 i] offset] wlw]|k]; simpl;
      [assumption | discriminate].
  - unfold recv_char.
    destruct (get w) as [c w0].
    destruct (c <? 0); simpl; [discriminate|].
    destruct (append_byte _ _ _ _) as [[buf1 ll1]|k]; simpl; [|discriminate].
    destruct (find _ _) as [e|].
    + rewrite Hc; simpl; exact I.
    + destruct (_ =? _).
      * destruct (accept_line _ _ _) as [[w3 fl3]|k] eqn:Hacc; simpl; [|discriminate].
        apply accept_line_frame in Hacc; simpl in Hacc.
        destruct Hacc as (_ & _ & ->); assumption.
      * simpl; assumption.
Qed.

Lemma run_clean (n : nat) : forall cf : config, clean cf -> clean (run sscanf run_cb n cf).
Proof.
  induction n as [|n IH]; intros cf Hc; simpl; [assumption|].
  apply IH, step_clean, Hc.
Qed.



End EngineFacts.

(** C4: the test [if (_aborted)] behind the call of a handler never
    succeeds.  [_aborted] is a local of [ATCmdParser_vrecv] that the label
    [restart] clears and that nothing sets, and a handler is given the
    session only, so whatever the handlers do no receive ends as aborted.
    With the prefix [+X] registered and the bytes [+XOK] on the line, a
    receive of [OK] calls the handler once, starts again and returns true. *)
Theorem vrecv_never_aborted
        {port : Type} {ops : serial_ops port}
        (sscanf : list Z -> list Z -> option Z)
        (run_cb : fnptr -> ATParser * port -> ATParser * port)
        (n : nat) (w : World port) (response : list Z) :
  verdict_of (ATCmdParser_vrecv sscanf run_cb n w response) <> Some Aborted /\
  verdict_of (receive 12 session_plus_X (bytes "+XOK") (bytes "OK")) = Some Matched /\
  calls_of 1%nat (log (world_of (receive 12 session_plus_X (bytes "+XOK") (bytes "OK")))) = 1%nat.
Proof.
  split; [|split; vm_compute; reflexivity].
  unfold ATCmdParser_vrecv.
  pose proof (run_clean sscanf run_cb n
                (AtRestart w {| v_response := response; v_in_prev := 0;
                                v_aborted := false |}) I) as Hc.
  destruct (run _ _ _ _) as [w' fl | w' fl | w' fl ll | v w']; simpl in *;
    try discriminate.
  intros Heq; inversion Heq; subst; apply Hc; reflexivity.
Qed.

(** C5: with the pattern [OK\n] the template takes 6 cells.  After 2039
    bytes [a] and a colon the candidate holds 2040 bytes and passes the
    test of line 183; the line feed that follows then gets its filler at
    cell 2046, itself at cell 2047, and its sentinel at cell 2048, one
    behind the last cell of [_buffer].  No call of [sscanf] or of a handler
    comes before that write. *)
Theorem filler_overruns_buffer
        (sscanf : list Z -> list Z -> option Z)
        (run_cb : fnptr -> ATParser * list Z -> ATParser * list Z) :
  verdict_of (ATCmdParser_vrecv sscanf run_cb 2050
                (world0 fresh_session (repeat 97 2039 ++ [ch_colon; LF]))
                (bytes "OK" ++ [LF]))
  = Some (Overrun AT_BUFFER_SIZE).
Proof.
  vm_compute; reflexivity.
Qed.

(** ** One round of the loop over the bytes *)

Lemma append_byte_inv (buf : list Z) (in_prev : Z) (ll : llocals) (c : Z)
      (buf1 : list Z) (ll1 : llocals) :
  append_byte buf in_prev ll c = Ok (buf1, ll1) ->
  v_i ll1 = v_i ll /\ v_offset ll1 = v_offset ll /\
  v_whole_line_wanted ll1 = v_whole_line_wanted ll /\
  Zlength buf1 = Zlength buf /\
  0 <= v_offset ll + v_j ll1 < AT_BUFFER_SIZE /\
  ((to_char c = LF /\ in_prev = ch_colon /\
    v_j ll1 = v_j ll + 2 /\ v_dummy ll1 = v_dummy ll + 1 /\
    0 <= v_dummy ll < 20 /\
    v_dummy_pos ll1 = upd (Z.to_nat (v_dummy ll)) (v_j ll) (v_dummy_pos ll))
   \/
   (~ (to_char c = LF /\ in_prev = ch_colon) /\
    v_j ll1 = v_j ll + 1 /\ v_dummy ll1 = v_dummy ll /\
    v_dummy_pos ll1 = v_dummy_pos ll)).
Proof.
  unfold append_byte; intros Happ.
  apply bind_Ok in Happ; destruct Happ as ([[[b1 j1] d1] dp1] & Hfill & Happ).
  apply bind_Ok in Happ; destruct Happ as (b2 & Hs2 & Happ).
  apply bind_Ok in Happ; destruct Happ as (b3 & Hs3 & Happ).
  inversion Happ; subst; clear Happ; simpl.
  pose proof (store_Zlength _ _ _ _ _ Hs2) as L2.
  pose proof (store_Zlength _ _ _ _ _ Hs3) as L3.
  apply store_inv in Hs3; destruct Hs3 as [R3 _].
  destruct ((to_char c =? LF) && (in_prev =? ch_colon)) eqn:E.
  - apply andb_true_iff in E; destruct E as [E1 E2].
    apply Z.eqb_eq in E1; apply Z.eqb_eq in E2.
    apply bind_Ok in Hfill; destruct Hfill as (dp & Hdp & Hfill).
    apply bind_Ok in Hfill; destruct Hfill as (b0 & Hs0 & Hfill).
    inversion Hfill; subst; clear Hfill.
    pose proof (store_Zlength _ _ _ _ _ Hs0) as L0.
    apply store_inv in Hdp; destruct Hdp as [Rd ->].
    repeat split; try lia.
    left; repeat split; try lia; auto.
  - inversion Hfill; subst; clear Hfill.
    repeat split; try lia.
    right; repeat split; lia.
Qed.

Lemma memcpy_up_in_range (n : nat) (cap : Z) :
  forall (m : list Z) (dst src : Z),
    0 <= dst -> dst + Z.of_nat n <= cap ->
    exists m', memcpy_up n cap m dst src = Ok m' /\ Zlength m' = Zlength m.
Proof.
  induction n as [|n IH]; intros m dst src Hd Hc; simpl.
  - eauto.
  - rewrite store_in_range by lia; simpl.
    destruct (IH (upd (Z.to_nat dst) (rd m src) m) (dst + 1) (src + 1))
      as (m' & Hm & Hl); try lia.
    exists m'; split; [exact Hm|].
    rewrite Hl, !Zlength_correct, upd_length; reflexivity.
Qed.

Lemma copy_in_in_range (cap : Z) (src : list Z) :
  forall (m : list Z) (dst : Z),
    0 <= dst -> dst + Zlength src <= cap ->
    exists m', copy_in cap m dst src = Ok m' /\ Zlength m' = Zlength m.
Proof.
  induction src as [|c tl IH]; intros m dst Hd Hc; simpl.
  - eauto.
  - rewrite Zlength_cons in Hc. pose proof (Zlength_correct tl).
    rewrite store_in_range by lia; simpl.
    destruct (IH (upd (Z.to_nat dst) c m) (dst + 1)) as (m' & Hm & Hl); try lia.
    exists m'; split; [exact Hm|].
    rewrite Hl, !Zlength_correct, upd_length; reflexivity.
Qed.

Lemma rd_upd_same (m : list Z) (k v : Z) :
  0 <= k < Zlength m -> rd (upd (Z.to_nat k) v m) k = v.
Proof.
  intros Hk; unfold rd.
  destruct (k <? 0) eqn:E; [lia|].
  rewrite Zlength_correct in Hk.
  assert (Hn : (Z.to_nat k < List.length m)%nat) by lia.
  clear E Hk; revert Hn; generalize (Z.to_nat k) as n.
  induction m as [|x tl IH]; intros [|n] Hn; simpl in *; try lia; auto.
  apply IH; lia.
Qed.

Lemma Zlength_firstn_le (n : nat) (l : list Z) : Zlength (firstn n l) <= Z.of_nat n.
Proof.
  rewrite Zlength_correct, length_firstn; lia.
Qed.

Lemma strip_dummies_total (buf : list Z) (in_prev : Z) (ll : llocals) (c : Z)
      (buf1 : list Z) (ll1 : llocals) :
  line_wf buf ll ->
  append_byte buf in_prev ll c = Ok (buf1, ll1) ->
  exists buf2 dp2 j2,
    strip_dummies (Z.to_nat (v_dummy ll1)) 0 buf1 (v_dummy_pos ll1)
                  (v_offset ll1) (v_j ll1) = Ok (buf2, dp2, j2) /\
    Zlength buf2 = AT_BUFFER_SIZE.
Proof.
  intros (Hlen & Hi & Hj & Hd & Hdp) Happ.
  apply append_byte_inv in Happ.
  destruct Happ as (Ei & Eo & _ & Hl1 & Hr & [Hfill | Hplain]).
  - destruct Hfill as (_ & _ & Ej & Ed & _ & Edp).
    destruct (v_dummy_pos ll) as [|d0 dtl]; [discriminate|].
    rewrite Ed, Hd, Edp, Hd, Eo, Ej.
    change (Z.to_nat (0 + 1)) with 1%nat. change (Z.to_nat 0) with 0%nat.
    cbn [strip_dummies upd].
    rewrite store_in_range by lia.
    cbn [bind Z.to_nat upd].
    replace (rd (rd (v_j ll :: dtl) 0 - 0 :: dtl) 0) with (v_j ll)
      by (unfold rd; simpl; lia).
    unfold memcpy.
    destruct (memcpy_up_in_range (Z.to_nat (v_j ll + 2 - v_j ll - 1))
                AT_BUFFER_SIZE buf1 (v_offset ll + v_j ll)
                (v_offset ll + v_j ll + 1)) as (m' & Hm & Hlm); try lia.
    rewrite Hm; simpl. do 3 eexists; split; [reflexivity | lia].
  - destruct Hplain as (_ & Ej & Ed & Edp).
    rewrite Ed, Hd; simpl. do 3 eexists; split; [reflexivity | lia].
Qed.

Section RoundFacts.

Context {port : Type} {ops : serial_ops port}.
Variable sscanf : list Z -> list Z -> option Z.
Variable run_cb : fnptr -> ATParser * port -> ATParser * port.

Lemma accept_line_total (w1 : World port) (fl1 : flocals)
      (buf : list Z) (in_prev : Z) (ll : llocals) (c : Z) (ll1 : llocals) :
  line_wf buf ll ->
  append_byte buf in_prev ll c = Ok (_buffer (session w1), ll1) ->
  exists w3 fl3, accept_line w1 fl1 ll1 = Ok (w3, fl3).
Proof.
  intros Hwf Happ.
  destruct (strip_dummies_total _ _ _ _ _ _ Hwf Happ) as (buf2 & dp2 & j2 & Hs & Hl2).
  destruct Hwf as (Hlen & Hi & Hj & Hd & Hdp).
  apply append_byte_inv in Happ.
  destruct Happ as (Ei & Eo & _ & Hl1 & Hr & Hcases).
  assert (Hj1 : v_j ll <= v_j ll1) by (destruct Hcases as [H|H]; lia).
  unfold accept_line. rewrite Hs; simpl.
  pose proof (Zlength_firstn_le (Z.to_nat (v_i ll1)) (v_response fl1)) as Hf.
  destruct (copy_in_in_range AT_BUFFER_SIZE
              (firstn (Z.to_nat (v_i ll1)) (v_response fl1)) buf2 0)
    as (m' & Hm & Hlm); try lia.
  rewrite Hm; simpl.
  rewrite store_in_range by lia; simpl.
  eauto.
Qed.

End RoundFacts.

(** C1: in a round of the receive loop that gets a byte and finds no OOB
    prefix, the line is accepted (the control leaves the loop over the
    bytes for the next line) exactly when the verification was run and the
    count it stored is the length of the candidate, filler included.  When
    the verification is skipped, or when [sscanf] stores no count, a count
    below the length (the template accounts for a proper prefix only) or a
    count above it, the loop goes on to the next byte. *)
Theorem line_accepted_iff_whole_candidate_consumed
        {port : Type} {ops : serial_ops port}
        (sscanf : list Z -> list Z -> option Z)
        (run_cb : fnptr -> ATParser * port -> ATParser * port)
        (w w0 : World port) (fl : flocals) (ll ll1 : llocals)
        (c : Z) (buf1 : list Z) :
  line_wf (_buffer (session w)) ll ->
  get w = (c, w0) ->
  0 <= c ->
  append_byte (_buffer (session w0)) (v_in_prev fl) ll c = Ok (buf1, ll1) ->
  find (oob_hit buf1 (v_offset ll1) (v_j ll1)) (_oobs (session w0)) = None ->
  let attempted := negb (v_whole_line_wanted ll && negb (to_char c =? LF)) in
  let consumed := sscanf (cstr buf1 (v_offset ll)) (cstr buf1 0) in
  ((exists w' fl', step sscanf run_cb (AtChar w fl ll) = AtLine w' fl' /\
                   v_response fl' = skipn (Z.to_nat (v_i ll)) (v_response fl))
   <-> (attempted = true /\ consumed = Some (v_j ll1))) /\
  (~ (attempted = true /\ consumed = Some (v_j ll1)) ->
   exists ll', step sscanf run_cb (AtChar w fl ll) = AtChar (with_buffer w0 buf1)
                 {| v_response := v_response fl; v_in_prev := to_char c;
                    v_aborted := v_aborted fl |} ll') /\
  (forall n, consumed = Some n -> n < v_j ll1 ->
   exists ll', step sscanf run_cb (AtChar w fl ll) = AtChar (with_buffer w0 buf1)
                 {| v_response := v_response fl; v_in_prev := to_char c;
                    v_aborted := v_aborted fl |} ll').
Proof.
  intros Hwf Hget Hc Happ Hfind attempted consumed.
  assert (Hbuf : _buffer (session w0) = _buffer (session w)).
  { unfold get in Hget. destruct (ops_get _ _); inversion Hget; reflexivity. }
  rewrite <- Hbuf in Hwf.
  pose proof (append_byte_inv _ _ _ _ _ _ Happ) as (Ei & Eo & Ew & Hl1 & Hr & Hcases).
  assert (Hj1 : 1 <= v_j ll1).
  { destruct Hwf as (_ & _ & Hj & _). destruct Hcases as [H|H]; lia. }
  assert (Hstep : step sscanf run_cb (AtChar w fl ll) =
                  if verification_count sscanf (v_whole_line_wanted ll) c buf1 (v_offset ll)
                     =? v_j ll1
                  then match accept_line (with_buffer w0 buf1)
                               {| v_response := v_response fl; v_in_prev := to_char c;
                                  v_aborted := v_aborted fl |} ll1 with
                       | Ok (w3, fl3) => AtLine w3 fl3
                       | OutOfBounds k => Done (Overrun k) (with_buffer w0 buf1)
                       end
                  else AtChar (with_buffer w0 buf1)
                         {| v_response := v_response fl; v_in_prev := to_char c;
                            v_aborted := v_aborted fl |} (reset_if_boundary c ll1)).
  { simpl. unfold recv_char. rewrite Hget.
    destruct (c <? 0) eqn:E; [lia|].
    rewrite Happ. simpl. rewrite Hfind, Ew, Eo. reflexivity. }
  assert (Hcount : verification_count sscanf (v_whole_line_wanted ll) c buf1 (v_offset ll)
                   = v_j ll1 <-> (attempted = true /\ consumed = Some (v_j ll1))).
  { unfold verification_count, attempted, consumed.
    destruct (v_whole_line_wanted ll && negb (to_char c =? LF)); simpl.
    - split; [lia | intros [H _]; discriminate].
    - destruct (sscanf _ _) as [n|].
      + split; [intros ->; auto | intros [_ H]; inversion H; reflexivity].
      + split; [lia | intros [_ H]; discriminate]. }
  clearbody attempted consumed.
  set (vc := verification_count sscanf (v_whole_line_wanted ll) c buf1 (v_offset ll)) in *.
  split; [|split].
  - rewrite <- Hcount. rewrite Hstep. split.
    + intros (w' & fl' & Hs & _).
      destruct (vc =? v_j ll1) eqn:E; [apply Z.eqb_eq; exact E | discriminate].
    + intros Heq. apply Z.eqb_eq in Heq. rewrite Heq.
      destruct (accept_line_total (with_buffer w0 buf1)
                  {| v_response := v_response fl; v_in_prev := to_char c;
                     v_aborted := v_aborted fl |}
                  _ _ _ _ _ Hwf Happ) as (w3 & fl3 & Hacc).
      rewrite Hacc. exists w3, fl3; split; [reflexivity|].
      apply accept_line_frame in Hacc. destruct Hacc as (Hr3 & _).
      rewrite Hr3, Ei; reflexivity.
  - intros Hne. rewrite Hstep.
    destruct (vc =? v_j ll1) eqn:E; [apply Z.eqb_eq, Hcount in E; contradiction|].
    eexists; reflexivity.
  - intros n Hn Hlt. rewrite Hstep.
    destruct (vc =? v_j ll1) eqn:E; [|eexists; reflexivity].
    apply Z.eqb_eq, Hcount in E. destruct E as [_ E].
    rewrite Hn in E; inversion E; lia.
Qed.

Lemma line_accepted_iff_whole_candidate_consumed_witness :
  let cf := receive 3 fresh_session (bytes "OK") (bytes "OK") in
  line_wf (_buffer (session (world_of cf))) (line_frame_of cf) /\
  fst (get (world_of cf)) = 75 /\
  exists w' fl', step sscanf_plain quiet_cb cf = AtLine w' fl' /\ v_response fl' = [].
Proof.
  intros cf.
  assert (Hwf : line_wf (_buffer (session (world_of cf))) (line_frame_of cf)).
  { vm_compute. repeat split; try reflexivity; intros H; discriminate H. }
  split; [exact Hwf | split; [reflexivity|]].
  edestruct (line_accepted_iff_whole_candidate_consumed sscanf_plain quiet_cb
               (world_of cf) (snd (get (world_of cf))) (frame_of cf) (line_frame_of cf))
    as [Hiff _].
  - exact Hwf.
  - vm_compute; reflexivity.
  - lia.
  - vm_compute; reflexivity.
  - vm_compute; reflexivity.
  - destruct Hiff as [_ Hacc].
    destruct Hacc as (w' & fl' & Hs & Hr); [split; vm_compute; reflexivity|].
    exists w', fl'; split; [exact Hs | exact Hr].
Defined.

(** C6: in a round that gets a byte, finds no OOB prefix and does not accept
    the line, a line feed or a full buffer (the test of line 183) puts the
    candidate length and the filler count back to 0 and the loop goes on
    with the next byte.  A round ends the call with [false] only when its
    read of the port timed out or when the abort test behind a handler
    fired, and a whole call that returns [false] has timed out. *)
Theorem failed_line_resets_and_goes_on
        {port : Type} {ops : serial_ops port}
        (sscanf : list Z -> list Z -> option Z)
        (run_cb : fnptr -> ATParser * port -> ATParser * port)
        (w w0 : World port) (fl : flocals) (ll ll1 : llocals)
        (c : Z) (buf1 : list Z) :
  (get w = (c, w0) ->
   0 <= c ->
   append_byte (_buffer (session w0)) (v_in_prev fl) ll c = Ok (buf1, ll1) ->
   find (oob_hit buf1 (v_offset ll1) (v_j ll1)) (_oobs (session w0)) = None ->
   verification_count sscanf (v_whole_line_wanted ll1) c buf1 (v_offset ll1) <> v_j ll1 ->
   to_char c = LF \/ v_j ll1 + 1 >= AT_BUFFER_SIZE - v_offset ll1 ->
   exists ll',
     step sscanf run_cb (AtChar w fl ll)
     = AtChar (with_buffer w0 buf1)
              {| v_response := v_response fl; v_in_prev := to_char c;
                 v_aborted := v_aborted fl |} ll' /\
     v_j ll' = 0 /\ v_dummy ll' = 0 /\
     v_i ll' = v_i ll /\ v_offset ll' = v_offset ll /\
     v_whole_line_wanted ll' = v_whole_line_wanted ll) /\
  (forall v w',
     step sscanf run_cb (AtChar w fl ll) = Done v w' ->
     returned v = Some false ->
     (v = TimedOut /\ fst (get w) < 0) \/ (v = Aborted /\ v_aborted fl = true)) /\
  (forall n response v,
     verdict_of (ATCmdParser_vrecv sscanf run_cb n w response) = Some v ->
     returned v = Some false ->
     v = TimedOut).
Proof.
  split; [|split].
  - intros Hget Hc Happ Hfind Hne Hb.
    pose proof (append_byte_inv _ _ _ _ _ _ Happ) as (Ei & Eo & Ew & _).
    exists (reset_if_boundary c ll1). split.
    + simpl. unfold recv_char. rewrite Hget.
      destruct (c <? 0) eqn:E; [lia|].
      rewrite Happ. simpl. rewrite Hfind.
      destruct (_ =? v_j ll1) eqn:E2; [apply Z.eqb_eq in E2; contradiction|].
      reflexivity.
    + unfold reset_if_boundary.
      destruct ((to_char c =? LF) || (v_j ll1 + 1 >=? AT_BUFFER_SIZE - v_offset ll1)) eqn:E.
      * simpl; auto.
      * apply orb_false_iff in E. destruct E as [E1 E2]. lia.
  - intros v w'. simpl. unfold recv_char.
    destruct (get w) as [c' w0'] eqn:G; simpl.
    destruct (c' <? 0) eqn:E.
    + intros Heq _. inversion Heq; subst. left; split; [reflexivity | lia].
    + destruct (append_byte _ _ _ _) as [[b l1]|k]; simpl.
      * destruct (find _ _) as [e|].
        -- destruct (v_aborted fl) eqn:Ea; [|discriminate].
           intros Heq _; inversion Heq; subst. right; auto.
        -- destruct (_ =? _); [|discriminate].
           destruct (accept_line _ _ _) as [[w3 fl3]|k]; [discriminate|].
           intros Heq Hr; inversion Heq; subst; discriminate Hr.
      * intros Heq Hr; inversion Heq; subst; discriminate Hr.
  - intros n response v Hv Hr.
    pose proof (run_clean sscanf run_cb n
                  (AtRestart w {| v_response := response; v_in_prev := 0;
                                  v_aborted := false |}) I) as Hcl.
    unfold ATCmdParser_vrecv in Hv.
    destruct (run _ _ _ _) as [w' f' | w' f' | w' f' l' | v' w']; simpl in *;
      try discriminate.
    inversion Hv; subst.
    destruct v; simpl in Hr; try discriminate; [reflexivity | contradiction].
Qed.

Lemma failed_line_resets_and_goes_on_witness :
  let cf := receive 3 fresh_session [ch_x; LF; 79; 75] (bytes "OK") in
  v_j (line_frame_of cf) = 1 /\
  fst (get (world_of cf)) = LF /\
  exists w' fl' ll',
    step sscanf_plain quiet_cb cf = AtChar w' fl' ll' /\
    v_j ll' = 0 /\ v_dummy ll' = 0.
Proof.
  intros cf.
  split; [reflexivity | split; [reflexivity|]].
  edestruct (failed_line_resets_and_goes_on sscanf_plain quiet_cb
               (world_of cf) (snd (get (world_of cf))) (frame_of cf) (line_frame_of cf))
    as [Hreset _].
  destruct Hreset as (ll' & Hs & Hj & Hd & _).
  - vm_compute; reflexivity.
  - lia.
  - vm_compute; reflexivity.
  - vm_compute; reflexivity.
  - vm_compute; intros H; discriminate H.
  - left; vm_compute; reflexivity.
  - eexists; eexists; exists ll'; split; [exact Hs | split; [exact Hj | exact Hd]].
Defined.

(** ** OOB prefixes *)

Lemma oob_hit_inv (buf : list Z) (offset j : Z) (e : oob) :
  oob_hit buf offset j e = true ->
  j = len e /\ region buf offset j = firstn (Z.to_nat (len e)) (prefix e).
Proof.
  unfold oob_hit; intros H.
  apply andb_true_iff in H; destruct H as [H1 H2].
  apply Z.eqb_eq in H1; apply bytes_eqb_eq in H2.
  subst j; split; [reflexivity | symmetry; exact H2].
Qed.

Lemma firstn_Zlength (l : list Z) : firstn (Z.to_nat (Zlength l)) l = l.
Proof.
  rewrite Zlength_correct, Nat2Z.id. apply firstn_all.
Qed.

Lemma oob_hit_whole (buf : list Z) (offset j : Z) (e : oob) :
  oob_wf e -> 0 < j -> region buf offset j = prefix e -> Zlength (region buf offset j) = j ->
  oob_hit buf offset j e = true.
Proof.
  unfold oob_wf, oob_hit; intros Hwf Hj Hreg Hlen.
  assert (Hje : j = len e) by (rewrite Hwf, <- Hreg; symmetry; exact Hlen).
  apply andb_true_iff; split; [apply Z.eqb_eq; exact Hje|].
  apply bytes_eqb_eq. subst j. rewrite Hreg, Hwf. apply firstn_Zlength.
Qed.

Lemma Zlength_app (a b : list Z) : Zlength (a ++ b) = Zlength a + Zlength b.
Proof.
  rewrite !Zlength_correct, length_app; lia.
Qed.

Lemma oob_hit_behind (buf : list Z) (offset j : Z) (e : oob) (q : list Z) :
  oob_wf e -> q <> [] ->
  region buf offset j = q ++ prefix e -> Zlength (region buf offset j) = j ->
  oob_hit buf offset j e = false.
Proof.
  unfold oob_wf, oob_hit; intros Hwf Hq Hreg Hlen.
  rewrite Hreg, Zlength_app in Hlen.
  assert (0 < Zlength q).
  { destruct q as [|x q']; [contradiction|].
    rewrite Zlength_cons. pose proof (Zlength_correct q'). lia. }
  destruct (j =? len e) eqn:E; [lia | reflexivity].
Qed.

Lemma calls_of_app (f : fnptr) (l1 l2 : list event) :
  calls_of f (l1 ++ l2) = (calls_of f l1 + calls_of f l2)%nat.
Proof.
  unfold calls_of. rewrite filter_app, length_app. reflexivity.
Qed.

Section OobFacts.

Context {port : Type} {ops : serial_ops port}.
Variable sscanf : list Z -> list Z -> option Z.
Variable run_cb : fnptr -> ATParser * port -> ATParser * port.
Variable stray : Z -> Z.

Lemma get_inv (w w0 : World port) (c : Z) :
  get w = (c, w0) -> session w0 = session w /\ log w0 = log w ++ [EvGet c].
Proof.
  unfold get. destruct (ops_get _ _) as [c' p]; intros H; inversion H; subst; auto.
Qed.

Lemma accept_line_log (w w' : World port) (fl fl' : flocals) (ll : llocals) :
  accept_line w fl ll = Ok (w', fl') ->
  exists input format, log w' = log w ++ [EvExtract input format].
Proof.
  unfold accept_line; intros Hacc.
  apply bind_Ok in Hacc; destruct Hacc as ([[buf1 dp1] j1] & _ & Hacc).
  apply bind_Ok in Hacc; destruct Hacc as (buf2 & _ & Hacc).
  apply bind_Ok in Hacc; destruct Hacc as (buf3 & _ & Hacc).
  inversion Hacc; subst; simpl; eauto.
Qed.

Lemma invoke_log (e : oob) (w : World port) :
  log (invoke run_cb e w)
  = log w ++ match cb e with Some f => [EvCall f] | None => [] end.
Proof.
  unfold invoke. destruct (cb e) as [f|]; simpl.
  - destruct (run_cb f _); reflexivity.
  - rewrite app_nil_r; reflexivity.
Qed.

(** Without a hit in the registry a round calls no handler. *)
Lemma recv_char_no_hit_no_call (w w0 : World port) (fl : flocals) (ll ll1 : llocals)
      (c : Z) (buf1 : list Z) (f : fnptr) :
  get w = (c, w0) ->
  0 <= c ->
  append_byte (_buffer (session w0)) (v_in_prev fl) ll c = Ok (buf1, ll1) ->
  find (oob_hit buf1 (v_offset ll1) (v_j ll1)) (_oobs (session w0)) = None ->
  calls_of f (log (world_of (step sscanf run_cb (AtChar w fl ll)))) = calls_of f (log w).
Proof.
  intros Hget Hc Happ Hfind.
  pose proof (get_inv _ _ _ Hget) as [_ Hlog].
  simpl. unfold recv_char. rewrite Hget.
  destruct (c <? 0) eqn:E; [lia|].
  rewrite Happ. simpl. rewrite Hfind.
  destruct (_ =? _).
  - destruct (accept_line _ _ _) as [[w3 fl3]|k] eqn:Hacc; simpl.
    + apply accept_line_log in Hacc. destruct Hacc as (inp & fmt & ->).
      simpl. rewrite Hlog, !calls_of_app. unfold calls_of; simpl; lia.
    + rewrite Hlog, calls_of_app. unfold calls_of; simpl; lia.
  - simpl. rewrite Hlog, calls_of_app. unfold calls_of; simpl; lia.
Qed.

End OobFacts.

(** C10: in the receive loop and in the idle poller alike, an entry of the
    registry fires only when the candidate is as long as its prefix and has
    its bytes.  So when the candidate is a registered prefix with at least
    one other byte in front of it, the test of that entry fails, the scan
    does not stop at it, and if no entry is the whole candidate the round
    calls no handler. *)
Theorem oob_fires_only_on_whole_candidate
        {port : Type} {ops : serial_ops port}
        (sscanf : list Z -> list Z -> option Z)
        (run_cb : fnptr -> ATParser * port -> ATParser * port)
        (stray : Z -> Z)
        (w w0 : World port) (fl : flocals) (ll ll1 : llocals) (c : Z) (buf1 : list Z)
        (v v0 : World port) (i d : Z) (b1 buf2 : list Z) :
  (line_wf (_buffer (session w)) ll ->
   get w = (c, w0) ->
   0 <= c ->
   append_byte (_buffer (session w0)) (v_in_prev fl) ll c = Ok (buf1, ll1) ->
   let hit := find (oob_hit buf1 (v_offset ll1) (v_j ll1)) (_oobs (session w0)) in
   (forall e, hit = Some e ->
      In e (_oobs (session w)) /\ v_j ll1 = len e /\
      candidate buf1 ll1 = firstn (Z.to_nat (len e)) (prefix e)) /\
   (forall e q, oob_wf e -> q <> [] -> candidate buf1 ll1 = q ++ prefix e ->
      oob_hit buf1 (v_offset ll1) (v_j ll1) e = false /\ hit <> Some e) /\
   (forall f, hit = None ->
      calls_of f (log (world_of (step sscanf run_cb (AtChar w fl ll))))
      = calls_of f (log w))) /\
  (Zlength (_buffer (session v)) = AT_BUFFER_SIZE ->
   0 <= i ->
   get v = (d, v0) ->
   0 <= d ->
   store AT_BUFFER_SIZE (_buffer (session v0)) i (to_char d) = Ok b1 ->
   store AT_BUFFER_SIZE b1 (i + 1) 0 = Ok buf2 ->
   let hit := find (oob_hit buf2 0 (i + 1)) (_oobs (session v0)) in
   (forall e, hit = Some e ->
      In e (_oobs (session v)) /\ i + 1 = len e /\
      region buf2 0 (i + 1) = firstn (Z.to_nat (len e)) (prefix e)) /\
   (forall e q, oob_wf e -> q <> [] -> region buf2 0 (i + 1) = q ++ prefix e ->
      oob_hit buf2 0 (i + 1) e = false /\ hit <> Some e) /\
   (forall f, hit = None ->
      (exists v' i', poll_step run_cb stray (PollAt v i) = PollAt v' i') /\
      calls_of f (log (poll_world_of (poll_step run_cb stray (PollAt v i))))
      = calls_of f (log v))).
Proof.
  split.
  - intros Hwf Hget Hc Happ hit.
    pose proof (get_inv _ _ _ Hget) as [Hses Hlog].
    destruct Hwf as (Hlen & Hi & Hj & Hd & Hdp).
    pose proof (append_byte_inv _ _ _ _ _ _ Happ) as (Ei & Eo & Ew & Hl1 & Hr & Hcases).
    assert (Hj1 : 0 < v_j ll1) by (destruct Hcases as [H|H]; lia).
    assert (Hcl : Zlength (candidate buf1 ll1) = v_j ll1).
    { unfold candidate. apply region_Zlength; try lia.
      rewrite Hl1, Hses, Hlen. lia. }
    split; [|split].
    + intros e He. unfold hit in He. apply find_some in He. destruct He as [Hin Hhit].
      apply oob_hit_inv in Hhit. destruct Hhit as [Hje Hreg].
      rewrite Hses in Hin. repeat split; assumption.
    + intros e q Hwfe Hq Hcand.
      assert (Hf : oob_hit buf1 (v_offset ll1) (v_j ll1) e = false)
        by (eapply oob_hit_behind; eassumption).
      split; [exact Hf|].
      intros He. unfold hit in He. apply find_some in He. destruct He as [_ He].
      rewrite Hf in He; discriminate.
    + intros f Hnone. eapply recv_char_no_hit_no_call; eassumption.
  - intros Hlen Hi Hget Hd Hs1 Hs2 hit.
    pose proof (get_inv _ _ _ Hget) as [Hses Hlog].
    pose proof (store_Zlength _ _ _ _ _ Hs1) as L1.
    pose proof (store_Zlength _ _ _ _ _ Hs2) as L2.
    pose proof (store_inv _ _ _ _ _ Hs2) as [R2 _].
    assert (Hcl : Zlength (region buf2 0 (i + 1)) = i + 1).
    { apply region_Zlength; try lia. rewrite L2, L1, Hses, Hlen. lia. }
    split; [|split].
    + intros e He. unfold hit in He. apply find_some in He. destruct He as [Hin Hhit].
      apply oob_hit_inv in Hhit. destruct Hhit as [Hje Hreg].
      rewrite Hses in Hin. repeat split; assumption.
    + intros e q Hwfe Hq Hcand.
      assert (Hf : oob_hit buf2 0 (i + 1) e = false)
        by (eapply oob_hit_behind; eassumption).
      split; [exact Hf|].
      intros He. unfold hit in He. apply find_some in He. destruct He as [_ He].
      rewrite Hf in He; discriminate.
    + intros f Hnone. simpl. unfold poll_char. rewrite Hget.
      destruct (d <? 0) eqn:E; [lia|].
      rewrite Hs1. simpl. rewrite Hs2. simpl. fold hit. rewrite Hnone.
      destruct (_ || _).
      * split; [eauto|]. destruct (unprocessed_data (session v0)); simpl;
          rewrite Hlog, ?calls_of_app; unfold calls_of; simpl; lia.
      * split; [eauto|]. simpl. rewrite Hlog, calls_of_app; unfold calls_of; simpl; lia.
Qed.

Lemma oob_fires_only_on_whole_candidate_witness :
  let cf := receive 4 session_plus_X (bytes "a+X") (bytes "OK") in
  let e := {| len := 2; prefix := bytes "+X"; cb := Some 1%nat |} in
  In e (_oobs (session (world_of cf))) /\
  candidate (_buffer (session (world_of (step sscanf_plain quiet_cb cf))))
            (line_frame_of (step sscanf_plain quiet_cb cf))
  = bytes "a" ++ prefix e /\
  calls_of 1%nat (log (world_of (step sscanf_plain quiet_cb cf))) = 0%nat.
Proof.
  intros cf e.
  split; [left; reflexivity | split; [vm_compute; reflexivity|]].
  edestruct (oob_fires_only_on_whole_candidate sscanf_plain quiet_cb (fun _ => 0)
               (world_of cf) (snd (get (world_of cf))) (frame_of cf) (line_frame_of cf))
    with (v := world_of cf) (v0 := world_of cf) (i := 0) (d := 0) (b1 := @nil Z)
         (buf2 := @nil Z)
    as [Hrecv _].
  destruct Hrecv as (_ & Hbehind & Hcalls).
  - vm_compute. repeat split; try reflexivity; intros H; discriminate H.
  - vm_compute; reflexivity.
  - lia.
  - vm_compute; reflexivity.
  - destruct (Hbehind e (bytes "a")) as [Hno _].
    + reflexivity.
    + discriminate.
    + vm_compute; reflexivity.
    + refine (eq_trans (Hcalls 1%nat _) _); vm_compute; reflexivity.
Defined.

(** C3, as the claim has it, fails on a pattern of two lines: with [+X]
    registered, the pattern [A\nB] and the bytes [A\n+XB], the first line is
    matched, the prefix arrives while the second line is awaited, the
    handler is called once, and the receive starts again at the second line:
    the template staged behind the call is [B%n], and the lone [B] that
    follows completes the receive. *)
Lemma oob_restart_resumes_line_in_progress :
  let pattern := bytes "A" ++ [LF] ++ bytes "B" in
  let script := bytes "A" ++ [LF] ++ bytes "+XB" in
  (exists w fl,
     receive 7 session_plus_X script pattern = AtRestart w fl /\
     calls_of 1%nat (log w) = 1%nat /\
     v_response fl = bytes "B" /\
     v_response fl <> pattern) /\
  verdict_of (receive 11 session_plus_X script pattern) = Some Matched /\
  log (world_of (receive 11 session_plus_X script pattern))
  = [EvStage (bytes "A" ++ [LF] ++ bytes "%n"); EvGet 65; EvGet LF;
     EvExtract (bytes "A" ++ [LF]) (bytes "A" ++ [LF]);
     EvStage (bytes "B%n"); EvGet 43; EvGet 88; EvCall 1%nat;
     EvStage (bytes "B%n"); EvGet 66; EvExtract (bytes "B") (bytes "B")].
Proof.
  intros pattern script. split; [|split].
  - eexists; eexists. split; [vm_compute; reflexivity|].
    split; [vm_compute; reflexivity|].
    split; [vm_compute; reflexivity | vm_compute; discriminate].
  - vm_compute; reflexivity.
  - vm_compute; reflexivity.
Qed.

(** C3, amended: when the candidate of a round is exactly the prefix of a
    registered entry, the scan stops at the first entry with that length and
    those bytes; its handler, if it has one, is called once and nothing else
    is; and the receive starts again at the line that was in progress, not at
    the first line of the pattern: two steps later the template of that line
    is staged anew and the candidate and the filler count are 0.  The byte
    read last stays in [_in_prev]. *)
Theorem oob_restarts_line_in_progress
        {port : Type} {ops : serial_ops port}
        (sscanf : list Z -> list Z -> option Z)
        (run_cb : fnptr -> ATParser * port -> ATParser * port)
        (w w0 : World port) (fl : flocals) (ll ll1 : llocals) (c : Z) (buf1 : list Z)
        (e : oob) :
  line_wf (_buffer (session w)) ll ->
  v_aborted fl = false ->
  get w = (c, w0) ->
  0 <= c ->
  append_byte (_buffer (session w0)) (v_in_prev fl) ll c = Ok (buf1, ll1) ->
  In e (_oobs (session w)) ->
  oob_wf e ->
  candidate buf1 ll1 = prefix e ->
  exists e0,
    find (oob_hit buf1 (v_offset ll1) (v_j ll1)) (_oobs (session w)) = Some e0 /\
    len e0 = len e /\
    firstn (Z.to_nat (len e0)) (prefix e0) = prefix e /\
    let w2 := invoke run_cb e0 (with_buffer w0 buf1) in
    let fl2 := {| v_response := v_response fl; v_in_prev := to_char c;
                  v_aborted := false |} in
    step sscanf run_cb (AtChar w fl ll) = AtRestart w2 fl2 /\
    log w2 = log w ++ EvGet c :: match cb e0 with Some f => [EvCall f] | None => [] end /\
    (forall buf3 i3 offset3 wlw3,
       rd (v_response fl) 0 <> 0 ->
       stage_line (_buffer (session w2)) (v_response fl) = Ok (buf3, i3, offset3, wlw3) ->
       run sscanf run_cb 3 (AtChar w fl ll)
       = AtChar (emit (with_buffer w2 buf3) (EvStage (cstr buf3 0))) fl2
                {| v_i := i3; v_offset := offset3; v_whole_line_wanted := wlw3;
                   v_j := 0; v_dummy := 0; v_dummy_pos := repeat 0 20 |}).
Proof.
  intros Hwf Hab Hget Hc Happ Hin Hwfe Hcand.
  pose proof (get_inv _ _ _ Hget) as [Hses Hlog].
  destruct Hwf as (Hlen & Hi & Hj & Hd & Hdp).
  pose proof (append_byte_inv _ _ _ _ _ _ Happ) as (Ei & Eo & Ew & Hl1 & Hr & Hcases).
  assert (Hj1 : 0 < v_j ll1) by (destruct Hcases as [H|H]; lia).
  assert (Hcl : Zlength (candidate buf1 ll1) = v_j ll1).
  { unfold candidate. apply region_Zlength; try lia.
    rewrite Hl1, Hses, Hlen. lia. }
  assert (Hhit : oob_hit buf1 (v_offset ll1) (v_j ll1) e = true)
    by (apply oob_hit_whole; assumption).
  destruct (find (oob_hit buf1 (v_offset ll1) (v_j ll1)) (_oobs (session w)))
    as [e0|] eqn:Hfind.
  2: { pose proof (find_none _ _ Hfind e Hin) as Hn. rewrite Hhit in Hn; discriminate. }
  exists e0. split; [reflexivity|].
  pose proof (find_some _ _ Hfind) as [_ Hhit0].
  apply oob_hit_inv in Hhit0. destruct Hhit0 as [Hj0 Hreg0].
  pose proof (oob_hit_inv _ _ _ _ Hhit) as [Hje _].
  split; [lia|]. split; [rewrite <- Hreg0; exact Hcand|].
  assert (Hstep : step sscanf run_cb (AtChar w fl ll)
                  = AtRestart (invoke run_cb e0 (with_buffer w0 buf1))
                              {| v_response := v_response fl; v_in_prev := to_char c;
                                 v_aborted := false |}).
  { simpl. unfold recv_char. rewrite Hget.
    destruct (c <? 0) eqn:E; [lia|].
    rewrite Happ. simpl. rewrite Hses, Hfind. simpl. rewrite Hab. reflexivity. }
  split; [exact Hstep|]. split.
  - rewrite invoke_log. simpl. rewrite Hlog, <- app_assoc. reflexivity.
  - intros buf3 i3 offset3 wlw3 Hr0 Hstage.
    change (run sscanf run_cb 3 (AtChar w fl ll))
      with (run sscanf run_cb 2 (step sscanf run_cb (AtChar w fl ll))).
    rewrite Hstep.
    simpl. unfold next_line. simpl.
    destruct (rd (v_response fl) 0 =? 0) eqn:E0; [lia|].
    rewrite Hstage. reflexivity.
Qed.

Lemma oob_restarts_line_in_progress_witness :
  let pattern := bytes "A" ++ [LF] ++ bytes "B" in
  let cf := receive 6 session_plus_X (bytes "A" ++ [LF] ++ bytes "+XB") pattern in
  let e := {| len := 2; prefix := bytes "+X"; cb := Some 1%nat |} in
  line_wf (_buffer (session (world_of cf))) (line_frame_of cf) /\
  In e (_oobs (session (world_of cf))) /\
  oob_wf e /\
  exists w2 fl2,
    step sscanf_plain quiet_cb cf = AtRestart w2 fl2 /\
    log w2 = log (world_of cf) ++ [EvGet 88; EvCall 1%nat] /\
    v_response fl2 = bytes "B".
Proof.
  intros pattern cf e.
  assert (Hwf : line_wf (_buffer (session (world_of cf))) (line_frame_of cf)).
  { vm_compute. repeat split; try reflexivity; intros H; discriminate H. }
  split; [exact Hwf|]. split; [left; reflexivity|]. split; [reflexivity|].
  edestruct (oob_restarts_line_in_progress sscanf_plain quiet_cb
               (world_of cf) (snd (get (world_of cf))) (frame_of cf) (line_frame_of cf))
    with (e := e) as (e0 & Hfind & _ & _ & Hstep & Hlog & _).
  - exact Hwf.
  - reflexivity.
  - vm_compute; reflexivity.
  - lia.
  - vm_compute; reflexivity.
  - left; reflexivity.
  - reflexivity.
  - vm_compute; reflexivity.
  - assert (He0 : e0 = e) by (vm_compute in Hfind; inversion Hfind; reflexivity).
    subst e0.
    assert (Hcf : cf = AtChar (world_of cf) (frame_of cf) (line_frame_of cf))
      by (vm_compute; reflexivity).
    eexists; eexists. split; [rewrite Hcf; exact Hstep|].
    split; [exact Hlog | vm_compute; reflexivity].
Defined.

(** ** The pattern rewriter *)

Lemma rd_nth (m : list Z) (k : Z) : 0 <= k -> rd m k = nth (Z.to_nat k) m 0.
Proof.
  intros Hk; unfold rd. destruct (k <? 0) eqn:E; [lia | reflexivity].
Qed.

Lemma rd_behind (m : list Z) (k : Z) : Zlength m <= k -> rd m k = 0.
Proof.
  intros Hk. pose proof (Zlength_correct m).
  rewrite rd_nth by lia. apply nth_overflow. lia.
Qed.

Lemma rd_below (m : list Z) (k : Z) : k < 0 -> rd m k = 0.
Proof.
  intros Hk; unfold rd. destruct (k <? 0) eqn:E; [reflexivity | lia].
Qed.

Lemma rd_inside (m : list Z) (k : Z) : rd m k <> 0 -> 0 <= k < Zlength m.
Proof.
  intros Hne.
  destruct (Z_lt_dec k 0) as [Hlt|Hge]; [rewrite rd_below in Hne by lia; contradiction|].
  destruct (Z_le_dec (Zlength m) k) as [Hle|Hgt]; [|lia].
  rewrite rd_behind in Hne by lia; contradiction.
Qed.

Lemma rd_firstn (m : list Z) (n : nat) (k : Z) :
  k < Z.of_nat n -> rd (firstn n m) k = rd m k.
Proof.
  intros Hk. destruct (Z_lt_dec k 0) as [Hlt|Hge].
  - rewrite !rd_below by lia; reflexivity.
  - rewrite !rd_nth by lia.
    assert (Hj : (Z.to_nat k < n)%nat) by lia.
    revert Hj; generalize (Z.to_nat k) as j; clear.
    revert m; induction n as [|n IH]; intros m j Hj; [lia|].
    destruct m as [|x m]; [reflexivity|].
    destruct j as [|j]; simpl; [reflexivity | apply IH; lia].
Qed.

Lemma rd_region (m : list Z) (k n : Z) :
  0 <= k -> 0 < n -> rd m k = hd 0 (region m k n).
Proof.
  intros Hk Hn. rewrite rd_nth by lia. unfold region.
  destruct (Z.to_nat n) as [|n'] eqn:E; [lia|].
  generalize (Z.to_nat k) as j. clear.
  intros j; revert m; induction j as [|j IH]; intros [|x m]; simpl; auto.
Qed.

Lemma region_empty (m : list Z) (k n : Z) : n <= 0 -> region m k n = [].
Proof.
  intros Hn; unfold region. replace (Z.to_nat n) with 0%nat by lia. reflexivity.
Qed.

Lemma region_cons (m : list Z) (k n : Z) :
  0 <= k < Zlength m -> 0 < n ->
  region m k n = rd m k :: region m (k + 1) (n - 1).
Proof.
  intros Hk Hn. rewrite rd_nth by lia. unfold region.
  replace (Z.to_nat n) with (S (Z.to_nat (n - 1))) by lia.
  replace (Z.to_nat (k + 1)) with (S (Z.to_nat k)) by lia.
  rewrite Zlength_correct in Hk.
  assert (Hj : (Z.to_nat k < List.length m)%nat) by lia.
  revert Hj; generalize (Z.to_nat k) as j; generalize (Z.to_nat (n - 1)) as q; clear.
  intros q j; revert m; induction j as [|j IH]; intros [|x m] Hj; simpl in *; try lia.
  - reflexivity.
  - apply IH; lia.
Qed.

Lemma firstn_upd_snoc (m : list Z) (n : nat) (v : Z) :
  (n < List.length m)%nat -> firstn (S n) (upd n v m) = firstn n m ++ [v].
Proof.
  revert m; induction n as [|n IH]; intros [|x m] Hn; simpl in *; try lia.
  - reflexivity.
  - f_equal. apply IH; lia.
Qed.

Lemma store_snoc (m m' : list Z) (k v : Z) :
  Zlength m = AT_BUFFER_SIZE ->
  store AT_BUFFER_SIZE m k v = Ok m' ->
  Zlength m' = AT_BUFFER_SIZE /\ 0 <= k < AT_BUFFER_SIZE /\
  region m' 0 (k + 1) = region m 0 k ++ [v].
Proof.
  intros Hlen Hs. pose proof (store_Zlength _ _ _ _ _ Hs) as L.
  apply store_inv in Hs. destruct Hs as [Hk ->].
  split; [lia|]. split; [exact Hk|].
  unfold region. simpl skipn.
  replace (Z.to_nat (k + 1)) with (S (Z.to_nat k)) by lia.
  apply firstn_upd_snoc. rewrite Zlength_correct in Hlen. lia.
Qed.

Lemma rewrite_spec_nonzero (line : list Z) :
  Forall (fun c => c <> 0) line -> Forall (fun c => c <> 0) (rewrite_spec line).
Proof.
  induction line as [|c tl IH]; intros Hall; simpl; [constructor|].
  inversion Hall as [|c' tl' Hc Htl]; subst.
  destruct ((c =? ch_percent) && negb (hd 0 tl =? ch_percent) && negb (hd 0 tl =? ch_star));
    repeat constructor; auto; lia.
Qed.

Lemma cstr_from_cut (a b : list Z) :
  Forall (fun c => c <> 0) a -> cstr_from (a ++ 0 :: b) = a.
Proof.
  induction a as [|c tl IH]; intros Hall; simpl; [reflexivity|].
  inversion Hall as [|c' tl' Hc Htl]; subst.
  destruct (c =? 0) eqn:E; [lia|]. rewrite IH by assumption. reflexivity.
Qed.

Lemma rewrite_spec_region (response : list Z) (i i' : Z) :
  0 <= i < Zlength response -> i < i' ->
  rewrite_spec (region response i (i' - i))
  = (if (rd response i =? ch_percent)
          && negb (hd 0 (region response (i + 1) (i' - (i + 1))) =? ch_percent)
          && negb (hd 0 (region response (i + 1) (i' - (i + 1))) =? ch_star)
     then [ch_percent; ch_star] else [rd response i])
    ++ rewrite_spec (region response (i + 1) (i' - (i + 1))).
Proof.
  intros Hi Hlt. rewrite region_cons by lia.
  replace (i' - i - 1) with (i' - (i + 1)) by lia.
  simpl. destruct (_ && _); reflexivity.
Qed.

(** What the loop of the rewriter has done when it ends without leaving
    the buffer, from the position [i] it was started at. *)
Lemma stage_loop_spec (fuel : nat) :
  forall (response buf : list Z) (i offset : Z) (buf' : list Z) (i' offset' : Z) (wlw : bool),
    Zlength buf = AT_BUFFER_SIZE -> 0 <= i -> 0 <= offset ->
    Zlength response - i < Z.of_nat fuel ->
    stage_loop fuel response buf i offset = Ok (buf', i', offset', wlw) ->
    Zlength buf' = AT_BUFFER_SIZE /\ i <= i' /\ offset <= offset' /\
    (forall k, i <= k < i' -> rd response k <> 0) /\
    (rd response i <> 0 -> i < i') /\
    region buf' 0 offset' = region buf 0 offset ++ rewrite_spec (region response i (i' - i)) /\
    (wlw = true -> bare_lf_at response (i' - 1) /\ i < i') /\
    (wlw = false -> rd response i' = 0) /\
    (forall k, i <= k < i' -> bare_lf_at response k -> wlw = true /\ k = i' - 1).
Proof.
  assert (Hstop : forall (response buf : list Z) (i offset : Z),
             rd response i = 0 -> Zlength buf = AT_BUFFER_SIZE ->
             Zlength buf = AT_BUFFER_SIZE /\ i <= i /\ offset <= offset /\
             (forall k, i <= k < i -> rd response k <> 0) /\
             (rd response i <> 0 -> i < i) /\
             region buf 0 offset = region buf 0 offset ++ rewrite_spec (region response i (i - i)) /\
             (false = true -> bare_lf_at response (i - 1) /\ i < i) /\
             (false = false -> rd response i = 0) /\
             (forall k, i <= k < i -> bare_lf_at response k -> false = true /\ k = i - 1)).
  { intros response buf i offset H0 Hlen.
    rewrite (region_empty response i (i - i)) by lia. simpl. rewrite app_nil_r.
    repeat split; auto; try lia; try discriminate; intros; lia. }
  induction fuel as [|fuel IH];
    intros response buf i offset buf' i' offset' wlw Hlen Hi Hoff Hfuel Hrun.
  - simpl in Hrun. inversion Hrun; subst.
    apply Hstop; [apply rd_behind; lia | assumption].
  - simpl in Hrun.
    destruct (rd response i =? 0) eqn:E0.
    { inversion Hrun; subst. apply Hstop; [lia | assumption]. }
    assert (Hc : rd response i <> 0) by lia.
    pose proof (rd_inside _ _ Hc) as Hin.
    destruct ((rd response i =? ch_percent) && negb (rd response (i + 1) =? ch_percent)
              && negb (rd response (i + 1) =? ch_star)) eqn:Epct.
    + (* a [%] that opens a conversion *)
      apply bind_Ok in Hrun; destruct Hrun as (buf1 & Hs1 & Hrun).
      apply bind_Ok in Hrun; destruct Hrun as (buf2 & Hs2 & Hrun).
      destruct (store_snoc _ _ _ _ Hlen Hs1) as (L1 & R1 & Hr1).
      destruct (store_snoc _ _ _ _ L1 Hs2) as (L2 & R2 & Hr2).
      apply IH in Hrun; try lia.
      destruct Hrun as (L' & Hii & Hoo & Hnz & Hadv & Hreg & Htrue & Hfalse & Hbare).
      split; [exact L'|]. split; [lia|]. split; [lia|].
      split. { intros k Hk. destruct (Z.eq_dec k i); [subst; exact Hc | apply Hnz; lia]. }
      split; [lia|].
      split.
      { rewrite Hreg. replace (offset + 2) with (offset + 1 + 1) by lia.
        rewrite Hr2, Hr1, (rewrite_spec_region response i i') by lia.
        assert (Hhd : (rd response i =? ch_percent)
                      && negb (hd 0 (region response (i + 1) (i' - (i + 1))) =? ch_percent)
                      && negb (hd 0 (region response (i + 1) (i' - (i + 1))) =? ch_star)
                      = true).
        { destruct (Z_lt_dec (i + 1) i') as [Hlt|Hge].
          - rewrite <- rd_region by lia. exact Epct.
          - rewrite region_empty by lia. simpl. lia. }
        rewrite Hhd. rewrite <- !app_assoc. reflexivity. }
      split. { intros Hw. destruct (Htrue Hw). split; [assumption | lia]. }
      split; [exact Hfalse|].
      intros k Hk Hb. destruct (Z.eq_dec k i) as [->|Hne]; [|apply Hbare; [lia | exact Hb]].
      destruct Hb as (_ & Hlf & _). lia.
    + (* any other character *)
      apply bind_Ok in Hrun; destruct Hrun as (buf1 & Hs1 & Hrun).
      destruct (store_snoc _ _ _ _ Hlen Hs1) as (L1 & R1 & Hr1).
      replace (i + 1 - 1) with i in Hrun by lia.
      replace (i + 1 - 3) with (i - 2) in Hrun by lia.
      replace (i + 1 - 2) with (i - 1) in Hrun by lia.
      assert (Hprot : (3 <=? i + 1) && (rd response (i - 2) =? ch_lbracket)
                      && (rd response (i - 1) =? ch_caret) = true
                      <-> (rd response (i - 2) = ch_lbracket /\ rd response (i - 1) = ch_caret)).
      { split.
        - intros H. apply andb_true_iff in H. destruct H as [H H3].
          apply andb_true_iff in H. destruct H as [H1 H2]. lia.
        - intros [H1 H2]. destruct (Z_lt_dec i 2) as [Hlt|Hge].
          + rewrite rd_below in H1 by lia. lia.
          + rewrite H1, H2. replace (3 <=? i + 1) with true by lia. reflexivity. }
      destruct ((rd response i =? LF)
                && negb ((3 <=? i + 1) && (rd response (i - 2) =? ch_lbracket)
                         && (rd response (i - 1) =? ch_caret))) eqn:Elf.
      * (* a bare line feed ends the line *)
        inversion Hrun; subst; clear Hrun.
        apply andb_true_iff in Elf. destruct Elf as [Elf1 Elf2].
        apply Z.eqb_eq in Elf1. apply negb_true_iff in Elf2.
        assert (Hb : bare_lf_at response i).
        { split; [exact Hin|]. split; [exact Elf1|].
          intros Hp. apply Hprot in Hp. rewrite Hp in Elf2; discriminate. }
        split; [exact L1|]. split; [lia|]. split; [lia|].
        split. { intros k Hk. replace k with i by lia. exact Hc. }
        split; [lia|].
        split.
        { rewrite Hr1. replace (i + 1 - i) with 1 by lia.
          rewrite (region_cons response i 1) by lia.
          rewrite (region_empty response (i + 1) (1 - 1)) by lia.
          simpl. rewrite Elf1. reflexivity. }
        split. { intros _. replace (i + 1 - 1) with i by lia. split; [exact Hb | lia]. }
        split; [discriminate|].
        intros k Hk _. split; [reflexivity | lia].
      * apply IH in Hrun; try lia.
        destruct Hrun as (L' & Hii & Hoo & Hnz & Hadv & Hreg & Htrue & Hfalse & Hbare).
        split; [exact L'|]. split; [lia|]. split; [lia|].
        split. { intros k Hk. destruct (Z.eq_dec k i); [subst; exact Hc | apply Hnz; lia]. }
        split; [lia|].
        split.
        { rewrite Hreg, Hr1, (rewrite_spec_region response i i') by lia.
          assert (Hhd : (rd response i =? ch_percent)
                        && negb (hd 0 (region response (i + 1) (i' - (i + 1))) =? ch_percent)
                        && negb (hd 0 (region response (i + 1) (i' - (i + 1))) =? ch_star)
                        = false).
          { destruct (rd response i =? ch_percent) eqn:E1; [|reflexivity].
            simpl in Epct. simpl.
            assert (Hnext : rd response (i + 1) <> 0) by lia.
            specialize (Hadv Hnext).
            rewrite <- rd_region by lia. exact Epct. }
          rewrite Hhd. rewrite <- !app_assoc. reflexivity. }
        split. { intros Hw. destruct (Htrue Hw). split; [assumption | lia]. }
        split; [exact Hfalse|].
        intros k Hk Hb. destruct (Z.eq_dec k i) as [->|Hne]; [|apply Hbare; [lia | exact Hb]].
        destruct Hb as (_ & Hlf & Hnp). exfalso.
        apply andb_false_iff in Elf. destruct Elf as [Elf|Elf]; [lia|].
        apply negb_false_iff in Elf. apply Hprot in Elf. contradiction.
Qed.

(** The loop stays inside the buffer, and leaves [room] cells free, when
    two cells for each byte of the pattern that is left fit behind
    [offset]. *)
Lemma stage_loop_total (fuel : nat) (room : Z) :
  forall (response buf : list Z) (i offset : Z),
    0 <= room ->
    0 <= i <= Zlength response -> 0 <= offset ->
    offset + 2 * (Zlength response - i) + room <= AT_BUFFER_SIZE ->
    exists buf' i' offset' wlw,
      stage_loop fuel response buf i offset = Ok (buf', i', offset', wlw) /\
      i' <= Zlength response /\ 0 <= offset' /\
      offset' + 2 * (Zlength response - i') + room <= AT_BUFFER_SIZE.
Proof.
  induction fuel as [|fuel IH]; intros response buf i offset Hroom Hi Hoff Hfit;
    cbn [stage_loop].
  - do 4 eexists; split; [reflexivity | lia].
  - destruct (rd response i =? 0) eqn:E0.
    { do 4 eexists; split; [reflexivity | lia]. }
    assert (Hin : 0 <= i < Zlength response) by (apply rd_inside; lia).
    destruct (_ && _).
    + rewrite store_in_range by lia. cbn [bind].
      rewrite store_in_range by lia. cbn [bind].
      destruct (IH response (upd (Z.to_nat (offset + 1)) ch_star
                                 (upd (Z.to_nat offset) ch_percent buf))
                   (i + 1) (offset + 2)) as (b & i' & o' & w' & Hr & Hb); try lia.
      rewrite Hr. do 4 eexists; split; [reflexivity | lia].
    + rewrite store_in_range by lia. cbn [bind].
      destruct (_ && _).
      * do 4 eexists; split; [reflexivity | lia].
      * destruct (IH response (upd (Z.to_nat offset) (rd response i) buf)
                     (i + 1) (offset + 1)) as (b & i' & o' & w' & Hr & Hb); try lia.
        rewrite Hr. do 4 eexists; split; [reflexivity | lia].
Qed.

Lemma rd_cons (x : Z) (l : list Z) (k : Z) : 0 <= k -> rd (x :: l) (k + 1) = rd l k.
Proof.
  intros Hk. rewrite !rd_nth by lia.
  replace (Z.to_nat (k + 1)) with (S (Z.to_nat k)) by lia. reflexivity.
Qed.

Lemma Forall_rd_nonzero (l : list Z) :
  (forall k, 0 <= k < Zlength l -> rd l k <> 0) -> Forall (fun c => c <> 0) l.
Proof.
  induction l as [|x tl IH]; intros Hall; constructor.
  - apply (Hall 0). rewrite Zlength_cons. pose proof (Zlength_correct tl). lia.
  - apply IH. intros k Hk. rewrite <- (rd_cons x) by lia. apply Hall.
    rewrite Zlength_cons. lia.
Qed.

Lemma Zlength_firstn_inside (l : list Z) (i : Z) :
  0 <= i <= Zlength l -> Zlength (firstn (Z.to_nat i) l) = i.
Proof.
  intros Hi. rewrite Zlength_correct in *. rewrite length_firstn. lia.
Qed.

(** C2: whenever the rewriter ends inside the buffer (as it does for every
    pattern of up to 1022 bytes), it has consumed a line of [i] bytes, none
    of them NUL, that ends at the end of the pattern or behind its first
    bare line feed; the buffer starts with that line, every [%] that is
    followed neither by [%] nor by [*] replaced by [%*], then [%n] and a
    NUL; and [whole_line_wanted] is set exactly when the line has a line
    feed that does not follow an opening [[^].  With the flag set, a round
    whose byte is not a line feed leaves [count] at -1 whatever [sscanf]
    would say. *)
Theorem rewriter_template_and_whole_line
        (sscanf : list Z -> list Z -> option Z)
        (buf response : list Z) :
  Zlength buf = AT_BUFFER_SIZE ->
  (2 * Zlength response + 3 <= AT_BUFFER_SIZE ->
   exists r, stage_line buf response = Ok r) /\
  (forall buf' i offset wlw,
     stage_line buf response = Ok (buf', i, offset, wlw) ->
     let line := firstn (Z.to_nat i) response in
     0 <= i <= Zlength response /\
     Forall (fun c => c <> 0) line /\
     region buf' 0 offset = rewrite_spec line ++ [ch_percent; ch_n; 0] /\
     cstr buf' 0 = rewrite_spec line ++ [ch_percent; ch_n] /\
     (wlw = true <-> exists k, bare_lf_at line k) /\
     (wlw = true -> bare_lf_at line (i - 1)) /\
     (wlw = false -> rd response i = 0) /\
     (forall c b off,
        wlw = true -> to_char c <> LF -> verification_count sscanf wlw c b off = -1)).
Proof.
  intros Hlen. split.
  - intros Hfit. unfold stage_line.
    pose proof (Zlength_correct response) as Hzl.
    destruct (stage_loop_total (S (List.length response)) 3 response buf 0 0)
      as (b & i' & o' & w' & Hr & Hi' & Ho' & Hb); try lia.
    rewrite Hr. cbn [bind].
    rewrite store_in_range by lia. cbn [bind].
    rewrite store_in_range by lia. cbn [bind].
    rewrite store_in_range by lia. cbn [bind]. eauto.
  - intros buf' i offset wlw Hstage line. unfold stage_line in Hstage.
    apply bind_Ok in Hstage. destruct Hstage as ([[[b1 i1] o1] w1] & Hloop & Hstage).
    apply bind_Ok in Hstage. destruct Hstage as (b2 & Hs2 & Hstage).
    apply bind_Ok in Hstage. destruct Hstage as (b3 & Hs3 & Hstage).
    apply bind_Ok in Hstage. destruct Hstage as (b4 & Hs4 & Hstage).
    inversion Hstage; subst; clear Hstage.
    pose proof (Zlength_correct response) as Hzl.
    apply stage_loop_spec in Hloop; try lia.
    destruct Hloop as (L1 & Hi & Ho & Hnz & _ & Hreg & Htrue & Hfalse & Hbare).
    rewrite (region_empty buf 0 0) in Hreg by lia. simpl in Hreg.
    replace (i - 0) with i in Hreg by lia.
    destruct (store_snoc _ _ _ _ L1 Hs2) as (L2 & R2 & Hr2).
    destruct (store_snoc _ _ _ _ L2 Hs3) as (L3 & R3 & Hr3).
    replace (o1 + 2) with (o1 + 1 + 1) in Hs4 by lia.
    destruct (store_snoc _ _ _ _ L3 Hs4) as (L4 & R4 & Hr4).
    assert (Hile : 0 <= i <= Zlength response).
    { split; [lia|]. destruct (Z.eq_dec i 0) as [->|Hne]; [lia|].
      assert (H : rd response (i - 1) <> 0) by (apply Hnz; lia).
      apply rd_inside in H. lia. }
    assert (Hll : Zlength line = i) by (apply Zlength_firstn_inside; exact Hile).
    assert (Hrdl : forall k, k < i -> rd line k = rd response k).
    { intros k Hk. apply rd_firstn. lia. }
    assert (Hline : region response 0 i = line) by reflexivity.
    assert (Hnzl : Forall (fun c => c <> 0) line).
    { apply Forall_rd_nonzero. intros k Hk. rewrite Hrdl by lia. apply Hnz. lia. }
    assert (Hbl : forall k, 0 <= k < i -> (bare_lf_at response k <-> bare_lf_at line k)).
    { intros k Hk. unfold bare_lf_at. rewrite Hll, !Hrdl by lia.
      split; intros (H1 & H2 & H3); repeat split; auto; lia. }
    assert (Htmpl : region buf' 0 (o1 + 3) = rewrite_spec line ++ [ch_percent; ch_n; 0]).
    { replace (o1 + 3) with (o1 + 1 + 1 + 1) by lia.
      rewrite Hr4, Hr3, Hr2, Hreg, Hline, <- !app_assoc. reflexivity. }
    split; [exact Hile|]. split; [exact Hnzl|]. split; [exact Htmpl|].
    split.
    { unfold cstr. simpl skipn.
      rewrite <- (firstn_skipn (Z.to_nat (o1 + 3)) buf').
      unfold region in Htmpl. simpl skipn in Htmpl. rewrite Htmpl.
      change (rewrite_spec line ++ [ch_percent; ch_n; 0])
        with (rewrite_spec line ++ [ch_percent; ch_n] ++ [0]).
      rewrite app_assoc, <- app_assoc. simpl app at 2.
      apply cstr_from_cut. apply Forall_app. split.
      - apply rewrite_spec_nonzero; exact Hnzl.
      - repeat constructor; lia. }
    split.
    { split.
      - intros Hw. destruct (Htrue Hw) as [Hb Hlt]. exists (i - 1).
        apply Hbl; [lia | exact Hb].
      - intros (k & Hb). pose proof Hb as (Hk & _). rewrite Hll in Hk.
        apply Hbl in Hb; [|lia]. apply Hbare in Hb; [|lia]. tauto. }
    split. { intros Hw. destruct (Htrue Hw) as [Hb Hlt]. apply Hbl; [lia | exact Hb]. }
    split; [exact Hfalse|].
    intros c b off Hw Hc. subst wlw. unfold verification_count.
    destruct (to_char c =? LF) eqn:E; [lia | reflexivity].
Qed.

Lemma rewriter_template_and_whole_line_witness :
  let response := bytes "+CSQ: %d,%d" ++ [LF] ++ bytes "OK" in
  Zlength (_buffer fresh_session) = AT_BUFFER_SIZE /\
  exists buf',
    stage_line (_buffer fresh_session) response = Ok (buf', 12, 17, true) /\
    cstr buf' 0 = bytes "+CSQ: %*d,%*d" ++ [LF] ++ bytes "%n" /\
    bare_lf_at (firstn 12 response) 11.
Proof.
  intros response.
  split; [reflexivity|].
  destruct (rewriter_template_and_whole_line sscanf_plain (_buffer fresh_session)
              response eq_refl) as [_ Hspec].
  assert (Hst : exists buf', stage_line (_buffer fresh_session) response
                             = Ok (buf', 12, 17, true))
    by (vm_compute; eexists; reflexivity).
  destruct Hst as [buf' Hst].
  destruct (Hspec _ _ _ _ Hst) as (_ & _ & _ & Hcstr & _ & Hlast & _).
  exists buf'. split; [exact Hst|]. split.
  - rewrite Hcstr. vm_compute. reflexivity.
  - exact (Hlast eq_refl).
Defined.

(** ** The state at the head of the loops *)

Lemma memcpy_up_Zlength (n : nat) (cap : Z) :
  forall (m m' : list Z) (dst src : Z),
    memcpy_up n cap m dst src = Ok m' -> Zlength m' = Zlength m.
Proof.
  induction n as [|n IH]; intros m m' dst src Hm; simpl in Hm.
  - inversion Hm; reflexivity.
  - apply bind_Ok in Hm. destruct Hm as (m1 & Hs & Hm).
    apply IH in Hm. apply store_Zlength in Hs. lia.
Qed.

Lemma copy_in_Zlength (cap : Z) (src : list Z) :
  forall (m m' : list Z) (dst : Z),
    copy_in cap m dst src = Ok m' -> Zlength m' = Zlength m.
Proof.
  induction src as [|c tl IH]; intros m m' dst Hm; simpl in Hm.
  - inversion Hm; reflexivity.
  - apply bind_Ok in Hm. destruct Hm as (m1 & Hs & Hm).
    apply IH in Hm. apply store_Zlength in Hs. lia.
Qed.

Lemma strip_dummies_Zlength (n : nat) :
  forall (k : Z) (buf dp : list Z) (offset j : Z) (buf' dp' : list Z) (j' : Z),
    strip_dummies n k buf dp offset j = Ok (buf', dp', j') -> Zlength buf' = Zlength buf.
Proof.
  induction n as [|n IH]; intros k buf dp offset j buf' dp' j' Hs; simpl in Hs.
  - inversion Hs; reflexivity.
  - apply bind_Ok in Hs. destruct Hs as (dp1 & _ & Hs).
    apply bind_Ok in Hs. destruct Hs as (buf1 & Hm & Hs).
    apply IH in Hs. apply memcpy_up_Zlength in Hm. lia.
Qed.

Lemma stage_loop_offset (fuel : nat) :
  forall (response buf : list Z) (i offset : Z) (buf' : list Z) (i' offset' : Z) (wlw : bool),
    stage_loop fuel response buf i offset = Ok (buf', i', offset', wlw) ->
    Zlength buf' = Zlength buf /\ i <= i' /\ i' - i <= offset' - offset.
Proof.
  induction fuel as [|fuel IH]; intros response buf i offset buf' i' offset' wlw Hrun;
    cbn [stage_loop] in Hrun.
  - inversion Hrun; subst. lia.
  - destruct (rd response i =? 0); [inversion Hrun; subst; lia|].
    destruct (_ && _).
    + apply bind_Ok in Hrun. destruct Hrun as (b1 & Hs1 & Hrun).
      apply bind_Ok in Hrun. destruct Hrun as (b2 & Hs2 & Hrun).
      apply IH in Hrun. apply store_Zlength in Hs1. apply store_Zlength in Hs2. lia.
    + apply bind_Ok in Hrun. destruct Hrun as (b1 & Hs1 & Hrun).
      apply store_Zlength in Hs1.
      destruct (_ && _); [inversion Hrun; subst; lia|].
      apply IH in Hrun. lia.
Qed.

Lemma stage_line_wf (buf response buf' : list Z) (i offset : Z) (wlw : bool) :
  stage_line buf response = Ok (buf', i, offset, wlw) ->
  Zlength buf' = Zlength buf /\ 0 <= i < offset.
Proof.
  unfold stage_line; intros Hst.
  apply bind_Ok in Hst. destruct Hst as ([[[b1 i1] o1] w1] & Hloop & Hst).
  apply bind_Ok in Hst. destruct Hst as (b2 & Hs2 & Hst).
  apply bind_Ok in Hst. destruct Hst as (b3 & Hs3 & Hst).
  apply bind_Ok in Hst. destruct Hst as (b4 & Hs4 & Hst).
  inversion Hst; subst; clear Hst.
  apply stage_loop_offset in Hloop.
  apply store_Zlength in Hs2. apply store_Zlength in Hs3. apply store_Zlength in Hs4.
  lia.
Qed.

Section Invariant.

Context {port : Type} {ops : serial_ops port}.
Variable sscanf : list Z -> list Z -> option Z.
Variable run_cb : fnptr -> ATParser * port -> ATParser * port.

(** The handlers may write to the scratch buffer, which stays an array of
    [AT_BUFFER_SIZE] cells. *)
Hypothesis run_cb_keeps_buffer :
  forall f a p, Zlength (_buffer a) = AT_BUFFER_SIZE ->
                Zlength (_buffer (fst (run_cb f (a, p)))) = AT_BUFFER_SIZE.

Lemma accept_line_Zlength (w w' : World port) (fl fl' : flocals) (ll : llocals) :
  accept_line w fl ll = Ok (w', fl') ->
  Zlength (_buffer (session w')) = Zlength (_buffer (session w)).
Proof.
  unfold accept_line; intros Hacc.
  apply bind_Ok in Hacc; destruct Hacc as ([[buf1 dp1] j1] & Hs & Hacc).
  apply bind_Ok in Hacc; destruct Hacc as (buf2 & Hc & Hacc).
  apply bind_Ok in Hacc; destruct Hacc as (buf3 & Hst & Hacc).
  inversion Hacc; subst; simpl.
  apply strip_dummies_Zlength in Hs. apply copy_in_Zlength in Hc.
  apply store_Zlength in Hst. lia.
Qed.

Lemma invoke_Zlength (e : oob) (w : World port) :
  Zlength (_buffer (session w)) = AT_BUFFER_SIZE ->
  Zlength (_buffer (session (invoke run_cb e w))) = AT_BUFFER_SIZE.
Proof.
  intros Hlen. unfold invoke. destruct (cb e) as [f|]; [|exact Hlen].
  pose proof (run_cb_keeps_buffer f (session w) (io w) Hlen) as Hk.
  destruct (run_cb f (session w, io w)) as [a p]. exact Hk.
Qed.

Lemma step_config_wf (cf : config) : config_wf cf -> config_wf (step sscanf run_cb cf).
Proof.
  destruct cf as [w fl | w fl | w fl ll | v w]; simpl; intros Hwf; auto.
  - unfold next_line.
    destruct (rd (v_response fl) 0 =? 0); simpl; [exact I|].
    destruct (stage_line _ _) as [[[[buf1 i] offset] wlw]|k] eqn:Hst; simpl; [|exact I].
    apply stage_line_wf in Hst. unfold line_wf; simpl. repeat split; try lia.
  - unfold recv_char.
    destruct (get w) as [c w0] eqn:Hget.
    pose proof (get_inv _ _ _ Hget) as [Hses _].
    destruct (c <? 0); simpl; [exact I|].
    destruct (append_byte _ _ _ _) as [[buf1 ll1]|k] eqn:Happ; simpl; [|exact I].
    rewrite Hses in Happ.
    pose proof (append_byte_inv _ _ _ _ _ _ Happ) as (Ei & Eo & Ew & Hl1 & Hr & Hcases).
    destruct Hwf as (Hlen & Hi & Hj & Hd & Hdp).
    destruct (find _ _) as [e|].
    + destruct (v_aborted fl); simpl; [exact I|].
      apply invoke_Zlength. simpl. lia.
    + destruct (_ =? _).
      * destruct (accept_line _ _ _) as [[w3 fl3]|k] eqn:Hacc; simpl; [|exact I].
        apply accept_line_Zlength in Hacc. simpl in Hacc. lia.
      * simpl. unfold line_wf, reset_if_boundary.
        destruct ((to_char c =? LF) || (v_j ll1 + 1 >=? AT_BUFFER_SIZE - v_offset ll1)) eqn:Er;
          simpl.
        -- repeat split; try lia.
           destruct Hcases as [(_ & _ & _ & _ & _ & ->)|(_ & _ & _ & ->)];
             [rewrite upd_length|]; exact Hdp.
        -- apply orb_false_iff in Er. destruct Er as [Er _].
           destruct Hcases as [(Hlf & _)|(_ & Ej & Ed & Edp)]; [lia|].
           rewrite Edp. repeat split; lia.
Qed.

(** Every configuration a receive goes through is well formed, when the
    buffer it starts with is. *)
Lemma vrecv_config_wf (n : nat) (w : World port) (response : list Z) :
  Zlength (_buffer (session w)) = AT_BUFFER_SIZE ->
  config_wf (ATCmdParser_vrecv sscanf run_cb n w response).
Proof.
  intros Hlen. unfold ATCmdParser_vrecv.
  assert (H0 : config_wf (AtRestart w {| v_response := response; v_in_prev := 0;
                                         v_aborted := false |})) by exact Hlen.
  revert H0. generalize (AtRestart w {| v_response := response; v_in_prev := 0;
                                        v_aborted := false |}).
  induction n as [|n IH]; intros cf Hcf; simpl; [exact Hcf|].
  apply IH, step_config_wf, Hcf.
Qed.

End Invariant.
(** ** The argument splitter on strings without escaped commas *)

Lemma Zlength_cons' (x : Z) (l : list Z) : Zlength (x :: l) = Zlength l + 1.
Proof.
  rewrite Zlength_cons; lia.
Qed.

Lemma Zlength_nonneg' (l : list Z) : 0 <= Zlength l.
Proof.
  rewrite Zlength_correct; lia.
Qed.

Lemma rd_app_at (pre : list Z) (x : Z) (tl : list Z) :
  rd (pre ++ x :: tl) (Zlength pre) = x.
Proof.
  pose proof (Zlength_nonneg' pre).
  rewrite rd_nth by lia. rewrite Zlength_correct, Nat2Z.id.
  rewrite app_nth2 by lia. rewrite Nat.sub_diag. reflexivity.
Qed.

Lemma upd_app_at (pre : list Z) (x v : Z) (tl : list Z) :
  upd (List.length pre) v (pre ++ x :: tl) = pre ++ v :: tl.
Proof.
  induction pre as [|p pre IH]; simpl; [reflexivity | rewrite IH; reflexivity].
Qed.

Lemma store_app_at (pre : list Z) (x v : Z) (tl : list Z) (cap : Z) :
  cap = Zlength (pre ++ x :: tl) ->
  store cap (pre ++ x :: tl) (Zlength pre) v = Ok (pre ++ v :: tl).
Proof.
  intros ->. pose proof (Zlength_nonneg' pre). pose proof (Zlength_nonneg' tl).
  rewrite store_in_range by (rewrite Zlength_app, Zlength_cons'; lia).
  rewrite Zlength_correct, Nat2Z.id, upd_app_at. reflexivity.
Qed.

Lemma starts_Zlength (s : list Z) : forall k, Zlength (starts s k) = commas s.
Proof.
  induction s as [|c tl IH]; intros k; simpl; [reflexivity|].
  destruct (c =? ch_comma); [rewrite Zlength_cons', IH; lia | rewrite IH; lia].
Qed.

Lemma commas_nonneg (s : list Z) : 0 <= commas s.
Proof.
  induction s as [|c tl IH]; simpl; [lia | destruct (c =? ch_comma); lia].
Qed.

Lemma escaped_comma_prev (p q : Z) (s : list Z) :
  p <> ch_backslash -> q <> ch_backslash -> escaped_comma p s = escaped_comma q s.
Proof.
  intros Hp Hq. destruct s as [|c tl]; simpl; [reflexivity|].
  replace (p =? ch_backslash) with false by lia.
  replace (q =? ch_backslash) with false by lia. reflexivity.
Qed.

(** The loop from the index [i] on, with [pre] behind it and [rest] in front
    of it; [filled] are the pointers stored so far. *)
Lemma analyse_loop_split (rest : list Z) :
  forall (pre filled free args arg_list : list Z) (prev i arg_num len list_size : Z)
         (fuel : nat),
    args = pre ++ rest ++ [0] -> arg_list = filled ++ free ->
    i = Zlength pre -> arg_num = Zlength filled ->
    len = Zlength pre + Zlength rest ->
    escaped_comma prev rest = false ->
    arg_num + commas rest <= list_size ->
    commas rest <= Zlength free ->
    Zlength rest + 2 <= Z.of_nat fuel ->
    Args.analyse_loop fuel len list_size i args arg_list arg_num prev
    = Ok (arg_num + commas rest,
          pre ++ map zap rest ++ [0],
          filled ++ starts rest i ++ skipn (Z.to_nat (commas rest)) free).
Proof.
  induction rest as [|c tl IH];
    intros pre filled free args arg_list prev i arg_num len list_size fuel
           Hargs Hal Hi Hnum Hlen Hesc Hsize Hfree Hfuel.
  - rewrite Zlength_nil in *. simpl in *.
    destruct fuel as [|[|fuel]]; try lia.
    cbn [Args.analyse_loop].
    replace (i <=? len) with true by lia.
    subst args i. rewrite rd_app_at. simpl.
    replace (Zlength pre + 1 <=? len) with false by lia.
    rewrite Z.add_0_r. subst arg_list. reflexivity.
  - rewrite Zlength_cons' in *. pose proof (Zlength_nonneg' tl) as Htl.
    pose proof (Zlength_nonneg' pre) as Hpre. pose proof (commas_nonneg tl) as Hct.
    destruct fuel as [|fuel]; [lia|].
    cbn [Args.analyse_loop].
    replace (i <=? len) with true by lia.
    assert (Hrd : rd args i = c) by (subst args i; apply rd_app_at).
    rewrite Hrd. cbn [commas starts map escaped_comma] in *. unfold zap at 1.
    destruct (c =? ch_comma) eqn:Ec.
    + (* a separator *)
      apply orb_false_iff in Hesc. destruct Hesc as [Hp Hesc]. simpl in Hp.
      rewrite Hp.
      destruct free as [|x free'].
      { rewrite Zlength_nil in Hfree. lia. }
      rewrite Zlength_cons' in Hfree.
      assert (Hs1 : store (Zlength args) args i 0 = Ok (pre ++ 0 :: tl ++ [0])).
      { subst args i. apply store_app_at. reflexivity. }
      rewrite Hs1. cbn [bind].
      assert (Hs2 : store (Zlength arg_list) arg_list arg_num (i + 1)
                    = Ok (filled ++ (i + 1) :: free')).
      { subst arg_list arg_num. apply store_app_at. reflexivity. }
      rewrite Hs2. cbn [bind].
      replace (arg_num + 1 >? list_size) with false by lia.
      rewrite (IH (pre ++ [0]) (filled ++ [i + 1]) free'
                  (pre ++ 0 :: tl ++ [0]) (filled ++ (i + 1) :: free')
                  (rd (pre ++ 0 :: tl ++ [0]) i) (i + 1) (arg_num + 1) len list_size fuel).
      * replace (Z.to_nat (1 + commas tl)) with (S (Z.to_nat (commas tl))) by lia.
        cbn [skipn]. rewrite <- !app_assoc. cbn [app].
        repeat (f_equal; try lia).
      * rewrite <- app_assoc. reflexivity.
      * rewrite <- app_assoc. reflexivity.
      * rewrite Zlength_app, Zlength_cons', Zlength_nil. lia.
      * rewrite Zlength_app, Zlength_cons', Zlength_nil. lia.
      * rewrite Zlength_app, Zlength_cons', Zlength_nil. lia.
      * subst i. rewrite rd_app_at.
        rewrite <- Hesc. apply escaped_comma_prev; lia.
      * lia.
      * lia.
      * lia.
    + (* a byte of a field *)
      simpl in Hesc.
      rewrite (IH (pre ++ [c]) filled free args arg_list c (i + 1) arg_num len list_size fuel).
      * rewrite <- !app_assoc. cbn [app]. repeat (f_equal; try lia).
      * subst args. rewrite <- app_assoc. reflexivity.
      * assumption.
      * rewrite Zlength_app, Zlength_cons', Zlength_nil. lia.
      * assumption.
      * rewrite Zlength_app, Zlength_cons', Zlength_nil. lia.
      * assumption.
      * lia.
      * lia.
      * lia.
Qed.

Lemma cstr_app_at (pre x : list Z) : cstr (pre ++ x) (Zlength pre) = cstr_from x.
Proof.
  unfold cstr. rewrite Zlength_correct, Nat2Z.id.
  rewrite skipn_app, skipn_all, Nat.sub_diag. reflexivity.
Qed.

Lemma fields_nonempty (s : list Z) : fields s <> [].
Proof.
  destruct s as [|c tl]; simpl; [discriminate|].
  destruct (c =? ch_comma); [discriminate|].
  destruct (fields tl); discriminate.
Qed.

(** The strings behind the pointers, read in the string the loop leaves,
    are the fields. *)
Lemma cstr_fields (s : list Z) :
  forall pre : list Z,
    Forall (fun c => c <> 0) s ->
    map (cstr (pre ++ map zap s ++ [0])) (Zlength pre :: starts s (Zlength pre))
    = fields s.
Proof.
  induction s as [|c tl IH]; intros pre Hnz.
  - simpl. rewrite cstr_app_at. reflexivity.
  - inversion Hnz as [|c' tl' Hc Htl]; subst.
    cbn [map starts fields].
    destruct (c =? ch_comma) eqn:Ec.
    + assert (Hz : zap c = 0) by (unfold zap; rewrite Ec; reflexivity).
      rewrite Hz. cbn [map]. rewrite cstr_app_at.
      cbn [app cstr_from]. replace (0 =? 0) with true by reflexivity. f_equal.
      specialize (IH (pre ++ [0]) Htl).
      rewrite Zlength_app, Zlength_cons', Zlength_nil in IH.
      rewrite <- app_assoc in IH. cbn [app] in IH.
      replace (Zlength pre + (0 + 1)) with (Zlength pre + 1) in IH by lia.
      exact IH.
    + assert (Hz : zap c = c) by (unfold zap; rewrite Ec; reflexivity).
      rewrite Hz. cbn [map]. rewrite cstr_app_at.
      cbn [app cstr_from]. replace (c =? 0) with false by lia.
      specialize (IH (pre ++ [c]) Htl).
      rewrite Zlength_app, Zlength_cons', Zlength_nil in IH.
      rewrite <- app_assoc in IH. cbn [app map] in IH.
      replace (Zlength pre + (0 + 1)) with (Zlength pre + 1) in IH by lia.
      destruct (fields tl) as [|f fs] eqn:Ef; [exfalso; eapply fields_nonempty; eauto|].
      injection IH as Hf Hfs. rewrite <- Hfs, <- Hf. f_equal. f_equal.
      replace (pre ++ c :: map zap tl ++ [0]) with ((pre ++ [c]) ++ map zap tl ++ [0])
        by (rewrite <- app_assoc; reflexivity).
      replace (Zlength pre + 1) with (Zlength (pre ++ [c]))
        by (rewrite Zlength_app, Zlength_cons', Zlength_nil; lia).
      rewrite cstr_app_at. reflexivity.
Qed.

(** X1: on a string with no NUL in it and no comma right behind a backslash,
    and with a slot for every field, [ATCmdParser_analyse_args] returns the
    number of fields, leaves every comma replaced by NUL and nothing else
    changed, and the pointers it stores denote the fields of the string in
    order; the slots behind them keep what they held. *)
Theorem analyse_args_splits_at_commas (s arg_list : list Z) (list_size : Z) :
  Forall (fun c => c <> 0) s ->
  escaped_comma 0 s = false ->
  commas s + 1 <= list_size ->
  commas s + 1 <= Zlength arg_list ->
  exists args' arg_list',
    Args.ATCmdParser_analyse_args (s ++ [0]) arg_list list_size
    = Ok (commas s + 1, args', arg_list') /\
    Args.arguments args' arg_list' (commas s + 1) = fields s /\
    args' = map zap s ++ [0] /\
    skipn (Z.to_nat (commas s + 1)) arg_list' = skipn (Z.to_nat (commas s + 1)) arg_list.
Proof.
  intros Hnz Hesc Hsize Hslots.
  pose proof (commas_nonneg s) as Hc. pose proof (Zlength_nonneg' s) as Hs.
  unfold Args.ATCmdParser_analyse_args.
  assert (Hlen : Zlength (cstr (s ++ [0]) 0) = Zlength s).
  { unfold cstr. simpl skipn. rewrite cstr_from_cut by assumption. reflexivity. }
  rewrite Hlen.
  destruct arg_list as [|x free]; [rewrite Zlength_nil in Hslots; lia|].
  rewrite Zlength_cons' in Hslots.
  rewrite (store_app_at [] x 0 free) by reflexivity. cbn [bind app].
  rewrite (analyse_loop_split s [] [0] free (s ++ [0]) (0 :: free) 0 0 1
                              (Zlength s) list_size (Z.to_nat (Zlength s + 2)));
    try reflexivity; try assumption; try (rewrite ?Zlength_nil; lia).
  replace (1 + commas s) with (commas s + 1) by lia.
  do 2 eexists. split; [reflexivity|].
  cbn [app]. split; [|split; [reflexivity|]].
  - unfold Args.arguments.
    replace (Z.to_nat (commas s + 1)) with (S (Z.to_nat (commas s))) by lia.
    cbn [firstn].
    rewrite firstn_app, (firstn_all2 (n := Z.to_nat (commas s))).
    + replace (Z.to_nat (commas s) - List.length (starts s 0))%nat with 0%nat.
      * cbn [firstn]. rewrite app_nil_r.
        exact (cstr_fields s [] Hnz).
      * pose proof (starts_Zlength s 0) as Hl. rewrite Zlength_correct in Hl. lia.
    + pose proof (starts_Zlength s 0) as Hl. rewrite Zlength_correct in Hl. lia.
  - replace (Z.to_nat (commas s + 1)) with (S (Z.to_nat (commas s))) by lia.
    cbn [skipn].
    rewrite skipn_app, (skipn_all2 (n := Z.to_nat (commas s))).
    + replace (Z.to_nat (commas s) - List.length (starts s 0))%nat with 0%nat.
      * reflexivity.
      * pose proof (starts_Zlength s 0) as Hl. rewrite Zlength_correct in Hl. lia.
    + pose proof (starts_Zlength s 0) as Hl. rewrite Zlength_correct in Hl. lia.
Qed.


Lemma store_behind (m : list Z) (v : Z) : store (Zlength m) m (Zlength m) v = OutOfBounds (Zlength m).
Proof.
  unfold store. replace (Zlength m <? Zlength m) with false by lia.
  rewrite andb_false_r. reflexivity.
Qed.

(** The loop when the commas in front of it outnumber the free slots. *)
Lemma analyse_loop_overflow (rest : list Z) :
  forall (pre filled free args arg_list : list Z) (prev i arg_num len list_size : Z)
         (fuel : nat),
    args = pre ++ rest ++ [0] -> arg_list = filled ++ free ->
    i = Zlength pre -> arg_num = Zlength filled ->
    len = Zlength pre + Zlength rest ->
    escaped_comma prev rest = false ->
    Zlength arg_list = list_size ->
    Zlength free < commas rest ->
    Zlength rest + 2 <= Z.of_nat fuel ->
    Args.analyse_loop fuel len list_size i args arg_list arg_num prev
    = OutOfBounds list_size.
Proof.
  induction rest as [|c tl IH];
    intros pre filled free args arg_list prev i arg_num len list_size fuel
           Hargs Hal Hi Hnum Hlen Hesc Hsize Hfree Hfuel.
  - simpl in Hfree. pose proof (Zlength_nonneg' free). lia.
  - rewrite Zlength_cons' in *. pose proof (Zlength_nonneg' tl) as Htl.
    pose proof (Zlength_nonneg' pre) as Hpre.
    destruct fuel as [|fuel]; [lia|].
    cbn [Args.analyse_loop].
    replace (i <=? len) with true by lia.
    assert (Hrd : rd args i = c) by (subst args i; apply rd_app_at).
    rewrite Hrd. cbn [commas escaped_comma] in *.
    destruct (c =? ch_comma) eqn:Ec.
    + apply orb_false_iff in Hesc. destruct Hesc as [Hp Hesc]. simpl in Hp.
      rewrite Hp.
      assert (Hs1 : store (Zlength args) args i 0 = Ok (pre ++ 0 :: tl ++ [0])).
      { subst args i. apply store_app_at. reflexivity. }
      rewrite Hs1. cbn [bind].
      destruct free as [|x free'].
      * rewrite app_nil_r in Hal. subst arg_list arg_num. rewrite store_behind.
        cbn [bind]. rewrite Hsize. reflexivity.
      * rewrite Zlength_cons' in Hfree.
        assert (Hs2 : store (Zlength arg_list) arg_list arg_num (i + 1)
                      = Ok (filled ++ (i + 1) :: free')).
        { subst arg_list arg_num. apply store_app_at. reflexivity. }
        rewrite Hs2. cbn [bind].
        assert (Hls : list_size = Zlength filled + (Zlength free' + 1)).
        { rewrite <- Hsize, Hal, Zlength_app, Zlength_cons'. reflexivity. }
        pose proof (Zlength_nonneg' free').
        replace (arg_num + 1 >? list_size) with false by lia.
        apply (IH (pre ++ [0]) (filled ++ [i + 1]) free').
        -- rewrite <- app_assoc. reflexivity.
        -- rewrite <- app_assoc. reflexivity.
        -- rewrite Zlength_app, Zlength_cons', Zlength_nil. lia.
        -- rewrite Zlength_app, Zlength_cons', Zlength_nil. lia.
        -- rewrite Zlength_app, Zlength_cons', Zlength_nil. lia.
        -- subst i. rewrite rd_app_at.
           rewrite <- Hesc. apply escaped_comma_prev; lia.
        -- rewrite Zlength_app, Zlength_cons'. lia.
        -- lia.
        -- lia.
    + simpl in Hesc.
      apply (IH (pre ++ [c]) filled free).
      * subst args. rewrite <- app_assoc. reflexivity.
      * assumption.
      * rewrite Zlength_app, Zlength_cons', Zlength_nil. lia.
      * assumption.
      * rewrite Zlength_app, Zlength_cons', Zlength_nil. lia.
      * assumption.
      * assumption.
      * lia.
      * lia.
Qed.

(** X2: when the string has at least [list_size] commas (none of them
    behind a backslash), [ATCmdParser_analyse_args] stores one pointer more
    than [list_size]: with an array of exactly [list_size] slots the store
    to [arg_list[list_size]] is outside of the array; the test
    [arg_num > list_size] comes behind the store. *)
Theorem analyse_args_overruns_arg_list (s arg_list : list Z) (list_size : Z) :
  Forall (fun c => c <> 0) s ->
  escaped_comma 0 s = false ->
  Zlength arg_list = list_size ->
  list_size <= commas s ->
  Args.ATCmdParser_analyse_args (s ++ [0]) arg_list list_size = OutOfBounds list_size.
Proof.
  intros Hnz Hesc Hslots Hmany.
  pose proof (Zlength_nonneg' s) as Hs.
  unfold Args.ATCmdParser_analyse_args.
  assert (Hlen : Zlength (cstr (s ++ [0]) 0) = Zlength s).
  { unfold cstr. simpl skipn. rewrite cstr_from_cut by assumption. reflexivity. }
  rewrite Hlen.
  destruct arg_list as [|x free].
  - rewrite Zlength_nil in Hslots. subst list_size. reflexivity.
  - rewrite Zlength_cons' in Hslots.
    rewrite (store_app_at [] x 0 free) by reflexivity. cbn [bind app].
    apply (analyse_loop_overflow s [] [0] free); try reflexivity; try assumption;
      rewrite ?Zlength_cons', ?Zlength_nil; lia.
Qed.

Lemma analyse_args_splits_at_commas_witness :
  let s := bytes "+CSQ: 21,,99" in
  Forall (fun c => c <> 0) s /\
  escaped_comma 0 s = false /\
  commas s + 1 <= 3 /\
  commas s + 1 <= Zlength [7; 7; 7; 7] /\
  exists args' arg_list',
    Args.ATCmdParser_analyse_args (s ++ [0]) [7; 7; 7; 7] 3
    = Ok (commas s + 1, args', arg_list') /\
    Args.arguments args' arg_list' (commas s + 1) = fields s /\
    args' = map zap s ++ [0] /\
    skipn (Z.to_nat (commas s + 1)) arg_list' = skipn (Z.to_nat (commas s + 1)) [7; 7; 7; 7].
Proof.
  intros s.
  assert (Hnz : Forall (fun c => c <> 0) s) by (repeat constructor; discriminate).
  assert (Hesc : escaped_comma 0 s = false) by reflexivity.
  assert (H1 : commas s + 1 <= 3) by (vm_compute; discriminate).
  assert (H2 : commas s + 1 <= Zlength [7; 7; 7; 7]) by (vm_compute; discriminate).
  split; [exact Hnz|]. split; [exact Hesc|]. split; [exact H1|]. split; [exact H2|].
  exact (analyse_args_splits_at_commas s [7; 7; 7; 7] 3 Hnz Hesc H1 H2).
Defined.

Lemma analyse_args_overruns_arg_list_witness :
  Forall (fun c => c <> 0) (bytes "a,b,c") /\
  Zlength [7; 7] = 2 /\ 2 <= commas (bytes "a,b,c") /\
  Args.ATCmdParser_analyse_args (bytes "a,b,c" ++ [0]) [7; 7] 2 = OutOfBounds 2.
Proof.
  assert (Hnz : Forall (fun c => c <> 0) (bytes "a,b,c")).
  { repeat constructor; discriminate. }
  split; [exact Hnz|]. split; [reflexivity|]. split; [vm_compute; discriminate|].
  apply (analyse_args_overruns_arg_list (bytes "a,b,c") [7; 7] 2 Hnz).
  - reflexivity.
  - reflexivity.
  - vm_compute; discriminate.
Defined.

(** ** The idle poller *)

Section PollFacts.

Context {port : Type} {ops : serial_ops port}.
Variable run_cb : fnptr -> ATParser * port -> ATParser * port.
Variable stray : Z -> Z.

Lemma poll_step_wf (cf : pconfig) : poll_wf cf -> poll_wf (poll_step run_cb stray cf).
Proof.
  destruct cf as [w i | r w]; simpl; [|auto].
  intros (Hlen & Hi & Hroom). unfold poll_char.
  destruct (get w) as [c w0] eqn:Hget.
  pose proof (get_inv _ _ _ Hget) as [Hses _].
  destruct (c <? 0); simpl; [discriminate|].
  rewrite store_in_range by lia. cbn [bind].
  rewrite store_in_range by lia.
  destruct (find _ _) as [e|]; simpl; [discriminate|].
  assert (Hl : Zlength (upd (Z.to_nat (i + 1)) 0
                            (upd (Z.to_nat i) (to_char c) (_buffer (session w0))))
               = AT_BUFFER_SIZE).
  { rewrite !Zlength_correct, !upd_length, <- Zlength_correct, Hses. exact Hlen. }
  destruct (_ || _) eqn:E.
  - simpl. destruct (unprocessed_data (session w0)); simpl; repeat split; auto;
      unfold AT_BUFFER_SIZE; lia.
  - simpl. apply orb_false_iff in E. destruct E as [E _].
    repeat split; auto; lia.
Qed.

Lemma poll_run_wf (n : nat) :
  forall cf : pconfig, poll_wf cf -> poll_wf (poll_run run_cb stray n cf).
Proof.
  induction n as [|n IH]; intros cf Hwf; simpl; [exact Hwf|].
  apply IH, poll_step_wf, Hwf.
Qed.

End PollFacts.

(** X3: the idle poller never writes outside of the scratch buffer: whatever
    the port delivers and whatever is registered, a call on a session whose
    buffer has its [AT_BUFFER_SIZE] cells does not end by a write behind the
    buffer, and every round it starts has the two cells it writes free. *)
Theorem process_oob_stays_in_buffer
        {port : Type} {ops : serial_ops port}
        (run_cb : fnptr -> ATParser * port -> ATParser * port)
        (stray : Z -> Z) (n : nat) (w : World port) :
  Zlength (_buffer (session w)) = AT_BUFFER_SIZE ->
  poll_wf (ATCmdParser_process_oob run_cb stray n w) /\
  forall k w', ATCmdParser_process_oob run_cb stray n w <> PollDone (PollOverrun k) w'.
Proof.
  intros Hlen.
  assert (Hwf : poll_wf (ATCmdParser_process_oob run_cb stray n w)).
  { unfold ATCmdParser_process_oob.
    destruct (ops_readable (io w)) as [r p].
    destruct (r =? 0); [simpl; discriminate|].
    apply poll_run_wf. simpl. unfold AT_BUFFER_SIZE in *. repeat split; auto; lia. }
  split; [exact Hwf|].
  intros k w' Heq. rewrite Heq in Hwf. apply (Hwf k). reflexivity.
Qed.

Lemma process_oob_stays_in_buffer_witness :
  Zlength (_buffer (session (world0 fresh_session (repeat 97 2100)))) = AT_BUFFER_SIZE /\
  forall k w',
    ATCmdParser_process_oob quiet_cb (fun _ => 0) 2101 (world0 fresh_session (repeat 97 2100))
    <> PollDone (PollOverrun k) w'.
Proof.
  split; [reflexivity|].
  exact (proj2 (process_oob_stays_in_buffer quiet_cb (fun _ => 0) 2101
                  (world0 fresh_session (repeat 97 2100)) eq_refl)).
Defined.

(** On a scripted port with nothing registered the poller reads on until
    the script is over. *)
Lemma poll_run_drains (run_cb : fnptr -> ATParser * list Z -> ATParser * list Z)
      (stray : Z -> Z) (script : list Z) :
  forall (w : World (list Z)) (i : Z),
    io w = script ->
    Forall (fun c => 0 <= c) script ->
    _oobs (session w) = [] ->
    poll_wf (PollAt w i) ->
    exists w',
      poll_run run_cb stray (S (List.length script)) (PollAt w i)
      = PollDone PollTimedOut w' /\
      io w' = [] /\ _oobs (session w') = [].
Proof.
  induction script as [|c tl IH]; intros w i Hio Hall Hoobs Hwf.
  - simpl. unfold poll_char, get. rewrite Hio. simpl.
    eexists; split; [reflexivity|]. simpl. auto.
  - inversion Hall as [|c' tl' Hc Htl]; subst.
    pose proof (poll_step_wf run_cb stray _ Hwf) as Hwf1.
    change (poll_run run_cb stray (S (List.length (c :: tl))) (PollAt w i))
      with (poll_run run_cb stray (S (List.length tl)) (poll_step run_cb stray (PollAt w i))).
    destruct Hwf as (Hlen & Hi & Hroom).
    revert Hwf1. simpl poll_step. unfold poll_char, get. rewrite Hio. simpl.
    replace (c <? 0) with false by lia.
    rewrite store_in_range by lia. cbn [bind].
    rewrite store_in_range by lia.
    rewrite Hoobs. cbn [find].
    destruct (_ || _).
    + intros Hwf1. apply IH; auto.
      * destruct (unprocessed_data (session w)); reflexivity.
      * destruct (unprocessed_data (session w)); simpl; exact Hoobs.
    + intros Hwf1. apply IH; auto.
Qed.

(** X4: with bytes pending and no prefix registered, the poller is no
    single look at the port: it reads byte after byte, and it returns false
    only when a read has timed out, with every pending byte consumed. *)
Theorem process_oob_drains_pending_bytes
        (run_cb : fnptr -> ATParser * list Z -> ATParser * list Z)
        (stray : Z -> Z) (a : ATParser) (script : list Z) (l : list event) :
  script <> [] ->
  Forall (fun c => 0 <= c) script ->
  _oobs a = [] ->
  Zlength (_buffer a) = AT_BUFFER_SIZE ->
  exists w',
    ATCmdParser_process_oob run_cb stray (S (List.length script))
                            {| session := a; io := script; log := l |}
    = PollDone PollTimedOut w' /\
    poll_returned PollTimedOut = Some false /\
    io w' = [].
Proof.
  intros Hne Hall Hoobs Hlen.
  unfold ATCmdParser_process_oob. simpl.
  destruct script as [|c tl]; [contradiction|]. cbn [ops_readable script_ops].
  replace (1 =? 0) with false by reflexivity.
  destruct (poll_run_drains run_cb stray (c :: tl)
              {| session := a; io := c :: tl; log := l |} 0)
    as (w' & Hrun & Hio & _); auto.
  - simpl. unfold AT_BUFFER_SIZE in *. repeat split; auto; lia.
  - exists w'. auto.
Qed.

Lemma process_oob_drains_pending_bytes_witness :
  bytes "+CSQ: 21" <> [] /\
  Forall (fun c => 0 <= c) (bytes "+CSQ: 21") /\
  _oobs fresh_session = [] /\
  Zlength (_buffer fresh_session) = AT_BUFFER_SIZE /\
  exists w',
    ATCmdParser_process_oob quiet_cb (fun _ => 0) (S (List.length (bytes "+CSQ: 21")))
                            {| session := fresh_session; io := bytes "+CSQ: 21"; log := [] |}
    = PollDone PollTimedOut w' /\
    poll_returned PollTimedOut = Some false /\
    io w' = [].
Proof.
  assert (H1 : bytes "+CSQ: 21" <> []) by discriminate.
  assert (H2 : Forall (fun c => 0 <= c) (bytes "+CSQ: 21"))
    by (repeat constructor; discriminate).
  split; [exact H1|]. split; [exact H2|]. split; [reflexivity|]. split; [reflexivity|].
  exact (process_oob_drains_pending_bytes quiet_cb (fun _ => 0) fresh_session
           (bytes "+CSQ: 21") [] H1 H2 eq_refl eq_refl).
Defined.

(** ** The registry *)

Lemma find_head {A : Type} (f : A -> bool) (x : A) (l : list A) :
  f x = true -> find f (x :: l) = Some x.
Proof.
  intros H; simpl; rewrite H; reflexivity.
Qed.

Lemma add_oob_wf (a : ATParser) (p : list Z) (f : option fnptr) :
  Forall oob_wf (_oobs a) -> Forall oob_wf (_oobs (ATCmdParser_add_oob a p f)).
Proof.
  intros Hall. simpl. constructor; [reflexivity | exact Hall].
Qed.

(** X5: the node [ATCmdParser_add_oob] adds goes in front of the list, so a
    prefix that is registered again shadows its earlier registrations: in
    the receive loop and in the idle poller alike, a candidate equal to the
    prefix registered last stops the scan at that node and its handler is
    the one that runs, whatever the registry held before. *)
Theorem latest_registration_wins
        {port : Type} {ops : serial_ops port}
        (sscanf : list Z -> list Z -> option Z)
        (run_cb : fnptr -> ATParser * port -> ATParser * port)
        (stray : Z -> Z)
        (a : ATParser) (p : list Z) (f : option fnptr)
        (w w0 : World port) (fl : flocals) (ll ll1 : llocals) (c : Z) (buf1 : list Z)
        (v v0 : World port) (i d : Z) (b1 buf2 : list Z) :
  let e := {| len := Zlength p; prefix := p; cb := f |} in
  (_oobs (session w) = _oobs (ATCmdParser_add_oob a p f) ->
   line_wf (_buffer (session w)) ll ->
   v_aborted fl = false ->
   get w = (c, w0) ->
   0 <= c ->
   append_byte (_buffer (session w0)) (v_in_prev fl) ll c = Ok (buf1, ll1) ->
   candidate buf1 ll1 = p ->
   step sscanf run_cb (AtChar w fl ll)
   = AtRestart (invoke run_cb e (with_buffer w0 buf1))
               {| v_response := v_response fl; v_in_prev := to_char c;
                  v_aborted := false |}) /\
  (_oobs (session v) = _oobs (ATCmdParser_add_oob a p f) ->
   poll_wf (PollAt v i) ->
   get v = (d, v0) ->
   0 <= d ->
   store AT_BUFFER_SIZE (_buffer (session v0)) i (to_char d) = Ok b1 ->
   store AT_BUFFER_SIZE b1 (i + 1) 0 = Ok buf2 ->
   region buf2 0 (i + 1) = p ->
   poll_step run_cb stray (PollAt v i)
   = PollDone Handled (invoke run_cb e (with_buffer v0 buf2))).
Proof.
  intros e. split.
  - intros Hreg Hwf Hab Hget Hc Happ Hcand.
    pose proof (get_inv _ _ _ Hget) as [Hses _].
    destruct Hwf as (Hlen & Hi & Hj & Hd & Hdp).
    pose proof (append_byte_inv _ _ _ _ _ _ Happ) as (Ei & Eo & Ew & Hl1 & Hr & Hcases).
    assert (Hj1 : 0 < v_j ll1) by (destruct Hcases as [H|H]; lia).
    assert (Hcl : Zlength (candidate buf1 ll1) = v_j ll1).
    { unfold candidate. apply region_Zlength; try lia.
      rewrite Hl1, Hses, Hlen. lia. }
    assert (Hhit : oob_hit buf1 (v_offset ll1) (v_j ll1) e = true)
      by (apply oob_hit_whole; [reflexivity | assumption | exact Hcand | exact Hcl]).
    simpl. unfold recv_char. rewrite Hget.
    destruct (c <? 0) eqn:E; [lia|].
    rewrite Happ. simpl. rewrite Hses, Hreg. simpl _oobs.
    rewrite (find_head _ e _ Hhit). simpl. rewrite Hab. reflexivity.
  - intros Hreg (Hlen & Hi & Hroom) Hget Hd Hs1 Hs2 Hcand.
    pose proof (get_inv _ _ _ Hget) as [Hses _].
    pose proof (store_Zlength _ _ _ _ _ Hs1) as L1.
    pose proof (store_Zlength _ _ _ _ _ Hs2) as L2.
    assert (Hcl : Zlength (region buf2 0 (i + 1)) = i + 1).
    { apply region_Zlength; try lia. rewrite L2, L1, Hses, Hlen. lia. }
    assert (Hhit : oob_hit buf2 0 (i + 1) e = true)
      by (apply oob_hit_whole; [reflexivity | lia | exact Hcand | exact Hcl]).
    simpl. unfold poll_char. rewrite Hget.
    destruct (d <? 0) eqn:E; [lia|].
    rewrite Hs1. cbn [bind]. rewrite Hs2. simpl. rewrite Hses, Hreg. simpl _oobs.
    rewrite (find_head _ e _ Hhit). reflexivity.
Qed.


(** ** More facts about arrays *)

Lemma skipn_upd_below (m : list Z) (n k : nat) (v : Z) :
  (k < n)%nat -> skipn n (upd k v m) = skipn n m.
Proof.
  revert n k; induction m as [|x tl IH]; intros [|n] [|k] Hk; simpl; try lia; auto.
  apply IH; lia.
Qed.

Lemma skipn_upd_above (m : list Z) (n k : nat) (v : Z) :
  (n <= k)%nat -> skipn n (upd k v m) = upd (k - n) v (skipn n m).
Proof.
  revert n k; induction m as [|x tl IH]; intros [|n] [|k] Hk; simpl; try lia; auto.
  - destruct (k - n)%nat; reflexivity.
  - apply IH; lia.
Qed.

Lemma firstn_upd_above (m : list Z) (n k : nat) (v : Z) :
  (n <= k)%nat -> firstn n (upd k v m) = firstn n m.
Proof.
  revert n k; induction m as [|x tl IH]; intros [|n] [|k] Hk; simpl; try lia; auto.
  f_equal. apply IH; lia.
Qed.

(** A write outside of a region leaves it as it is. *)
Lemma region_store_outside (cap : Z) (m m' : list Z) (idx v k n : Z) :
  store cap m idx v = Ok m' -> 0 <= k -> 0 <= n ->
  idx < k \/ k + n <= idx ->
  region m' k n = region m k n.
Proof.
  intros Hs Hk Hn Hout. apply store_inv in Hs. destruct Hs as [Hidx ->].
  unfold region. destruct Hout as [Hlt|Hge].
  - rewrite skipn_upd_below by lia. reflexivity.
  - rewrite skipn_upd_above by lia. rewrite firstn_upd_above by lia. reflexivity.
Qed.

(** A write right behind a region makes it one cell longer. *)
Lemma region_store_snoc (cap : Z) (m m' : list Z) (v k n : Z) :
  store cap m (k + n) v = Ok m' -> 0 <= k -> 0 <= n -> k + n < Zlength m ->
  region m' k (n + 1) = region m k n ++ [v].
Proof.
  intros Hs Hk Hn Hin. apply store_inv in Hs. destruct Hs as [Hidx ->].
  unfold region. rewrite skipn_upd_above by lia.
  replace (Z.to_nat (k + n) - Z.to_nat k)%nat with (Z.to_nat n) by lia.
  replace (Z.to_nat (n + 1)) with (S (Z.to_nat n)) by lia.
  apply firstn_upd_snoc. rewrite length_skipn. rewrite Zlength_correct in Hin. lia.
Qed.

Lemma rd_store_same (cap : Z) (m m' : list Z) (k v : Z) :
  store cap m k v = Ok m' -> k < Zlength m -> rd m' k = v.
Proof.
  intros Hs Hk. apply store_inv in Hs. destruct Hs as [Hidx ->].
  apply rd_upd_same. lia.
Qed.

Lemma rd_skipn (m : list Z) (k : Z) : 0 <= k -> rd m k = hd 0 (skipn (Z.to_nat k) m).
Proof.
  intros Hk. rewrite rd_nth by lia. generalize (Z.to_nat k) as n. clear.
  intros n; revert m; induction n as [|n IH]; intros [|x m]; simpl; auto.
Qed.

(** The C string at [k] is the region of [n] bytes there, when none of
    them is NUL and a NUL comes next. *)
Lemma cstr_region (m : list Z) (k n : Z) :
  0 <= k -> 0 <= n -> k + n < Zlength m ->
  Forall (fun c => c <> 0) (region m k n) -> rd m (k + n) = 0 ->
  cstr m k = region m k n.
Proof.
  intros Hk Hn Hin Hnz Hnul. unfold cstr.
  rewrite <- (firstn_skipn (Z.to_nat n) (skipn (Z.to_nat k) m)).
  fold (region m k n). rewrite skipn_skipn.
  replace (Z.to_nat n + Z.to_nat k)%nat with (Z.to_nat (k + n)) by lia.
  rewrite rd_skipn in Hnul by lia.
  destruct (skipn (Z.to_nat (k + n)) m) as [|x tl] eqn:E.
  - exfalso. apply (f_equal (@List.length Z)) in E. rewrite length_skipn in E.
    rewrite Zlength_correct in Hin. simpl in E. lia.
  - simpl in Hnul. subst x. apply cstr_from_cut. exact Hnz.
Qed.

Lemma copy_in_region (src : list Z) :
  forall (m m' : list Z) (dst : Z),
    Zlength m = AT_BUFFER_SIZE ->
    copy_in AT_BUFFER_SIZE m dst src = Ok m' -> 0 <= dst ->
    Zlength m' = AT_BUFFER_SIZE /\
    region m' 0 (dst + Zlength src) = region m 0 dst ++ src /\
    (forall k, dst + Zlength src <= k ->
               skipn (Z.to_nat k) m' = skipn (Z.to_nat k) m).
Proof.
  induction src as [|c tl IH]; intros m m' dst Hlen Hc Hd; simpl in Hc.
  - inversion Hc; subst. rewrite Zlength_nil, Z.add_0_r, app_nil_r.
    repeat split; auto.
  - apply bind_Ok in Hc. destruct Hc as (m1 & Hs & Hc).
    destruct (store_snoc _ _ _ _ Hlen Hs) as (L1 & R1 & Hr1).
    apply IH in Hc; [|assumption|lia].
    destruct Hc as (L' & Hreg & Hout).
    rewrite Zlength_cons'. pose proof (Zlength_nonneg' tl).
    split; [exact L'|]. split.
    + replace (dst + (Zlength tl + 1)) with (dst + 1 + Zlength tl) by lia.
      rewrite Hreg, Hr1, <- app_assoc. reflexivity.
    + intros k Hk. rewrite Hout by lia.
      apply store_inv in Hs. destruct Hs as [_ ->].
      apply skipn_upd_below. lia.
Qed.

(** ** The append of a byte *)

(** Without a filler: the byte goes behind the candidate and the sentinel
    behind the byte; the cells in front stay. *)
Lemma append_byte_plain (buf : list Z) (in_prev : Z) (ll : llocals) (c : Z) :
  ~ (to_char c = LF /\ in_prev = ch_colon) ->
  Zlength buf = AT_BUFFER_SIZE -> 0 <= v_offset ll -> 0 <= v_j ll ->
  v_offset ll + v_j ll + 1 < AT_BUFFER_SIZE ->
  exists buf1,
    append_byte buf in_prev ll c
    = Ok (buf1, {| v_i := v_i ll; v_offset := v_offset ll;
                   v_whole_line_wanted := v_whole_line_wanted ll;
                   v_j := v_j ll + 1; v_dummy := v_dummy ll;
                   v_dummy_pos := v_dummy_pos ll |}) /\
    Zlength buf1 = AT_BUFFER_SIZE /\
    region buf1 (v_offset ll) (v_j ll + 1) = region buf (v_offset ll) (v_j ll) ++ [to_char c] /\
    rd buf1 (v_offset ll + (v_j ll + 1)) = 0 /\
    (forall k n, 0 <= k -> 0 <= n -> k + n <= v_offset ll + v_j ll ->
                 region buf1 k n = region buf k n).
Proof.
  intros Hno Hlen Ho Hj Hroom. unfold append_byte.
  replace ((to_char c =? LF) && (in_prev =? ch_colon)) with false by lia.
  cbn [bind].
  destruct (store AT_BUFFER_SIZE buf (v_offset ll + v_j ll) (to_char c)) as [b2|k] eqn:Hs2.
  2: { rewrite store_in_range in Hs2 by lia. discriminate. }
  cbn [bind].
  pose proof (store_Zlength _ _ _ _ _ Hs2) as L2.
  destruct (store AT_BUFFER_SIZE b2 (v_offset ll + (v_j ll + 1)) 0) as [b3|k] eqn:Hs3.
  2: { rewrite store_in_range in Hs3 by lia. discriminate. }
  cbn [bind].
  pose proof (store_Zlength _ _ _ _ _ Hs3) as L3.
  exists b3. split; [reflexivity|]. split; [lia|]. split; [|split].
  - rewrite (region_store_outside _ _ _ _ _ _ _ Hs3) by lia.
    apply (region_store_snoc _ _ _ _ _ _ Hs2); lia.
  - apply (rd_store_same _ _ _ _ _ Hs3). lia.
  - intros k n Hk Hn Hkn.
    rewrite (region_store_outside _ _ _ _ _ _ _ Hs3) by lia.
    apply (region_store_outside _ _ _ _ _ _ _ Hs2); lia.
Qed.

(** With a filler and room for it. *)
Lemma append_byte_filler (buf : list Z) (in_prev : Z) (ll : llocals) (c : Z) :
  to_char c = LF -> in_prev = ch_colon ->
  Zlength buf = AT_BUFFER_SIZE -> 0 <= v_offset ll -> 0 <= v_j ll -> v_dummy ll = 0 ->
  v_offset ll + v_j ll + 2 < AT_BUFFER_SIZE ->
  exists buf1,
    append_byte buf in_prev ll c
    = Ok (buf1, {| v_i := v_i ll; v_offset := v_offset ll;
                   v_whole_line_wanted := v_whole_line_wanted ll;
                   v_j := v_j ll + 1 + 1; v_dummy := v_dummy ll + 1;
                   v_dummy_pos := upd (Z.to_nat (v_dummy ll)) (v_j ll) (v_dummy_pos ll) |}) /\
    Zlength buf1 = AT_BUFFER_SIZE /\
    region buf1 (v_offset ll) (v_j ll + 1 + 1)
    = region buf (v_offset ll) (v_j ll) ++ [ch_x; LF] /\
    rd buf1 (v_offset ll + (v_j ll + 1 + 1)) = 0.
Proof.
  intros Hlf Hcolon Hlen Ho Hj Hd Hroom. unfold append_byte.
  replace ((to_char c =? LF) && (in_prev =? ch_colon)) with true by lia.
  rewrite (store_in_range 20) by lia. cbn [bind].
  destruct (store AT_BUFFER_SIZE buf (v_offset ll + v_j ll) ch_x) as [b1|k] eqn:Hs1.
  2: { rewrite store_in_range in Hs1 by lia. discriminate. }
  cbn [bind].
  pose proof (store_Zlength _ _ _ _ _ Hs1) as L1.
  destruct (store AT_BUFFER_SIZE b1 (v_offset ll + (v_j ll + 1)) (to_char c)) as [b2|k] eqn:Hs2.
  2: { rewrite store_in_range in Hs2 by lia. discriminate. }
  cbn [bind].
  pose proof (store_Zlength _ _ _ _ _ Hs2) as L2.
  destruct (store AT_BUFFER_SIZE b2 (v_offset ll + (v_j ll + 1 + 1)) 0) as [b3|k] eqn:Hs3.
  2: { rewrite store_in_range in Hs3 by lia. discriminate. }
  cbn [bind].
  pose proof (store_Zlength _ _ _ _ _ Hs3) as L3.
  exists b3. split; [reflexivity|]. split; [lia|]. split.
  - rewrite (region_store_outside _ _ _ _ _ _ _ Hs3) by lia.
    rewrite (region_store_snoc _ _ _ _ _ _ Hs2) by lia.
    rewrite (region_store_snoc _ _ _ _ _ _ Hs1) by lia.
    rewrite <- app_assoc, Hlf. reflexivity.
  - apply (rd_store_same _ _ _ _ _ Hs3). lia.
Qed.

(** With a filler and a candidate that leaves two cells only. *)
Lemma append_byte_overrun (buf : list Z) (in_prev : Z) (ll : llocals) (c : Z) :
  to_char c = LF -> in_prev = ch_colon ->
  0 <= v_offset ll -> 0 <= v_j ll -> v_dummy ll = 0 ->
  v_offset ll + v_j ll + 2 = AT_BUFFER_SIZE ->
  append_byte buf in_prev ll c = OutOfBounds AT_BUFFER_SIZE.
Proof.
  intros Hlf Hcolon Ho Hj Hd Hroom. unfold append_byte.
  replace ((to_char c =? LF) && (in_prev =? ch_colon)) with true by lia.
  rewrite (store_in_range 20) by lia. cbn [bind].
  rewrite store_in_range by lia. cbn [bind].
  rewrite store_in_range by lia. cbn [bind].
  unfold store at 1.
  replace (v_offset ll + (v_j ll + 1 + 1) <? AT_BUFFER_SIZE) with false by lia.
  rewrite andb_false_r. cbn [bind]. f_equal. lia.
Qed.

(** ** Where a round of the receive loop can leave the buffer *)

Section OverrunFacts.

Context {port : Type} {ops : serial_ops port}.
Variable sscanf : list Z -> list Z -> option Z.
Variable run_cb : fnptr -> ATParser * port -> ATParser * port.

(** Once the append has gone well the round does not leave the buffer, and
    if the loop goes round again it is with the appended buffer and the
    locals behind the boundary test. *)
Lemma recv_char_after_append (w w0 : World port) (fl : flocals) (ll ll1 : llocals)
      (c : Z) (buf1 : list Z) :
  line_wf (_buffer (session w)) ll ->
  get w = (c, w0) ->
  0 <= c ->
  append_byte (_buffer (session w0)) (v_in_prev fl) ll c = Ok (buf1, ll1) ->
  (forall k w', step sscanf run_cb (AtChar w fl ll) <> Done (Overrun k) w') /\
  (forall w' fl' ll',
     step sscanf run_cb (AtChar w fl ll) = AtChar w' fl' ll' ->
     w' = with_buffer w0 buf1 /\ ll' = reset_if_boundary c ll1).
Proof.
  intros Hwf Hget Hc Happ.
  pose proof (get_inv _ _ _ Hget) as [Hses _].
  rewrite <- Hses in Hwf.
  simpl. unfold recv_char. rewrite Hget.
  destruct (c <? 0) eqn:E; [lia|].
  rewrite Happ. simpl.
  destruct (find _ _) as [e|].
  - destruct (v_aborted fl); split; intros; discriminate.
  - destruct (_ =? _).
    + destruct (accept_line_total (with_buffer w0 buf1)
                  {| v_response := v_response fl; v_in_prev := to_char c;
                     v_aborted := v_aborted fl |}
                  _ _ _ _ _ Hwf Happ) as (w3 & fl3 & Hacc).
      rewrite Hacc. split; intros; discriminate.
    + split; [intros; discriminate|].
      intros w' fl' ll' Heq. inversion Heq; subst. auto.
Qed.

End OverrunFacts.

(** What a round that has read a byte can do to the buffer. *)
Lemma recv_char_cases
        {port : Type} {ops : serial_ops port}
        (sscanf : list Z -> list Z -> option Z)
        (run_cb : fnptr -> ATParser * port -> ATParser * port)
        (w w0 : World port) (fl : flocals) (ll : llocals) (c : Z) :
  line_wf (_buffer (session w)) ll ->
  v_offset ll + v_j ll + 1 < AT_BUFFER_SIZE ->
  get w = (c, w0) ->
  0 <= c ->
  ((exists k w', step sscanf run_cb (AtChar w fl ll) = Done (Overrun k) w')
   <-> (to_char c = LF /\ v_in_prev fl = ch_colon /\
        v_offset ll + v_j ll + 2 = AT_BUFFER_SIZE)) /\
  (forall k w', step sscanf run_cb (AtChar w fl ll) = Done (Overrun k) w' ->
                k = AT_BUFFER_SIZE) /\
  (forall w' fl' ll',
     step sscanf run_cb (AtChar w fl ll) = AtChar w' fl' ll' ->
     line_wf (_buffer (session w')) ll' /\
     v_offset ll' + v_j ll' + 1 < AT_BUFFER_SIZE) /\
  (forall k w', step sscanf run_cb (AtChar w fl ll) = Done (Overrun k) w' ->
                w' = w0 /\ to_char c = LF).
Proof.
  intros Hwf Hroom Hget Hc.
  pose proof (get_inv _ _ _ Hget) as [Hses _].
  pose proof Hwf as (Hlen & Hi & Hj & Hd & Hdp).
  assert (Hlen0 : Zlength (_buffer (session w0)) = AT_BUFFER_SIZE)
    by (rewrite Hses; exact Hlen).
  destruct (Z.eq_dec (to_char c) LF) as [Hlf|Hnlf];
    [destruct (Z.eq_dec (v_in_prev fl) ch_colon) as [Hcol|Hncol];
     [destruct (Z.eq_dec (v_offset ll + v_j ll + 2) AT_BUFFER_SIZE) as [Hfull|Hnfull]|]|].
  - (* a filler that does not fit *)
    assert (Hstep : step sscanf run_cb (AtChar w fl ll) = Done (Overrun AT_BUFFER_SIZE) w0).
    { simpl. unfold recv_char. rewrite Hget.
      destruct (c <? 0) eqn:E; [lia|].
      rewrite append_byte_overrun by (auto; lia). reflexivity. }
    rewrite Hstep. split; [|split; [|split]].
    + split; [auto | eauto].
    + intros k w' Heq. inversion Heq; reflexivity.
    + intros; discriminate.
    + intros k w' Heq. inversion Heq; subst. split; [reflexivity | exact Hlf].
  - (* a filler that fits *)
    destruct (append_byte_filler (_buffer (session w0)) (v_in_prev fl) ll c)
      as (buf1 & Happ & L1 & _); auto; try lia.
    destruct (recv_char_after_append sscanf run_cb _ _ _ _ _ _ _ Hwf Hget Hc Happ)
      as [Hin Hnext].
    split; [|split; [|split]]; [| | |intros k w' Heq; exfalso; eapply Hin; eauto].
    + split; [intros (k & w' & Heq); exfalso; eapply Hin; eauto | intros (_ & _ & H); lia].
    + intros k w' Heq. exfalso; eapply Hin; eauto.
    + intros w' fl' ll' Heq. apply Hnext in Heq. destruct Heq as [-> ->].
      unfold reset_if_boundary. cbn [v_j v_offset].
      replace (to_char c =? LF) with true by lia. cbn [orb].
      unfold line_wf. simpl. rewrite upd_length. repeat split; auto; lia.
  - (* a line feed that is not behind a colon *)
    destruct (append_byte_plain (_buffer (session w0)) (v_in_prev fl) ll c)
      as (buf1 & Happ & L1 & _); auto; try lia.
    destruct (recv_char_after_append sscanf run_cb _ _ _ _ _ _ _ Hwf Hget Hc Happ)
      as [Hin Hnext].
    split; [|split; [|split]]; [| | |intros k w' Heq; exfalso; eapply Hin; eauto].
    + split; [intros (k & w' & Heq); exfalso; eapply Hin; eauto | intros (_ & H & _); lia].
    + intros k w' Heq. exfalso; eapply Hin; eauto.
    + intros w' fl' ll' Heq. apply Hnext in Heq. destruct Heq as [-> ->].
      unfold reset_if_boundary. cbn [v_j v_offset].
      replace (to_char c =? LF) with true by lia. cbn [orb].
      unfold line_wf. simpl. repeat split; auto; lia.
  - (* any other byte *)
    destruct (append_byte_plain (_buffer (session w0)) (v_in_prev fl) ll c)
      as (buf1 & Happ & L1 & _); auto; try lia.
    destruct (recv_char_after_append sscanf run_cb _ _ _ _ _ _ _ Hwf Hget Hc Happ)
      as [Hin Hnext].
    split; [|split; [|split]]; [| | |intros k w' Heq; exfalso; eapply Hin; eauto].
    + split; [intros (k & w' & Heq); exfalso; eapply Hin; eauto | intros (H & _); lia].
    + intros k w' Heq. exfalso; eapply Hin; eauto.
    + intros w' fl' ll' Heq. apply Hnext in Heq. destruct Heq as [-> ->].
      unfold reset_if_boundary. cbn [v_j v_offset].
      replace (to_char c =? LF) with false by lia. cbn [orb].
      destruct (v_j ll + 1 + 1 >=? AT_BUFFER_SIZE - v_offset ll) eqn:Eb;
        unfold line_wf; simpl; repeat split; auto; lia.
Qed.

(** X7: a round of the receive loop that starts with the sentinel cell of
    its candidate inside the buffer leaves the buffer in one case only: the
    byte is a line feed behind a colon, so that a filler is injected, and
    the candidate has two free cells left; the write that goes outside is
    then the one to [_buffer[AT_BUFFER_SIZE]].  In every other case the
    round stays inside, and when the loop goes round again the sentinel
    cell of the new candidate is inside the buffer again. *)
Theorem receive_round_overruns_only_behind_filler
        {port : Type} {ops : serial_ops port}
        (sscanf : list Z -> list Z -> option Z)
        (run_cb : fnptr -> ATParser * port -> ATParser * port)
        (w w0 : World port) (fl : flocals) (ll : llocals) (c : Z) :
  line_wf (_buffer (session w)) ll ->
  v_offset ll + v_j ll + 1 < AT_BUFFER_SIZE ->
  get w = (c, w0) ->
  0 <= c ->
  ((exists k w', step sscanf run_cb (AtChar w fl ll) = Done (Overrun k) w')
   <-> (to_char c = LF /\ v_in_prev fl = ch_colon /\
        v_offset ll + v_j ll + 2 = AT_BUFFER_SIZE)) /\
  (forall k w', step sscanf run_cb (AtChar w fl ll) = Done (Overrun k) w' ->
                k = AT_BUFFER_SIZE) /\
  (forall w' fl' ll',
     step sscanf run_cb (AtChar w fl ll) = AtChar w' fl' ll' ->
     line_wf (_buffer (session w')) ll' /\
     v_offset ll' + v_j ll' + 1 < AT_BUFFER_SIZE).
Proof.
  intros Hwf Hroom Hget Hc.
  destruct (recv_char_cases sscanf run_cb w w0 fl ll c Hwf Hroom Hget Hc)
    as (H1 & H2 & H3 & _).
  split; [exact H1 | split; [exact H2 | exact H3]].
Qed.

(** ** The extraction behind an accepted line *)

Lemma region_snoc (m : list Z) (k n : Z) :
  0 <= k -> 0 <= n -> k + n < Zlength m ->
  region m k (n + 1) = region m k n ++ [rd m (k + n)].
Proof.
  intros Hk Hn Hin. unfold region.
  replace (Z.to_nat (n + 1)) with (S (Z.to_nat n)) by lia.
  rewrite rd_skipn by lia.
  replace (Z.to_nat (k + n)) with (Z.to_nat n + Z.to_nat k)%nat by lia.
  rewrite <- skipn_skipn.
  assert (Hl : (Z.to_nat n < List.length (skipn (Z.to_nat k) m))%nat).
  { rewrite length_skipn. rewrite Zlength_correct in Hin. lia. }
  revert Hl. generalize (skipn (Z.to_nat k) m) as l. generalize (Z.to_nat n) as q.
  clear. intros q; induction q as [|q IH]; intros [|x l] Hl; simpl in *; try lia.
  - reflexivity.
  - f_equal. apply IH. lia.
Qed.

Lemma rd_store_other (cap : Z) (m m' : list Z) (k v q : Z) :
  store cap m k v = Ok m' -> q <> k -> rd m' q = rd m q.
Proof.
  intros Hs Hq. apply store_inv in Hs. destruct Hs as [Hk ->].
  destruct (Z_lt_dec q 0) as [Hneg|Hpos]; [rewrite !rd_below by lia; reflexivity|].
  rewrite !rd_nth by lia.
  assert (Hne : Z.to_nat q <> Z.to_nat k) by lia.
  revert Hne. generalize (Z.to_nat q) as a. generalize (Z.to_nat k) as b. clear.
  intros b a; revert b a; induction m as [|x tl IH]; intros [|b] [|a] Hne; simpl;
    try reflexivity; try lia.
  apply IH. lia.
Qed.

(** What the body of [if (count == j)] does to a buffer whose fillers are
    out already: the line is copied over the head of the template and
    closed by a NUL; the candidate stays. *)
Lemma restage_line (buf1 line : list Z) (i offset j : Z) :
  Zlength buf1 = AT_BUFFER_SIZE ->
  Zlength line = i -> 0 <= i < offset -> 0 <= j -> offset + j < AT_BUFFER_SIZE ->
  Forall (fun c => c <> 0) line ->
  exists buf2 buf3,
    copy_in AT_BUFFER_SIZE buf1 0 line = Ok buf2 /\
    store AT_BUFFER_SIZE buf2 i 0 = Ok buf3 /\
    Zlength buf3 = AT_BUFFER_SIZE /\
    cstr buf3 0 = line /\
    region buf3 offset j = region buf1 offset j /\
    rd buf3 (offset + j) = rd buf1 (offset + j).
Proof.
  intros Hlen Hline Hi Hj Hroom Hnz.
  destruct (copy_in_in_range AT_BUFFER_SIZE line buf1 0) as (buf2 & Hc & _); try lia.
  destruct (copy_in_region line buf1 buf2 0 Hlen Hc) as (L2 & Hreg & Hout); [lia|].
  destruct (store AT_BUFFER_SIZE buf2 i 0) as [buf3|k] eqn:Hs.
  2: { rewrite store_in_range in Hs by lia. discriminate. }
  pose proof (store_Zlength _ _ _ _ _ Hs) as L3.
  exists buf2, buf3. split; [exact Hc|]. split; [exact Hs|]. split; [lia|].
  assert (Hskip : forall k, i < k -> skipn (Z.to_nat k) buf3 = skipn (Z.to_nat k) buf1).
  { intros k Hk. rewrite <- Hout by lia.
    pose proof Hs as Hs'. apply store_inv in Hs'. destruct Hs' as [_ ->].
    apply skipn_upd_below. lia. }
  assert (Hr3 : region buf3 0 i = line).
  { rewrite (region_store_outside _ _ _ _ _ _ _ Hs) by lia.
    replace i with (0 + Zlength line) by lia. rewrite Hreg.
    rewrite region_empty by lia. reflexivity. }
  split; [|split].
  - rewrite <- Hr3. apply cstr_region; try lia.
    + rewrite Hr3. exact Hnz.
    + replace (0 + i) with i by lia. apply (rd_store_same _ _ _ _ _ Hs). lia.
  - unfold region. rewrite Hskip by lia. reflexivity.
  - rewrite !rd_skipn by lia. rewrite Hskip by lia. reflexivity.
Qed.

Section ExtractFacts.

Context {port : Type} {ops : serial_ops port}.
Variable sscanf : list Z -> list Z -> option Z.
Variable run_cb : fnptr -> ATParser * port -> ATParser * port.

(** The body of [if (count == j)] when no filler is in the candidate. *)
Lemma accept_line_plain (w1 : World port) (fl1 : flocals) (ll1 : llocals) :
  Zlength (_buffer (session w1)) = AT_BUFFER_SIZE ->
  v_dummy ll1 = 0 ->
  0 <= v_i ll1 < v_offset ll1 -> 0 <= v_j ll1 ->
  v_offset ll1 + v_j ll1 < AT_BUFFER_SIZE ->
  Zlength (firstn (Z.to_nat (v_i ll1)) (v_response fl1)) = v_i ll1 ->
  Forall (fun c => c <> 0) (firstn (Z.to_nat (v_i ll1)) (v_response fl1)) ->
  Forall (fun c => c <> 0) (candidate (_buffer (session w1)) ll1) ->
  rd (_buffer (session w1)) (v_offset ll1 + v_j ll1) = 0 ->
  exists buf3,
    accept_line w1 fl1 ll1
    = Ok ({| session := set_buffer (session w1) buf3; io := io w1;
             log := log w1 ++ [EvExtract (candidate (_buffer (session w1)) ll1)
                                         (firstn (Z.to_nat (v_i ll1)) (v_response fl1))] |},
          {| v_response := skipn (Z.to_nat (v_i ll1)) (v_response fl1);
             v_in_prev := v_in_prev fl1; v_aborted := v_aborted fl1 |}) /\
    Zlength buf3 = AT_BUFFER_SIZE /\
    cstr buf3 0 = firstn (Z.to_nat (v_i ll1)) (v_response fl1).
Proof.
  intros Hlen Hd Hi Hj Hroom Hline Hnzl Hnzc Hnul.
  destruct (restage_line (_buffer (session w1))
              (firstn (Z.to_nat (v_i ll1)) (v_response fl1))
              (v_i ll1) (v_offset ll1) (v_j ll1))
    as (buf2 & buf3 & Hc & Hs & L3 & Hfmt & Hreg & Hrd); auto.
  exists buf3. split; [|split; [exact L3 | exact Hfmt]].
  unfold accept_line. rewrite Hd. cbn [Z.to_nat strip_dummies bind].
  rewrite Hc. cbn [bind]. rewrite Hs. cbn [bind].
  assert (Hin : cstr buf3 (v_offset ll1) = candidate (_buffer (session w1)) ll1).
  { unfold candidate. rewrite <- Hreg. apply cstr_region; try lia.
    rewrite Hreg. exact Hnzc. }
  rewrite Hin, Hfmt. reflexivity.
Qed.

End ExtractFacts.

(** X8: when a line is accepted in a round without filler, the value
    extraction ([vsscanf]) is run with the pattern line just verified, in
    its original form, as the format and with the very candidate the
    verification counted as the input (if neither holds a NUL byte); the
    pattern cursor moves behind that line and the byte stays in
    [_in_prev]. *)
Theorem accepted_line_is_extracted
        {port : Type} {ops : serial_ops port}
        (sscanf : list Z -> list Z -> option Z)
        (run_cb : fnptr -> ATParser * port -> ATParser * port)
        (w w0 : World port) (fl : flocals) (ll ll1 : llocals) (c : Z) (buf1 : list Z) :
  let line := firstn (Z.to_nat (v_i ll)) (v_response fl) in
  line_wf (_buffer (session w)) ll ->
  get w = (c, w0) ->
  0 <= c ->
  append_byte (_buffer (session w0)) (v_in_prev fl) ll c = Ok (buf1, ll1) ->
  ~ (to_char c = LF /\ v_in_prev fl = ch_colon) ->
  find (oob_hit buf1 (v_offset ll1) (v_j ll1)) (_oobs (session w0)) = None ->
  verification_count sscanf (v_whole_line_wanted ll1) c buf1 (v_offset ll1) = v_j ll1 ->
  v_i ll <= Zlength (v_response fl) ->
  Forall (fun c => c <> 0) line ->
  Forall (fun c => c <> 0) (candidate buf1 ll1) ->
  exists buf3,
    step sscanf run_cb (AtChar w fl ll)
    = AtLine {| session := set_buffer (session w0) buf3; io := io w0;
                log := log w ++ [EvGet c; EvExtract (candidate buf1 ll1) line] |}
             {| v_response := skipn (Z.to_nat (v_i ll)) (v_response fl);
                v_in_prev := to_char c; v_aborted := v_aborted fl |} /\
    cstr buf3 0 = line /\
    candidate buf1 ll1 = candidate (_buffer (session w)) ll ++ [to_char c].
Proof.
  intros line Hwf Hget Hc Happ Hno Hfind Hcount Hile Hnzl Hnzc.
  pose proof (get_inv _ _ _ Hget) as [Hses Hlog].
  destruct Hwf as (Hlen & Hi & Hj & Hd & Hdp).
  pose proof (append_byte_inv _ _ _ _ _ _ Happ) as (Ei & Eo & Ew & Hl1 & Hr & Hcases).
  destruct Hcases as [(Hlf & Hcol & _)|(_ & Ej & Ed & Edp)]; [tauto|].
  destruct (append_byte_plain (_buffer (session w0)) (v_in_prev fl) ll c)
    as (buf1' & Happ' & L1 & Hcand & Hnul & _); auto; try lia.
  { rewrite Hses; exact Hlen. }
  rewrite Happ in Happ'. assert (Hb : buf1' = buf1) by congruence.
  subst buf1'. clear Happ'.
  assert (A6 : Zlength (firstn (Z.to_nat (v_i ll1)) (v_response fl)) = v_i ll1)
    by (rewrite Ei; apply Zlength_firstn_inside; lia).
  assert (A7 : Forall (fun c => c <> 0) (firstn (Z.to_nat (v_i ll1)) (v_response fl)))
    by (rewrite Ei; exact Hnzl).
  assert (A9 : rd buf1 (v_offset ll1 + v_j ll1) = 0) by (rewrite Eo, Ej; exact Hnul).
  destruct (accept_line_plain (with_buffer w0 buf1)
              {| v_response := v_response fl; v_in_prev := to_char c;
                 v_aborted := v_aborted fl |} ll1
              L1 ltac:(lia) ltac:(lia) ltac:(lia) ltac:(lia) A6 A7 Hnzc A9)
    as (buf3 & Hacc & L3 & Hfmt).
  exists buf3. split; [|split].
  - simpl. unfold recv_char. rewrite Hget.
    destruct (c <? 0) eqn:E; [lia|].
    rewrite Happ. simpl. rewrite Hfind, Hcount, Z.eqb_refl.
    simpl in Hacc. rewrite Hacc. unfold line. rewrite Ei, Hlog, <- app_assoc.
    unfold set_buffer. simpl. reflexivity.
  - simpl in Hfmt. rewrite Hfmt, Ei. reflexivity.
  - unfold candidate. rewrite Eo, Ej, <- Hses. exact Hcand.
Qed.

(** ** Rounds on the scripted port *)

Lemma latest_registration_wins_witness :
  let a := ATCmdParser_add_oob session_plus_X (bytes "+X") (Some 2%nat) in
  let cf := receive 3 a (bytes "+X") (bytes "OK") in
  let next := step sscanf_plain quiet_cb
                   (AtChar (world_of cf) (frame_of cf) (line_frame_of cf)) in
  _oobs (session (world_of cf)) = _oobs a /\
  line_wf (_buffer (session (world_of cf))) (line_frame_of cf) /\
  calls_of 2%nat (log (world_of next)) = 1%nat /\
  calls_of 1%nat (log (world_of next)) = 0%nat.
Proof.
  intros a cf next.
  assert (Hreg : _oobs (session (world_of cf)) = _oobs a) by (vm_compute; reflexivity).
  assert (Hwf : line_wf (_buffer (session (world_of cf))) (line_frame_of cf)).
  { vm_compute. repeat split; try reflexivity; intros H; discriminate H. }
  split; [exact Hreg|]. split; [exact Hwf|].
  edestruct (latest_registration_wins sscanf_plain quiet_cb (fun _ => 0)
               session_plus_X (bytes "+X") (Some 2%nat)
               (world_of cf) (snd (get (world_of cf))) (frame_of cf) (line_frame_of cf))
    with (c := 88) (v := world_of cf) (v0 := world_of cf) (i := 0) (d := 0) (b1 := @nil Z)
         (buf2 := @nil Z)
    as [Hrecv _].
  unfold next. rewrite Hrecv.
  - split; vm_compute; reflexivity.
  - exact Hreg.
  - exact Hwf.
  - vm_compute; reflexivity.
  - vm_compute; reflexivity.
  - lia.
  - vm_compute; reflexivity.
  - vm_compute; reflexivity.
Defined.


Lemma receive_round_overruns_only_behind_filler_witness :
  let cf := receive 3 fresh_session (bytes "OK") (bytes "OK") in
  let w := world_of cf in
  let fl := frame_of cf in
  let ll := line_frame_of cf in
  line_wf (_buffer (session w)) ll /\
  v_offset ll + v_j ll + 1 < AT_BUFFER_SIZE /\
  get w = (75, snd (get w)) /\
  ~ (exists k w', step sscanf_plain quiet_cb (AtChar w fl ll) = Done (Overrun k) w').
Proof.
  intros cf w fl ll.
  assert (Hwf : line_wf (_buffer (session w)) ll).
  { vm_compute. repeat split; try reflexivity; intros H; discriminate H. }
  assert (Hroom : v_offset ll + v_j ll + 1 < AT_BUFFER_SIZE) by (vm_compute; reflexivity).
  assert (Hget : get w = (75, snd (get w))) by (vm_compute; reflexivity).
  split; [exact Hwf|]. split; [exact Hroom|]. split; [exact Hget|].
  destruct (receive_round_overruns_only_behind_filler sscanf_plain quiet_cb
              w (snd (get w)) fl ll 75 Hwf Hroom Hget ltac:(lia)) as [[Hiff _] _].
  intros H. apply Hiff in H. destruct H as [H _]. discriminate H.
Defined.

Lemma accepted_line_is_extracted_witness :
  let cf := receive 3 fresh_session (bytes "OK") (bytes "OK") in
  let w := world_of cf in
  let fl := frame_of cf in
  let ll := line_frame_of cf in
  line_wf (_buffer (session w)) ll /\
  get w = (75, snd (get w)) /\
  exists w' fl',
    step sscanf_plain quiet_cb (AtChar w fl ll) = AtLine w' fl' /\
    log w' = log w ++ [EvGet 75; EvExtract (bytes "OK") (bytes "OK")] /\
    v_response fl' = [].
Proof.
  intros cf w fl ll.
  assert (Hwf : line_wf (_buffer (session w)) ll).
  { vm_compute. repeat split; try reflexivity; intros H; discriminate H. }
  assert (Hget : get w = (75, snd (get w))) by (vm_compute; reflexivity).
  split; [exact Hwf|]. split; [exact Hget|].
  edestruct (accepted_line_is_extracted sscanf_plain quiet_cb
               w (snd (get w)) fl ll) with (c := 75)
    as (buf3 & Hstep & _ & _).
  - exact Hwf.
  - exact Hget.
  - lia.
  - vm_compute; reflexivity.
  - intros [H _]; discriminate H.
  - vm_compute; reflexivity.
  - vm_compute; reflexivity.
  - vm_compute; discriminate.
  - vm_compute. repeat constructor; discriminate.
  - vm_compute. repeat constructor; discriminate.
  - eexists; eexists. split; [exact Hstep|].
    split; vm_compute; reflexivity.
Defined.

(** ** The sending side *)

Lemma copy_in_overrun (cap : Z) (src : list Z) :
  forall (m : list Z) (dst : Z),
    0 <= dst <= cap -> cap < dst + Zlength src ->
    copy_in cap m dst src = OutOfBounds cap.
Proof.
  induction src as [|c tl IH]; intros m dst Hdst Hlen.
  - rewrite Zlength_nil in Hlen. lia.
  - rewrite Zlength_cons' in Hlen. simpl.
    destruct (Z.eq_dec dst cap) as [->|Hne].
    + unfold store.
      replace ((0 <=? cap) && (cap <? cap)) with false by lia. reflexivity.
    + rewrite store_in_range by lia. cbn [bind]. apply IH; lia.
Qed.

Lemma copy_in_text (m text : list Z) :
  Zlength m = AT_BUFFER_SIZE -> Zlength text < AT_BUFFER_SIZE ->
  Forall (fun c => c <> 0) text ->
  exists buf,
    copy_in AT_BUFFER_SIZE m 0 (text ++ [0]) = Ok buf /\
    Zlength buf = AT_BUFFER_SIZE /\
    cstr buf 0 = text.
Proof.
  intros Hlen Hroom Hnz.
  assert (Hl : Zlength (text ++ [0]) = Zlength text + 1)
    by (rewrite Zlength_app; reflexivity).
  pose proof (Zlength_nonneg' text) as Hpos.
  destruct (copy_in_in_range AT_BUFFER_SIZE (text ++ [0]) m 0) as (buf & Hc & Hb);
    [lia | lia |].
  exists buf. split; [exact Hc|]. split; [lia|].
  destruct (copy_in_region (text ++ [0]) m buf 0 Hlen Hc ltac:(lia)) as (_ & Hreg & _).
  rewrite (region_empty m 0 0) in Hreg by lia. simpl in Hreg.
  unfold cstr. change (Z.to_nat 0) with 0%nat. cbn [skipn].
  rewrite <- (firstn_skipn (Z.to_nat (Zlength (text ++ [0]))) buf).
  unfold region in Hreg. change (Z.to_nat 0) with 0%nat in Hreg. cbn [skipn] in Hreg.
  rewrite Hreg, <- app_assoc. simpl. apply cstr_from_cut, Hnz.
Qed.

Section SendFacts.

Context {port : Type} {ops : serial_ops port} {puts : serial_put port}.
Variable run_cb : fnptr -> ATParser * port -> ATParser * port.
Variable stray : Z -> Z.
Variable vsprintf : list Z -> option (list Z).

Lemma put_all_app (a b : list Z) :
  forall p : port,
    put_all (a ++ b) p
    = (if fst (put_all a p) then put_all b (snd (put_all a p))
       else (false, snd (put_all a p))).
Proof.
  induction a as [|c tl IH]; intros p; simpl.
  - destruct (put_all b p); reflexivity.
  - destruct (ops_put c p) as [r p1]. destruct (r <? 0); [reflexivity | apply IH].
Qed.

Lemma write_loop_result (n : nat) (data : list Z) :
  forall (p : port) (i : Z),
    fst (write_loop n data p i) = i + Z.of_nat n \/ fst (write_loop n data p i) = -1.
Proof.
  induction n as [|n IH]; intros p i.
  - left; simpl; lia.
  - cbn [write_loop]. destruct (ops_put (rd data i) p) as [r p1].
    destruct (r <? 0); [right; reflexivity|].
    destruct (IH p1 (i + 1)) as [H|H]; [left; rewrite H; lia | right; exact H].
Qed.

End SendFacts.

(** X9: [ATCmdParser_write] never returns a short count: the result is
    [size] (0 for a negative [size]) or -1, whatever the port does, and
    the session is left as it was. *)
Theorem write_gives_size_or_failure
        {port : Type} {ops : serial_ops port} {puts : serial_put port}
        (w : World port) (data : list Z) (size : Z) :
  (fst (ATCmdParser_write w data size) = Z.max 0 size \/
   fst (ATCmdParser_write w data size) = -1) /\
  session (snd (ATCmdParser_write w data size)) = session w /\
  log (snd (ATCmdParser_write w data size)) = log w.
Proof.
  unfold ATCmdParser_write.
  pose proof (write_loop_result (Z.to_nat size) data (io w) 0) as H.
  destruct (write_loop (Z.to_nat size) data (io w) 0) as [r p]. simpl in *.
  split; [|split; reflexivity].
  destruct H as [H|H]; [left; lia | right; exact H].
Qed.

Lemma write_loop_wire (n : nat) (data : list Z) :
  forall (p : wire) (i : Z),
    0 <= i -> i + Z.of_nat n <= Zlength data ->
    write_loop n data p i
    = (if (n <=? credit p)%nat then i + Z.of_nat n else -1,
       {| rx := rx p;
          tx := tx p ++ region data i (Z.of_nat (Nat.min n (credit p)));
          credit := credit p - n |}).
Proof.
  induction n as [|n IH]; intros p i Hi Hlen.
  - simpl. rewrite (region_empty data i 0) by lia. rewrite app_nil_r, Nat.sub_0_r, Z.add_0_r.
    destruct p; reflexivity.
  - cbn [write_loop]. destruct p as [r t k]. destruct k as [|k].
    + simpl. rewrite (region_empty data i 0) by lia. rewrite app_nil_r. reflexivity.
    + cbn [ops_put wire_put credit rx tx]. cbn [Z.ltb Z.compare].
      rewrite IH by lia. cbn [rx tx credit].
      change (S n <=? S k)%nat with (n <=? k)%nat.
      change (Nat.min (S n) (S k)) with (S (Nat.min n k)).
      change (S k - S n)%nat with (k - n)%nat.
      rewrite (region_cons data i (Z.of_nat (S (Nat.min n k)))) by lia.
      replace (Z.of_nat (S (Nat.min n k)) - 1) with (Z.of_nat (Nat.min n k)) by lia.
      rewrite <- app_assoc. simpl app.
      replace (i + 1 + Z.of_nat n) with (i + Z.of_nat (S n)) by lia. reflexivity.
Qed.

(** X10: on a port whose [put] fails after [credit] bytes, a write of
    [size] bytes with more than [credit] of them returns -1 with the first
    [credit] bytes on the line already: the count of what went out is lost
    to the caller.  With enough credit the [size] bytes go out in order. *)
Theorem failed_write_leaves_bytes_on_wire
        (w : World wire) (data : list Z) (size : Z) :
  0 <= size <= Zlength data ->
  let k := Z.min size (Z.of_nat (credit (io w))) in
  fst (ATCmdParser_write w data size)
  = (if size <=? Z.of_nat (credit (io w)) then size else -1) /\
  tx (io (snd (ATCmdParser_write w data size)))
  = tx (io w) ++ firstn (Z.to_nat k) data.
Proof.
  intros Hsize k. unfold ATCmdParser_write.
  rewrite write_loop_wire by lia. cbn [fst snd io tx].
  rewrite Z2Nat.id by lia. split.
  - destruct (Nat.leb_spec (Z.to_nat size) (credit (io w)));
      destruct (Z.leb_spec size (Z.of_nat (credit (io w)))); try reflexivity; lia.
  - unfold region. change (Z.to_nat 0) with 0%nat. cbn [skipn].
    rewrite Nat2Z.id. f_equal. f_equal. unfold k. lia.
Qed.

Lemma failed_write_leaves_bytes_on_wire_witness :
  let w := {| session := fresh_session;
              io := {| rx := []; tx := []; credit := 2 |}; log := [] |} in
  0 <= 4 <= Zlength (bytes "AT+Z") /\
  fst (ATCmdParser_write w (bytes "AT+Z") 4) = -1 /\
  tx (io (snd (ATCmdParser_write w (bytes "AT+Z") 4))) = bytes "AT".
Proof.
  intros w.
  assert (H : 0 <= 4 <= Zlength (bytes "AT+Z")) by (vm_compute; split; discriminate).
  split; [exact H|].
  exact (failed_write_leaves_bytes_on_wire w (bytes "AT+Z") 4 H).
Defined.

(** X11: once the polls in front of it have come to an end, a send whose
    command is formatted to a text of less than [AT_BUFFER_SIZE] bytes
    without a NUL puts that text and then the output delimiter, in this
    order and up to the first [put] that fails; it returns [true] exactly
    when all of them went through, and the text stays in the buffer. *)
Theorem vsend_puts_text_then_delimiter
        {port : Type} {ops : serial_ops port} {puts : serial_put port}
        (run_cb : fnptr -> ATParser * port -> ATParser * port)
        (stray : Z -> Z) (vsprintf : list Z -> option (list Z))
        (rounds n : nat) (w w1 : World port) (r : poll) (command text : list Z) :
  poll_all run_cb stray rounds n w = PollDone r w1 ->
  poll_returned r = Some false ->
  Zlength (_buffer (session w1)) = AT_BUFFER_SIZE ->
  vsprintf command = Some text ->
  Forall (fun c => c <> 0) text ->
  Zlength text < AT_BUFFER_SIZE ->
  let out := put_all (text ++ cstr_from (_output_delimiter (session w1))) (io w1) in
  exists buf,
    ATCmdParser_vsend run_cb stray vsprintf rounds n w command
    = (if fst out then Sent else PutFailed,
       {| session := set_buffer (session w1) buf; io := snd out; log := log w1 |}) /\
    cstr buf 0 = text.
Proof.
  intros Hpoll Hr Hlen Hfmt Hnz Hroom out.
  destruct (copy_in_text (_buffer (session w1)) text Hlen Hroom Hnz)
    as (buf & Hc & _ & Hs).
  exists buf. split; [|exact Hs].
  unfold ATCmdParser_vsend. rewrite Hpoll.
  assert (Hbody :
    match vsprintf command with
    | None => (NotFormatted, w1)
    | Some text =>
        match copy_in AT_BUFFER_SIZE (_buffer (session w1)) 0 (text ++ [0]) with
        | OutOfBounds k => (SendOverrun k, w1)
        | Ok buf =>
            let (ok, p1) := put_all (cstr buf 0) (io w1) in
            if ok then
              let (ok', p2) := put_all (cstr_from (_output_delimiter (session w1))) p1 in
              (if ok' then Sent else PutFailed,
               {| session := set_buffer (session w1) buf; io := p2; log := log w1 |})
            else
              (PutFailed,
               {| session := set_buffer (session w1) buf; io := p1; log := log w1 |})
        end
    end
    = (if fst out then Sent else PutFailed,
       {| session := set_buffer (session w1) buf; io := snd out; log := log w1 |})).
  { rewrite Hfmt, Hc, Hs. unfold out. rewrite put_all_app.
    destruct (put_all text (io w1)) as [ok p1]. cbn [fst snd].
    destruct ok; [|reflexivity].
    destruct (put_all (cstr_from (_output_delimiter (session w1))) p1) as [ok' p2].
    reflexivity. }
  destruct r; try discriminate Hr; exact Hbody.
Qed.

(** X12: [vsprintf] is told nothing about the size of [_buffer]: a command
    that is formatted to [AT_BUFFER_SIZE] bytes or more is written behind
    the end of the buffer, before a single byte is sent. *)
Theorem vsend_overruns_on_long_command
        {port : Type} {ops : serial_ops port} {puts : serial_put port}
        (run_cb : fnptr -> ATParser * port -> ATParser * port)
        (stray : Z -> Z) (vsprintf : list Z -> option (list Z))
        (rounds n : nat) (w w1 : World port) (r : poll) (command text : list Z) :
  poll_all run_cb stray rounds n w = PollDone r w1 ->
  poll_returned r = Some false ->
  vsprintf command = Some text ->
  AT_BUFFER_SIZE <= Zlength text ->
  ATCmdParser_vsend run_cb stray vsprintf rounds n w command
  = (SendOverrun AT_BUFFER_SIZE, w1).
Proof.
  intros Hpoll Hr Hfmt Hlong.
  unfold ATCmdParser_vsend. rewrite Hpoll, Hfmt.
  rewrite (copy_in_overrun AT_BUFFER_SIZE (text ++ [0]))
    by (rewrite ?Zlength_app; change (Zlength [0]) with 1; unfold AT_BUFFER_SIZE in *; lia).
  destruct r; try discriminate Hr; reflexivity.
Qed.

Lemma copy_in_overrun_inv (cap : Z) (m src : list Z) (k : Z) :
  0 <= cap -> copy_in cap m 0 src = OutOfBounds k -> k = cap /\ cap < Zlength src.
Proof.
  intros Hcap Hc.
  destruct (Z_lt_le_dec cap (Zlength src)) as [Hlong|Hshort].
  - rewrite copy_in_overrun in Hc by lia. injection Hc as Hk. split; [symmetry; exact Hk | exact Hlong].
  - destruct (copy_in_in_range cap src m 0) as (m' & Hok & _); [lia | lia |].
    rewrite Hok in Hc. discriminate Hc.
Qed.

Section SendInvariant.

Context {port : Type} {ops : serial_ops port} {puts : serial_put port}.
Variable run_cb : fnptr -> ATParser * port -> ATParser * port.
Variable stray : Z -> Z.
Variable vsprintf : list Z -> option (list Z).

Hypothesis run_cb_keeps_buffer :
  forall f a p, Zlength (_buffer a) = AT_BUFFER_SIZE ->
                Zlength (_buffer (fst (run_cb f (a, p)))) = AT_BUFFER_SIZE.

Lemma poll_step_sized (cf : pconfig) :
  poll_wf cf -> poll_sized cf -> poll_sized (poll_step run_cb stray cf).
Proof.
  destruct cf as [w i | r w]; simpl; [|auto].
  intros (Hlen & Hi & Hroom) _. unfold poll_char.
  destruct (get w) as [c w0] eqn:Hget.
  pose proof (get_inv _ _ _ Hget) as [Hses _].
  destruct (c <? 0); simpl; [unfold poll_sized; simpl; rewrite Hses; exact Hlen|].
  rewrite store_in_range by lia. cbn [bind].
  rewrite store_in_range by lia.
  assert (Hl : Zlength (upd (Z.to_nat (i + 1)) 0
                            (upd (Z.to_nat i) (to_char c) (_buffer (session w0))))
               = AT_BUFFER_SIZE).
  { rewrite !Zlength_correct, !upd_length, <- Zlength_correct, Hses. exact Hlen. }
  destruct (find _ _) as [e|]; simpl.
  - unfold poll_sized; simpl. apply invoke_Zlength; [exact run_cb_keeps_buffer | exact Hl].
  - destruct (_ || _); unfold poll_sized; simpl; [|exact Hl].
    destruct (unprocessed_data (session w0)); simpl; exact Hl.
Qed.

Lemma poll_run_sized (n : nat) :
  forall cf : pconfig,
    poll_wf cf -> poll_sized cf ->
    poll_wf (poll_run run_cb stray n cf) /\ poll_sized (poll_run run_cb stray n cf).
Proof.
  induction n as [|n IH]; intros cf Hwf Hs; simpl; [split; assumption|].
  apply IH; [apply poll_step_wf, Hwf | apply poll_step_sized; assumption].
Qed.

Lemma process_oob_sized (n : nat) (w : World port) :
  Zlength (_buffer (session w)) = AT_BUFFER_SIZE ->
  poll_wf (ATCmdParser_process_oob run_cb stray n w) /\
  poll_sized (ATCmdParser_process_oob run_cb stray n w).
Proof.
  intros Hlen. unfold ATCmdParser_process_oob.
  destruct (ops_readable (io w)) as [r p].
  destruct (r =? 0).
  - split; [simpl; discriminate | exact Hlen].
  - apply poll_run_sized; [|exact Hlen].
    simpl. unfold AT_BUFFER_SIZE in *. repeat split; auto; lia.
Qed.

Lemma poll_all_sized (rounds n : nat) :
  forall w : World port,
    Zlength (_buffer (session w)) = AT_BUFFER_SIZE ->
    poll_wf (poll_all run_cb stray rounds n w) /\
    poll_sized (poll_all run_cb stray rounds n w).
Proof.
  induction rounds as [|rounds IH]; intros w Hlen.
  - simpl. split; [|exact Hlen]. unfold AT_BUFFER_SIZE in *. repeat split; auto; lia.
  - cbn [poll_all].
    pose proof (process_oob_sized n w Hlen) as [Hwf Hs].
    destruct (ATCmdParser_process_oob run_cb stray n w) as [w1 i | r w1];
      [split; assumption|].
    destruct r; try (split; assumption).
    apply IH. exact Hs.
Qed.

End SendInvariant.

(** X13: a send leaves the scratch buffer in one case only: with handlers
    that leave the buffer an array of [AT_BUFFER_SIZE] cells, a call that
    ends by a write outside of the buffer is one whose command was
    formatted to [AT_BUFFER_SIZE] bytes or more, and the write is the one
    to [_buffer[AT_BUFFER_SIZE]]; the polls in front of the command never
    write outside. *)
Theorem vsend_overruns_only_on_long_command
        {port : Type} {ops : serial_ops port} {puts : serial_put port}
        (run_cb : fnptr -> ATParser * port -> ATParser * port)
        (stray : Z -> Z) (vsprintf : list Z -> option (list Z))
        (rounds n : nat) (w w' : World port) (command : list Z) (k : Z) :
  (forall f a p, Zlength (_buffer a) = AT_BUFFER_SIZE ->
                 Zlength (_buffer (fst (run_cb f (a, p)))) = AT_BUFFER_SIZE) ->
  Zlength (_buffer (session w)) = AT_BUFFER_SIZE ->
  ATCmdParser_vsend run_cb stray vsprintf rounds n w command = (SendOverrun k, w') ->
  k = AT_BUFFER_SIZE /\
  exists text, vsprintf command = Some text /\ AT_BUFFER_SIZE <= Zlength text.
Proof.
  intros Hkeep Hlen Hsend.
  pose proof (poll_all_sized run_cb stray Hkeep rounds n w Hlen) as [Hwf _].
  unfold ATCmdParser_vsend in Hsend.
  destruct (poll_all run_cb stray rounds n w) as [w1 i | r w1]; [discriminate Hsend|].
  assert (Hbody :
    match vsprintf command with
    | None => (NotFormatted, w1)
    | Some text =>
        match copy_in AT_BUFFER_SIZE (_buffer (session w1)) 0 (text ++ [0]) with
        | OutOfBounds k => (SendOverrun k, w1)
        | Ok buf =>
            let (ok, p1) := put_all (cstr buf 0) (io w1) in
            if ok then
              let (ok', p2) := put_all (cstr_from (_output_delimiter (session w1))) p1 in
              (if ok' then Sent else PutFailed,
               {| session := set_buffer (session w1) buf; io := p2; log := log w1 |})
            else
              (PutFailed,
               {| session := set_buffer (session w1) buf; io := p1; log := log w1 |})
        end
    end = (SendOverrun k, w') ->
    k = AT_BUFFER_SIZE /\
    exists text, vsprintf command = Some text /\ AT_BUFFER_SIZE <= Zlength text).
  { destruct (vsprintf command) as [text|]; [|discriminate].
    destruct (copy_in _ _ _ _) as [buf|k'] eqn:Hc.
    - destruct (put_all (cstr buf 0) (io w1)) as [ok p1].
      destruct ok; [|discriminate].
      destruct (put_all _ p1) as [ok' p2]. destruct ok'; discriminate.
    - intros Heq. inversion Heq; subst.
      apply copy_in_overrun_inv in Hc; [|unfold AT_BUFFER_SIZE; lia].
      destruct Hc as [Hk Hl]. split; [exact Hk|].
      exists text. split; [reflexivity|].
      rewrite Zlength_app in Hl. change (Zlength [0]) with 1 in Hl. lia. }
  destruct r; try (exact (Hbody Hsend)); try discriminate Hsend.
  inversion Hsend; subst. exfalso. apply (Hwf k). reflexivity.
Qed.

Lemma vsend_puts_text_then_delimiter_witness :
  let w := {| session := session_plus_X;
              io := {| rx := bytes "+X"; tx := []; credit := 100 |}; log := [] |} in
  let res := ATCmdParser_vsend (fun _ s => s) (fun _ => 0) vsprintf_plain 2 2 w
                               (bytes "AT+CSQ") in
  fst res = Sent /\
  tx (io (snd res)) = bytes "AT+CSQ" ++ [CR; LF] /\
  rx (io (snd res)) = [] /\
  calls_of 1%nat (log (snd res)) = 1%nat /\
  cstr (_buffer (session (snd res))) 0 = bytes "AT+CSQ".
Proof.
  intros w res.
  destruct (vsend_puts_text_then_delimiter (fun _ s => s) (fun _ => 0) vsprintf_plain
              2 2 w
              (poll_world_of (poll_all (fun _ s => s) (fun _ => 0) 2 2 w))
              Idle (bytes "AT+CSQ") (bytes "AT+CSQ"))
    as (buf & Hsend & Hs).
  - vm_compute; reflexivity.
  - reflexivity.
  - vm_compute; reflexivity.
  - reflexivity.
  - repeat constructor; discriminate.
  - vm_compute; reflexivity.
  - unfold res. rewrite Hsend.
    split; [vm_compute; reflexivity|].
    split; [vm_compute; reflexivity|].
    split; [vm_compute; reflexivity|].
    split; [vm_compute; reflexivity|].
    exact Hs.
Defined.

Lemma vsend_overruns_on_long_command_witness :
  let w := {| session := fresh_session;
              io := {| rx := []; tx := []; credit := 5000 |}; log := [] |} in
  let command := repeat 65 2048 in
  AT_BUFFER_SIZE <= Zlength command /\
  ATCmdParser_vsend (fun _ s => s) (fun _ => 0) vsprintf_plain 1 0 w command
  = (SendOverrun AT_BUFFER_SIZE, w).
Proof.
  intros w command.
  assert (Hlong : AT_BUFFER_SIZE <= Zlength command) by (vm_compute; discriminate).
  split; [exact Hlong|].
  apply (vsend_overruns_on_long_command (fun _ s => s) (fun _ => 0) vsprintf_plain
           1 0 w w Idle command command).
  - reflexivity.
  - reflexivity.
  - vm_compute; reflexivity.
  - exact Hlong.
Defined.

Lemma vsend_overruns_only_on_long_command_witness :
  let w := {| session := fresh_session;
              io := {| rx := []; tx := []; credit := 5000 |}; log := [] |} in
  let command := repeat 65 2048 in
  Zlength (_buffer (session w)) = AT_BUFFER_SIZE /\
  ATCmdParser_vsend (fun _ s => s) (fun _ => 0) vsprintf_plain 1 0 w command
  = (SendOverrun 2048, w) /\
  exists text, vsprintf_plain command = Some text /\ AT_BUFFER_SIZE <= Zlength text.
Proof.
  intros w command.
  assert (Hlen : Zlength (_buffer (session w)) = AT_BUFFER_SIZE) by reflexivity.
  assert (Hsend : ATCmdParser_vsend (fun _ s => s) (fun _ => 0) vsprintf_plain 1 0 w command
                  = (SendOverrun 2048, w)) by (vm_compute; reflexivity).
  split; [exact Hlen|]. split; [exact Hsend|].
  exact (proj2 (vsend_overruns_only_on_long_command
                  (fun _ s => s) (fun _ => 0) vsprintf_plain 1 0 w w command 2048
                  (fun _ a _ H => H) Hlen Hsend)).
Defined.

(** ** A receive of one line *)

Lemma Forall_rd (P : Z -> Prop) (l : list Z) (k : Z) :
  Forall P l -> 0 <= k < Zlength l -> P (rd l k).
Proof.
  intros Hall Hk. rewrite rd_nth by lia.
  apply Forall_nth; [exact Hall|].
  rewrite Zlength_correct in Hk. lia.
Qed.

Lemma region_whole (l : list Z) : region l 0 (Zlength l) = l.
Proof.
  unfold region. change (Z.to_nat 0) with 0%nat. cbn [skipn]. apply firstn_Zlength.
Qed.

Lemma rd_outside_store (m m' : list Z) (k : Z) :
  0 <= k -> region m' k 1 = region m k 1 -> rd m' k = rd m k.
Proof.
  intros Hk Hreg.
  rewrite (rd_region m' k 1), (rd_region m k 1) by lia. rewrite Hreg. reflexivity.
Qed.

(** The staging of a pattern without a line feed: the whole pattern is one
    line, no line feed is waited for, and the template with its [%n] lies
    at the head of the buffer, [room] cells or more free behind it. *)
Lemma stage_line_single (buf s : list Z) (room : Z) :
  Zlength buf = AT_BUFFER_SIZE ->
  Forall (fun c => c <> 0 /\ c <> LF) s ->
  0 <= room -> 2 * Zlength s + 3 + room <= AT_BUFFER_SIZE ->
  let template := rewrite_spec s ++ [ch_percent; ch_n] in
  exists buf1,
    stage_line buf s = Ok (buf1, Zlength s, Zlength template + 1, false) /\
    Zlength buf1 = AT_BUFFER_SIZE /\
    Zlength template + 1 + room <= AT_BUFFER_SIZE /\
    region buf1 0 (Zlength template) = template /\
    rd buf1 (Zlength template) = 0 /\
    cstr buf1 0 = template.
Proof.
  intros Hlen Hs Hroom Hfit template.
  pose proof (Zlength_nonneg' s) as Hs0.
  destruct (stage_loop_total (S (List.length s)) (3 + room) s buf 0 0)
    as (buf' & i' & offset' & wlw & Hloop & Hi' & Ho' & Hfit'); try lia.
  destruct (stage_loop_spec (S (List.length s)) s buf 0 0 buf' i' offset' wlw)
    as (L' & Hi0 & Ho0 & _ & _ & Hreg & Htrue & Hfalse & _); auto; try lia.
  { rewrite Zlength_correct. lia. }
  assert (Hw : wlw = false).
  { destruct wlw; [|reflexivity].
    destruct (Htrue eq_refl) as [(Hin & Hlf & _) _].
    destruct (Forall_rd _ s (i' - 1) Hs Hin) as [_ Hne]. contradiction. }
  subst wlw.
  assert (Ei : i' = Zlength s).
  { destruct (Z.eq_dec i' (Zlength s)) as [E|E]; [exact E|].
    destruct (Forall_rd _ s i' Hs ltac:(lia)) as [Hnz _].
    exfalso. apply Hnz, Hfalse. reflexivity. }
  subst i'.
  rewrite (region_empty buf 0 0) in Hreg by lia.
  rewrite Z.sub_0_r, region_whole in Hreg. simpl in Hreg.
  assert (Lr : Zlength (rewrite_spec s) = offset').
  { rewrite <- Hreg. apply region_Zlength; lia. }
  assert (Lt : Zlength template = offset' + 2).
  { unfold template. rewrite Zlength_app, Lr. reflexivity. }
  destruct (store AT_BUFFER_SIZE buf' offset' ch_percent) as [b2|k] eqn:S2.
  2: { rewrite store_in_range in S2 by lia. discriminate. }
  destruct (store AT_BUFFER_SIZE b2 (offset' + 1) ch_n) as [b3|k] eqn:S3.
  2: { rewrite store_in_range in S3 by lia. discriminate. }
  destruct (store AT_BUFFER_SIZE b3 (offset' + 2) 0) as [b4|k] eqn:S4.
  2: { rewrite store_in_range in S4 by lia. discriminate. }
  pose proof (store_Zlength _ _ _ _ _ S2) as L2.
  pose proof (store_Zlength _ _ _ _ _ S3) as L3.
  pose proof (store_Zlength _ _ _ _ _ S4) as L4.
  assert (Hreg4 : region b4 0 (Zlength template) = template).
  { rewrite Lt.
    rewrite (region_store_outside _ _ _ _ _ _ _ S4) by lia.
    replace (offset' + 2) with (offset' + 1 + 1) by lia.
    rewrite (region_store_snoc _ b2 b3 ch_n 0 (offset' + 1)) by first [exact S3 | lia].
    rewrite (region_store_snoc _ buf' b2 ch_percent 0 offset') by first [exact S2 | lia].
    rewrite Hreg. unfold template. rewrite <- app_assoc. reflexivity. }
  assert (Hnul : rd b4 (Zlength template) = 0).
  { rewrite Lt. apply (rd_store_same _ _ _ _ _ S4). lia. }
  exists b4. split; [|split; [lia | split; [lia | split; [exact Hreg4 | split; [exact Hnul|]]]]].
  - unfold stage_line. rewrite Hloop. cbn [bind]. rewrite S2. cbn [bind].
    rewrite S3. cbn [bind]. rewrite S4. cbn [bind]. rewrite Lt.
    replace (offset' + 2 + 1) with (offset' + 3) by lia. reflexivity.
  - transitivity (region b4 0 (Zlength template)); [|exact Hreg4].
    apply cstr_region; try lia.
    + rewrite Hreg4. unfold template. apply Forall_app. split.
      * apply rewrite_spec_nonzero. eapply Forall_impl; [|exact Hs]. intros c [H _]; exact H.
      * repeat constructor; discriminate.
    + exact Hnul.
Qed.

Lemma skipn_nth_cons (l : list Z) :
  forall k : nat, (k < List.length l)%nat -> skipn k l = nth k l 0 :: skipn (S k) l.
Proof.
  induction l as [|x tl IH]; intros k Hk; simpl in Hk; [lia|].
  destruct k as [|k]; [reflexivity|].
  cbn [skipn nth]. rewrite IH by lia. reflexivity.
Qed.

Lemma firstn_snoc_nth (l : list Z) :
  forall k : nat, (k < List.length l)%nat -> firstn (S k) l = firstn k l ++ [nth k l 0].
Proof.
  induction l as [|x tl IH]; intros k Hk; simpl in Hk; [lia|].
  destruct k as [|k]; [reflexivity|].
  cbn [firstn nth app]. rewrite <- IH by lia. reflexivity.
Qed.

Lemma Forall_firstn' (P : Z -> Prop) (l : list Z) (k : nat) :
  Forall P l -> Forall P (firstn k l).
Proof.
  intros Hall. rewrite <- (firstn_skipn k l) in Hall.
  apply Forall_app in Hall. exact (proj1 Hall).
Qed.

Lemma rewrite_spec_Zlength (l : list Z) :
  Zlength l <= Zlength (rewrite_spec l) <= 2 * Zlength l.
Proof.
  induction l as [|c tl IH]; [cbn [rewrite_spec]; rewrite Zlength_nil; lia|].
  cbn [rewrite_spec]. destruct (_ && _); rewrite !Zlength_cons'; lia.
Qed.

Section SingleLine.

Variable sscanf : list Z -> list Z -> option Z.
Variable run_cb : fnptr -> ATParser * list Z -> ATParser * list Z.
Variable a : ATParser.
Variables s m rest : list Z.

Hypothesis oobs_wf : Forall oob_wf (_oobs a).
Hypothesis no_prefix :
  forall e k, In e (_oobs a) -> (0 < k)%nat -> prefix e <> firstn k m.
Hypothesis s_plain : Forall (fun c => c <> 0 /\ c <> LF) s.
Hypothesis m_plain : Forall (fun c => 0 < c < 256 /\ c <> LF) m.
Hypothesis fits : 2 * Zlength s + Zlength m + 3 < AT_BUFFER_SIZE.
Hypothesis too_short :
  forall k, (0 < k < List.length m)%nat ->
            sscanf (firstn k m) (rewrite_spec s ++ [ch_percent; ch_n]) <> Some (Z.of_nat k).
Hypothesis whole :
  sscanf m (rewrite_spec s ++ [ch_percent; ch_n]) = Some (Zlength m).

Lemma reading_round (k : nat) (w : World (list Z)) (fl : flocals) (ll : llocals) :
  reading a s m rest k (AtChar w fl ll) ->
  (k < List.length m)%nat ->
  ((S k < List.length m)%nat ->
   exists w1 fl1 ll1,
     step sscanf run_cb (AtChar w fl ll) = AtChar w1 fl1 ll1 /\
     reading a s m rest (S k) (AtChar w1 fl1 ll1) /\
     log w1 = log w ++ [EvGet (nth k m 0)]) /\
  (S k = List.length m ->
   exists w1 fl1,
     step sscanf run_cb (AtChar w fl ll) = AtLine w1 fl1 /\
     v_response fl1 = [] /\
     io w1 = rest /\
     _oobs (session w1) = _oobs a /\
     log w1 = log w ++ [EvGet (nth k m 0); EvExtract m s] /\
     cstr (_buffer (session w1)) 0 = s).
Proof.
  intros Hinv Hk.
  destruct Hinv as (Hoobs & Hio & Hlen & Htpl & Hnul & Hi & Hoff & Hwlw & Hj & Hd & Hdp
                    & Hcand & Hresp).
  set (template := rewrite_spec s ++ [ch_percent; ch_n]) in *.
  set (c := nth k m 0).
  assert (Hc : 0 < c < 256 /\ c <> LF).
  { unfold c. apply Forall_nth; [exact m_plain | exact Hk]. }
  assert (Htc : to_char c = c) by (unfold to_char; apply Z.mod_small; lia).
  pose proof (rewrite_spec_Zlength s) as Hrs.
  pose proof (Zlength_nonneg' (rewrite_spec s)) as Hrs0.
  pose proof (Zlength_nonneg' s) as Hs0.
  assert (Lt : Zlength template = Zlength (rewrite_spec s) + 2).
  { unfold template. rewrite Zlength_app. reflexivity. }
  assert (Lm : Zlength m = Z.of_nat (List.length m)) by apply Zlength_correct.
  destruct (get w) as [c' w0] eqn:Hget.
  pose proof (get_inv _ _ _ Hget) as [Hses Hlog].
  assert (Hgot : c' = c /\ io w0 = skipn (S k) m ++ rest).
  { unfold get in Hget. rewrite Hio, (skipn_nth_cons m k Hk) in Hget.
    simpl in Hget. inversion Hget; subst. split; reflexivity. }
  destruct Hgot as [-> Hio0].
  destruct (append_byte_plain (_buffer (session w0)) (v_in_prev fl) ll c)
    as (buf1 & Happ & L1 & Hreg1 & Hnul1 & Hkeep);
    try lia; try (rewrite Hses; exact Hlen);
    try (intros [H _]; rewrite Htc in H; tauto).
  rewrite Hses in Hreg1, Hkeep.
  assert (Hnew : region buf1 (v_offset ll) (v_j ll + 1) = firstn (S k) m).
  { rewrite Hreg1, Hcand, Htc, (firstn_snoc_nth m k Hk). reflexivity. }
  assert (Hfind : find (oob_hit buf1 (v_offset ll) (v_j ll + 1)) (_oobs (session w0)) = None).
  { destruct (find _ _) as [e|] eqn:Hf; [|reflexivity]. exfalso.
    apply find_some in Hf. destruct Hf as [Hin Hhit].
    apply oob_hit_inv in Hhit. destruct Hhit as [Hje Hreg].
    rewrite Hses, Hoobs in Hin.
    pose proof (proj1 (Forall_forall _ _) oobs_wf e Hin) as Hewf. unfold oob_wf in Hewf.
    rewrite Hewf, firstn_Zlength, Hnew in Hreg.
    apply (no_prefix e (S k) Hin); [lia | symmetry; exact Hreg]. }
  assert (Hcs0 : cstr buf1 0 = template).
  { transitivity (region buf1 0 (Zlength template)).
    - apply cstr_region; try lia.
      + rewrite Hkeep by lia. rewrite Htpl. unfold template. apply Forall_app. split.
        * apply rewrite_spec_nonzero. eapply Forall_impl; [|exact s_plain].
          intros x [H _]; exact H.
        * repeat constructor; discriminate.
      + cbn [Z.add]. rewrite (rd_outside_store (_buffer (session w)) buf1) by
          first [lia | apply Hkeep; lia]. exact Hnul.
    - rewrite Hkeep by lia. exact Htpl. }
  assert (Hnzm : Forall (fun x => x <> 0) (firstn (S k) m)).
  { apply Forall_firstn'. eapply Forall_impl; [|exact m_plain]. intros x [H _]; lia. }
  assert (Hcs1 : cstr buf1 (v_offset ll) = firstn (S k) m).
  { rewrite <- Hnew. apply cstr_region; try lia; try exact Hnul1.
    rewrite Hnew. exact Hnzm. }
  assert (Hstep :
    step sscanf run_cb (AtChar w fl ll)
    = (let ll1 := {| v_i := v_i ll; v_offset := v_offset ll;
                     v_whole_line_wanted := v_whole_line_wanted ll;
                     v_j := v_j ll + 1; v_dummy := v_dummy ll;
                     v_dummy_pos := v_dummy_pos ll |} in
       let fl1 := {| v_response := v_response fl; v_in_prev := to_char c;
                     v_aborted := v_aborted fl |} in
       let w1 := with_buffer w0 buf1 in
       let count := match sscanf (firstn (S k) m) template with
                    | Some n => n
                    | None => -1
                    end in
       if count =? v_j ll + 1 then
         match accept_line w1 fl1 ll1 with
         | Ok (w3, fl3) => AtLine w3 fl3
         | OutOfBounds k => Done (Overrun k) w1
         end
       else AtChar w1 fl1 (reset_if_boundary c ll1))).
  { simpl. unfold recv_char. rewrite Hget.
    destruct (c <? 0) eqn:E; [lia|].
    rewrite Happ. simpl. rewrite Hfind.
    unfold verification_count. simpl. rewrite Hwlw. simpl.
    rewrite Hcs0, Hcs1. reflexivity. }
  rewrite Hstep. clear Hstep. cbv zeta.
  split.
  - intros Hmore.
    assert (Hne : (match sscanf (firstn (S k) m) template with
                   | Some n => n
                   | None => -1
                   end =? v_j ll + 1) = false).
    { destruct (sscanf (firstn (S k) m) template) as [n|] eqn:Hsc; [|lia].
      apply Z.eqb_neq. intros ->.
      apply (too_short (S k)); [lia|].
      fold template. rewrite Hsc, Hj. f_equal. lia. }
    rewrite Hne.
    eexists; eexists; eexists. split; [reflexivity|]. split.
    + unfold reset_if_boundary. cbn [v_j v_offset].
      replace ((to_char c =? LF) || (v_j ll + 1 + 1 >=? AT_BUFFER_SIZE - v_offset ll))
        with false by lia.
      unfold reading. cbn [session io log with_buffer set_buffer _oobs _buffer
                           v_i v_offset v_whole_line_wanted v_j v_dummy v_dummy_pos v_response].
      fold template.
      repeat split; try assumption; try lia;
        try (rewrite Hses; exact Hoobs);
        try (rewrite Hkeep by lia; exact Htpl);
        try (rewrite (rd_outside_store (_buffer (session w)) buf1) by
                first [lia | apply Hkeep; lia]; exact Hnul);
        try (replace (Z.of_nat (S k)) with (v_j ll + 1) by lia; exact Hnew).
    + simpl. exact Hlog.
  - intros Hlast.
    assert (Hall : firstn (S k) m = m) by (rewrite Hlast; apply firstn_all).
    rewrite Hall, whole.
    replace (Zlength m =? v_j ll + 1) with true by lia.
    assert (Hfs : firstn (Z.to_nat (v_i ll)) (v_response fl) = s).
    { rewrite Hi, Hresp. apply firstn_Zlength. }
    destruct (accept_line_plain (with_buffer w0 buf1)
                {| v_response := v_response fl; v_in_prev := to_char c;
                   v_aborted := v_aborted fl |}
                {| v_i := v_i ll; v_offset := v_offset ll;
                   v_whole_line_wanted := v_whole_line_wanted ll;
                   v_j := v_j ll + 1; v_dummy := v_dummy ll;
                   v_dummy_pos := v_dummy_pos ll |})
      as (buf3 & Hacc & L3 & Hfmt); cbn [session with_buffer set_buffer _buffer
                                          v_i v_offset v_j v_dummy v_response];
      try assumption; try lia.
    + rewrite Hfs. lia.
    + rewrite Hfs. eapply Forall_impl; [|exact s_plain]. intros x [H _]; exact H.
    + unfold candidate. cbn [v_offset v_j]. rewrite Hnew. exact Hnzm.
    + rewrite Hacc.
      eexists; eexists. split; [reflexivity|].
      cbn [v_response session io log with_buffer set_buffer _oobs _buffer v_i].
      split; [rewrite Hi, Hresp; apply skipn_all2; rewrite Zlength_correct; lia|].
      split; [rewrite Hio0, Hlast, skipn_all; reflexivity|].
      split; [rewrite Hses; exact Hoobs|].
      split.
      * rewrite Hlog, <- app_assoc. unfold candidate. cbn [v_offset v_j app].
        rewrite Hnew, Hall, Hfs. reflexivity.
      * rewrite Hfmt. exact Hfs.
Qed.

Lemma reading_run (n : nat) :
  forall (k : nat) (w : World (list Z)) (fl : flocals) (ll : llocals),
    reading a s m rest k (AtChar w fl ll) ->
    (k + S n = List.length m)%nat ->
    exists w',
      run sscanf run_cb (S (S n)) (AtChar w fl ll) = Done Matched w' /\
      io w' = rest /\
      _oobs (session w') = _oobs a /\
      log w' = log w ++ map EvGet (skipn k m) ++ [EvExtract m s] /\
      cstr (_buffer (session w')) 0 = s.
Proof.
  induction n as [|n IH]; intros k w fl ll Hinv Hk.
  - destruct (reading_round k w fl ll Hinv ltac:(lia)) as [_ Hlast].
    destruct (Hlast ltac:(lia)) as (w1 & fl1 & Hstep & Hresp & Hio & Hoobs & Hlog & Hfmt).
    exists w1. split; [|split; [exact Hio | split; [exact Hoobs | split; [|exact Hfmt]]]].
    + cbn [run]. rewrite Hstep. cbn [step]. unfold next_line. rewrite Hresp. reflexivity.
    + rewrite Hlog, (skipn_nth_cons m k) by lia.
      rewrite skipn_all2 by lia. reflexivity.
  - destruct (reading_round k w fl ll Hinv ltac:(lia)) as [Hmore _].
    destruct (Hmore ltac:(lia)) as (w1 & fl1 & ll1 & Hstep & Hinv1 & Hlog).
    destruct (IH (S k) w1 fl1 ll1 Hinv1 ltac:(lia))
      as (w' & Hrun & Hio & Hoobs & Hlog' & Hfmt).
    exists w'. split; [|split; [exact Hio | split; [exact Hoobs | split; [|exact Hfmt]]]].
    + change (run sscanf run_cb (S (S (S n))) (AtChar w fl ll))
        with (run sscanf run_cb (S (S n)) (step sscanf run_cb (AtChar w fl ll))).
      rewrite Hstep. exact Hrun.
    + rewrite Hlog', Hlog, (skipn_nth_cons m k) by lia.
      rewrite <- app_assoc. reflexivity.
Qed.

End SingleLine.

(** X14: a receive of a pattern of one line, without a line feed, matches
    the shortest piece of the input that the verification template of the
    pattern consumes whole: if [sscanf] with that template stores the full
    count for the input [m] and for none of its shorter pieces, no
    registered prefix is a piece of [m], and pattern and input fit the
    buffer, the call returns [true] after reading [m] and nothing more,
    and the one extraction it runs is that of [m] with the pattern itself
    as its format. *)
Theorem single_line_receive_matches
        (sscanf : list Z -> list Z -> option Z)
        (run_cb : fnptr -> ATParser * list Z -> ATParser * list Z)
        (a : ATParser) (s m rest : list Z) (l0 : list event) :
  let template := rewrite_spec s ++ [ch_percent; ch_n] in
  Zlength (_buffer a) = AT_BUFFER_SIZE ->
  Forall oob_wf (_oobs a) ->
  (forall e k, In e (_oobs a) -> (0 < k)%nat -> prefix e <> firstn k m) ->
  s <> [] -> Forall (fun c => c <> 0 /\ c <> LF) s ->
  m <> [] -> Forall (fun c => 0 < c < 256 /\ c <> LF) m ->
  2 * Zlength s + Zlength m + 3 < AT_BUFFER_SIZE ->
  (forall k, (0 < k < List.length m)%nat ->
             sscanf (firstn k m) template <> Some (Z.of_nat k)) ->
  sscanf m template = Some (Zlength m) ->
  exists w',
    ATCmdParser_vrecv sscanf run_cb (3 + List.length m)
                      {| session := a; io := m ++ rest; log := l0 |} s
    = Done Matched w' /\
    io w' = rest /\
    _oobs (session w') = _oobs a /\
    log w' = l0 ++ EvStage template :: map EvGet m ++ [EvExtract m s] /\
    cstr (_buffer (session w')) 0 = s.
Proof.
  intros template Hlen Hwf Hno Hs Hsp Hm Hmp Hfit Hshort Hwhole.
  pose proof (Zlength_nonneg' s) as Hs0.
  pose proof (Zlength_nonneg' m) as Hm0.
  destruct (stage_line_single (_buffer a) s 0 Hlen Hsp ltac:(lia) ltac:(lia))
    as (buf1 & Hstage & L1 & _ & Htpl & Hnul & Hcs).
  fold template in Hstage, Htpl, Hnul, Hcs.
  assert (Hs1 : rd s 0 <> 0).
  { destruct s as [|x tl]; [congruence|].
    apply (Forall_rd _ (x :: tl) 0 Hsp). rewrite Zlength_cons'. pose proof (Zlength_nonneg' tl). lia. }
  destruct m as [|c0 mt] eqn:Em; [congruence|]. rewrite <- Em in *.
  assert (Hl : List.length m = S (List.length mt)) by (rewrite Em; reflexivity).
  destruct (reading_run sscanf run_cb a s m rest Hwf Hno Hsp Hmp Hfit Hshort Hwhole
              (List.length mt) 0%nat
              {| session := set_buffer a buf1; io := m ++ rest;
                 log := l0 ++ [EvStage template] |}
              {| v_response := s; v_in_prev := 0; v_aborted := false |}
              {| v_i := Zlength s; v_offset := Zlength template + 1;
                 v_whole_line_wanted := false; v_j := 0; v_dummy := 0;
                 v_dummy_pos := repeat 0 20 |})
    as (w' & Hrun & Hio & Hoobs & Hlog & Hfmt).
  - unfold reading. cbn [session io log set_buffer _oobs _buffer
                         v_i v_offset v_whole_line_wanted v_j v_dummy v_dummy_pos
                         v_response skipn].
    fold template.
    repeat split; try assumption; try reflexivity; try lia.
  - lia.
  - exists w'. split; [|split; [exact Hio | split; [exact Hoobs | split; [|exact Hfmt]]]].
    + unfold ATCmdParser_vrecv. rewrite Hl.
      change (3 + S (List.length mt))%nat with (S (S (S (S (List.length mt))))).
      cbn [run]. cbn [step]. unfold next_line. cbn [v_response session].
      replace (rd s 0 =? 0) with false by lia.
      rewrite Hstage. unfold emit, with_buffer. cbn [session io log].
      rewrite Hcs. exact Hrun.
    + rewrite Hlog. cbn [log skipn]. rewrite <- app_assoc. reflexivity.
Qed.

Lemma single_line_receive_matches_witness :
  let template := rewrite_spec (bytes "OK") ++ [ch_percent; ch_n] in
  (forall k, (0 < k < List.length (bytes "OK"))%nat ->
             sscanf_plain (firstn k (bytes "OK")) template <> Some (Z.of_nat k)) /\
  sscanf_plain (bytes "OK") template = Some (Zlength (bytes "OK")) /\
  exists w',
    ATCmdParser_vrecv sscanf_plain quiet_cb 5
                      {| session := session_plus_X; io := bytes "OK" ++ [CR; LF]; log := [] |}
                      (bytes "OK")
    = Done Matched w' /\
    io w' = [CR; LF] /\
    log w' = [EvStage template; EvGet 79; EvGet 75; EvExtract (bytes "OK") (bytes "OK")].
Proof.
  intros template.
  assert (Hshort : forall k, (0 < k < List.length (bytes "OK"))%nat ->
             sscanf_plain (firstn k (bytes "OK")) template <> Some (Z.of_nat k)).
  { intros k Hk. simpl in Hk. assert (k = 1%nat) by lia. subst k.
    vm_compute. discriminate. }
  assert (Hwhole : sscanf_plain (bytes "OK") template = Some (Zlength (bytes "OK")))
    by (vm_compute; reflexivity).
  split; [exact Hshort|]. split; [exact Hwhole|].
  destruct (single_line_receive_matches sscanf_plain quiet_cb session_plus_X
              (bytes "OK") (bytes "OK") [CR; LF] [])
    as (w' & Hrun & Hio & _ & Hlog & _).
  - reflexivity.
  - repeat constructor.
  - intros e k [<-|[]] Hk. destruct k as [|[|[|k]]]; simpl; try lia; discriminate.
  - discriminate.
  - repeat constructor; discriminate.
  - discriminate.
  - repeat constructor; try lia; discriminate.
  - vm_compute; reflexivity.
  - exact Hshort.
  - exact Hwhole.
  - exists w'. split; [exact Hrun|]. split; [exact Hio | exact Hlog].
Defined.

(** ** The filler in the extraction *)

(** The removal of one filler at [j0], with the line feed behind it: the
    line feed is copied over the filler and stays where it was, in front
    of the sentinel, which is not moved. *)
Lemma strip_one_filler (buf1 dp : list Z) (offset j0 : Z) :
  Zlength buf1 = AT_BUFFER_SIZE -> List.length dp = 20%nat ->
  0 <= offset -> 0 <= j0 -> offset + j0 + 2 < AT_BUFFER_SIZE ->
  exists buf2 dp2,
    strip_dummies 1 0 buf1 (upd 0 j0 dp) offset (j0 + 1 + 1) = Ok (buf2, dp2, j0 + 1) /\
    Zlength buf2 = AT_BUFFER_SIZE /\
    region buf2 offset (j0 + 1 + 1)
    = region buf1 offset j0 ++ [rd buf1 (offset + j0 + 1); rd buf1 (offset + j0 + 1)] /\
    rd buf2 (offset + (j0 + 1 + 1)) = rd buf1 (offset + (j0 + 1 + 1)).
Proof.
  intros Hlen Hdp Ho Hj Hroom.
  assert (Ldp : Zlength (upd 0 j0 dp) = 20).
  { rewrite Zlength_correct, upd_length, Hdp. reflexivity. }
  assert (Hrd0 : rd (upd 0 j0 dp) 0 = j0).
  { apply (rd_upd_same dp 0 j0). rewrite Zlength_correct, Hdp. lia. }
  cbn [strip_dummies].
  rewrite (store_in_range 20) by lia. cbn [bind].
  rewrite Hrd0, Z.sub_0_r.
  change (Z.to_nat 0) with 0%nat.
  assert (Hrd1 : rd (upd 0 j0 (upd 0 j0 dp)) 0 = j0).
  { apply (rd_upd_same (upd 0 j0 dp) 0 j0). lia. }
  rewrite Hrd1.
  unfold memcpy. replace (Z.to_nat (j0 + 1 + 1 - j0 - 1)) with 1%nat by lia.
  cbn [memcpy_up].
  destruct (store AT_BUFFER_SIZE buf1 (offset + j0) (rd buf1 (offset + j0 + 1)))
    as [b2|k] eqn:Hs.
  2: { rewrite store_in_range in Hs by lia. discriminate. }
  cbn [bind].
  pose proof (store_Zlength _ _ _ _ _ Hs) as L2.
  exists b2, (upd 0 j0 (upd 0 j0 dp)).
  split; [replace (j0 + 1 + 1 - 1) with (j0 + 1) by lia; reflexivity|]. split; [lia|]. split.
  - rewrite (region_snoc b2 offset (j0 + 1)) by lia.
    rewrite (region_store_snoc _ _ _ _ _ _ Hs) by lia.
    rewrite (rd_store_other _ _ _ _ _ (offset + (j0 + 1)) Hs) by lia.
    rewrite <- app_assoc. replace (offset + (j0 + 1)) with (offset + j0 + 1) by lia.
    reflexivity.
  - apply (rd_store_other _ _ _ _ _ _ Hs). lia.
Qed.

Section FillerFacts.

Context {port : Type} {ops : serial_ops port}.
Variable sscanf : list Z -> list Z -> option Z.
Variable run_cb : fnptr -> ATParser * port -> ATParser * port.

(** The body of [if (count == j)] with the one filler of the round in the
    candidate. *)
Lemma accept_line_filler (w1 : World port) (fl1 : flocals) (ll1 : llocals)
      (dp : list Z) (j0 : Z) (old : list Z) :
  Zlength (_buffer (session w1)) = AT_BUFFER_SIZE ->
  v_dummy ll1 = 1 -> v_dummy_pos ll1 = upd 0 j0 dp -> List.length dp = 20%nat ->
  v_j ll1 = j0 + 1 + 1 ->
  0 <= v_i ll1 < v_offset ll1 -> 0 <= j0 ->
  v_offset ll1 + j0 + 2 < AT_BUFFER_SIZE ->
  Zlength (firstn (Z.to_nat (v_i ll1)) (v_response fl1)) = v_i ll1 ->
  Forall (fun c => c <> 0) (firstn (Z.to_nat (v_i ll1)) (v_response fl1)) ->
  region (_buffer (session w1)) (v_offset ll1) (j0 + 1 + 1) = old ++ [ch_x; LF] ->
  Forall (fun c => c <> 0) old ->
  rd (_buffer (session w1)) (v_offset ll1 + (j0 + 1 + 1)) = 0 ->
  exists buf3,
    accept_line w1 fl1 ll1
    = Ok ({| session := set_buffer (session w1) buf3; io := io w1;
             log := log w1 ++ [EvExtract (old ++ [LF; LF])
                                         (firstn (Z.to_nat (v_i ll1)) (v_response fl1))] |},
          {| v_response := skipn (Z.to_nat (v_i ll1)) (v_response fl1);
             v_in_prev := v_in_prev fl1; v_aborted := v_aborted fl1 |}) /\
    cstr buf3 0 = firstn (Z.to_nat (v_i ll1)) (v_response fl1).
Proof.
  intros Hlen Hd Hdp Ldp Hj Hi Hj0 Hroom Hline Hnzl Hreg Hnzo Hnul.
  assert (Lold : Zlength old = j0).
  { assert (H : Zlength (old ++ [ch_x; LF]) = j0 + 1 + 1).
    { rewrite <- Hreg. apply region_Zlength; lia. }
    rewrite Zlength_app in H. change (Zlength [ch_x; LF]) with 2 in H. lia. }
  assert (Hold : region (_buffer (session w1)) (v_offset ll1) j0 = old).
  { assert (H : firstn (Z.to_nat j0) (region (_buffer (session w1)) (v_offset ll1) (j0 + 1 + 1))
                = firstn (Z.to_nat j0) (old ++ [ch_x; LF])) by (rewrite Hreg; reflexivity).
    unfold region in H. rewrite firstn_firstn in H.
    replace (Nat.min (Z.to_nat j0) (Z.to_nat (j0 + 1 + 1))) with (Z.to_nat j0) in H by lia.
    rewrite firstn_app in H.
    replace (Z.to_nat j0 - List.length old)%nat with 0%nat in H
      by (rewrite Zlength_correct in Lold; lia).
    rewrite <- Lold, firstn_Zlength in H. cbn [firstn] in H. rewrite app_nil_r in H.
    rewrite <- Lold. exact H. }
  assert (Hlf : rd (_buffer (session w1)) (v_offset ll1 + j0 + 1) = LF).
  { pose proof (region_snoc (_buffer (session w1)) (v_offset ll1) (j0 + 1)
                            ltac:(lia) ltac:(lia) ltac:(lia)) as H.
    rewrite Hreg in H.
    rewrite (region_snoc (_buffer (session w1)) (v_offset ll1) j0) in H by lia.
    rewrite Hold in H. rewrite <- app_assoc in H. apply app_inv_head in H.
    cbn [app] in H. injection H as _ Hl.
    replace (v_offset ll1 + j0 + 1) with (v_offset ll1 + (j0 + 1)) by lia.
    symmetry. exact Hl. }
  destruct (strip_one_filler (_buffer (session w1)) dp (v_offset ll1) j0)
    as (buf2 & dp2 & Hstrip & L2 & Hreg2 & Hnul2); try lia; try assumption.
  rewrite Hlf, Hold in Hreg2. rewrite Hnul in Hnul2.
  destruct (restage_line buf2 (firstn (Z.to_nat (v_i ll1)) (v_response fl1))
              (v_i ll1) (v_offset ll1) (j0 + 1 + 1))
    as (b3 & buf3 & Hc & Hs & L3 & Hfmt & Hreg3 & Hrd3); auto; try lia.
  exists buf3. split; [|exact Hfmt].
  unfold accept_line. rewrite Hd, Hdp, Hj.
  change (Z.to_nat 1) with 1%nat. rewrite Hstrip. cbn [bind].
  rewrite Hc. cbn [bind]. rewrite Hs. cbn [bind].
  assert (Hin : cstr buf3 (v_offset ll1) = old ++ [LF; LF]).
  { rewrite <- Hreg2, <- Hreg3.
    apply cstr_region; try lia; try (rewrite Hrd3; exact Hnul2).
    rewrite Hreg3, Hreg2. apply Forall_app. split; [exact Hnzo|].
    repeat constructor; discriminate. }
  rewrite Hin, Hfmt. reflexivity.
Qed.

End FillerFacts.

(** X15: when the line is accepted in a round that has injected a filler (a
    line feed right behind a colon), the verification has counted the
    candidate with the filler, [old x LF], but the extraction is run on
    [old LF LF]: the removal copies the line feed over the filler and
    leaves the sentinel where it was, so that the last byte stays twice. *)
Theorem filler_leaves_line_feed_doubled
        {port : Type} {ops : serial_ops port}
        (sscanf : list Z -> list Z -> option Z)
        (run_cb : fnptr -> ATParser * port -> ATParser * port)
        (w w0 : World port) (fl : flocals) (ll ll1 : llocals) (c : Z) (buf1 : list Z) :
  let line := firstn (Z.to_nat (v_i ll)) (v_response fl) in
  let old := candidate (_buffer (session w)) ll in
  line_wf (_buffer (session w)) ll ->
  v_offset ll + v_j ll + 2 < AT_BUFFER_SIZE ->
  get w = (c, w0) ->
  0 <= c ->
  to_char c = LF -> v_in_prev fl = ch_colon ->
  append_byte (_buffer (session w0)) (v_in_prev fl) ll c = Ok (buf1, ll1) ->
  find (oob_hit buf1 (v_offset ll1) (v_j ll1)) (_oobs (session w0)) = None ->
  verification_count sscanf (v_whole_line_wanted ll1) c buf1 (v_offset ll1) = v_j ll1 ->
  v_i ll <= Zlength (v_response fl) ->
  Forall (fun c => c <> 0) line ->
  Forall (fun c => c <> 0) old ->
  candidate buf1 ll1 = old ++ [ch_x; LF] /\
  exists buf3,
    step sscanf run_cb (AtChar w fl ll)
    = AtLine {| session := set_buffer (session w0) buf3; io := io w0;
                log := log w ++ [EvGet c; EvExtract (old ++ [LF; LF]) line] |}
             {| v_response := skipn (Z.to_nat (v_i ll)) (v_response fl);
                v_in_prev := to_char c; v_aborted := v_aborted fl |}.
Proof.
  intros line old Hwf Hroom Hget Hc Hlf Hcol Happ Hfind Hcount Hile Hnzl Hnzo.
  pose proof (get_inv _ _ _ Hget) as [Hses Hlog].
  destruct Hwf as (Hlen & Hi & Hj & Hd & Hdp).
  destruct (append_byte_filler (_buffer (session w0)) (v_in_prev fl) ll c)
    as (buf1' & Happ' & L1 & Hcand & Hnul); auto; try lia.
  { rewrite Hses; exact Hlen. }
  rewrite Happ in Happ'.
  assert (Hb : buf1' = buf1) by congruence. subst buf1'.
  assert (Hll : ll1 = {| v_i := v_i ll; v_offset := v_offset ll;
                         v_whole_line_wanted := v_whole_line_wanted ll;
                         v_j := v_j ll + 1 + 1; v_dummy := v_dummy ll + 1;
                         v_dummy_pos := upd (Z.to_nat (v_dummy ll)) (v_j ll) (v_dummy_pos ll) |})
    by congruence.
  clear Happ'. rewrite Hses in Hcand. fold (candidate (_buffer (session w)) ll) in Hcand.
  fold old in Hcand.
  assert (Hc1 : candidate buf1 ll1 = old ++ [ch_x; LF]).
  { rewrite Hll. unfold candidate. cbn [v_offset v_j]. exact Hcand. }
  split; [exact Hc1|].
  destruct (accept_line_filler (with_buffer w0 buf1)
              {| v_response := v_response fl; v_in_prev := to_char c;
                 v_aborted := v_aborted fl |} ll1 (v_dummy_pos ll) (v_j ll) old)
    as (buf3 & Hacc & Hfmt);
    rewrite ?Hll; cbn [session with_buffer set_buffer _buffer
                       v_i v_offset v_j v_dummy v_dummy_pos v_response];
    try assumption; try lia.
  - rewrite Hd. reflexivity.
  - apply Zlength_firstn_inside. lia.
  - exists buf3.
    simpl. unfold recv_char. rewrite Hget.
    destruct (c <? 0) eqn:E; [lia|].
    rewrite Happ. simpl. rewrite Hfind, Hcount, Z.eqb_refl.
    simpl in Hacc. rewrite Hacc. unfold line. rewrite Hll. cbn [v_i].
    rewrite Hlog, <- app_assoc. reflexivity.
Qed.

Lemma filler_leaves_line_feed_doubled_witness :
  let pattern := bytes "A:x" ++ [LF] in
  let cf := receive 4 fresh_session (bytes "A:" ++ [LF]) pattern in
  let w := world_of cf in
  let fl := frame_of cf in
  let ll := line_frame_of cf in
  candidate (_buffer (session w)) ll = bytes "A:" /\
  get w = (LF, snd (get w)) /\
  exists w' fl',
    step sscanf_plain quiet_cb (AtChar w fl ll) = AtLine w' fl' /\
    log w' = log w ++ [EvGet LF; EvExtract (bytes "A:" ++ [LF; LF]) pattern].
Proof.
  intros pattern cf w fl ll.
  assert (Hold : candidate (_buffer (session w)) ll = bytes "A:") by (vm_compute; reflexivity).
  assert (Hget : get w = (LF, snd (get w))) by (vm_compute; reflexivity).
  split; [exact Hold|]. split; [exact Hget|].
  edestruct (filler_leaves_line_feed_doubled sscanf_plain quiet_cb
               w (snd (get w)) fl ll) with (c := LF)
    as (_ & buf3 & Hstep).
  - vm_compute. repeat split; try reflexivity; intros H; discriminate H.
  - vm_compute; reflexivity.
  - exact Hget.
  - lia.
  - reflexivity.
  - vm_compute; reflexivity.
  - vm_compute; reflexivity.
  - vm_compute; reflexivity.
  - vm_compute; reflexivity.
  - vm_compute; discriminate.
  - vm_compute. repeat constructor; discriminate.
  - rewrite Hold. repeat constructor; discriminate.
  - eexists; eexists. split; [exact Hstep|].
    rewrite Hold. vm_compute; reflexivity.
Defined.

(** ** The bytes in front of the buffer *)

Lemma cstr_from_nonzero (l : list Z) : Forall (fun c => c <> 0) l -> cstr_from l = l.
Proof.
  induction 1 as [|x tl Hx _ IH]; [reflexivity|].
  cbn [cstr_from]. replace (x =? 0) with false by lia. rewrite IH. reflexivity.
Qed.

Lemma map_nth_seq (l : list Z) :
  map (fun n => nth n l 0) (seq 0 (List.length l)) = l.
Proof.
  induction l as [|x tl IH]; [reflexivity|].
  cbn [List.length seq map nth]. rewrite <- seq_shift, map_map. cbn [nth].
  rewrite IH. reflexivity.
Qed.

Lemma bytes_eqb_refl (l : list Z) : bytes_eqb l l = true.
Proof.
  unfold bytes_eqb. destruct (list_eq_dec Z.eq_dec l l); [reflexivity | congruence].
Qed.

Lemma bytes_eqb_neq (a b : list Z) : a <> b -> bytes_eqb a b = false.
Proof.
  intros Hne. unfold bytes_eqb. destruct (list_eq_dec Z.eq_dec a b); [contradiction | reflexivity].
Qed.

(** X16: while the candidate is shorter than the input delimiter the idle
    poller compares the delimiter with bytes in front of [_buffer]: when
    the port delivers the last byte of the delimiter alone, the sink for
    unprocessed data is called with that byte if the memory in front of
    the buffer holds the head of the delimiter, and is not called if it
    holds zeros. *)
Theorem poller_reads_in_front_of_buffer
        (run_cb : fnptr -> ATParser * list Z -> ATParser * list Z)
        (stray : Z -> Z) (a : ATParser) (f : fnptr) (pre : list Z) (c : Z)
        (l0 : list event) :
  _oobs a = [] ->
  _input_delimiter a = pre ++ [c] ->
  _input_delim_size a = Zlength (pre ++ [c]) ->
  pre <> [] -> Forall (fun x => x <> 0) pre -> 0 < c < 256 ->
  Zlength (_buffer a) = AT_BUFFER_SIZE ->
  (forall n, (n < List.length pre)%nat -> stray (Z.of_nat n - Zlength pre) = nth n pre 0) ->
  let w := {| session := ATCmdParser_set_unprocessed_cb a (Some f); io := [c]; log := l0 |} in
  log (poll_world_of (ATCmdParser_process_oob run_cb stray 2 w))
  = l0 ++ [EvGet c; EvUnprocessed f [c]; EvGet (-1)] /\
  log (poll_world_of (ATCmdParser_process_oob run_cb (fun _ => 0) 2 w))
  = l0 ++ [EvGet c; EvGet (-1)].
Proof.
  intros Hoobs Hdel Hsize Hpre Hnz Hc Hlen Hstray w.
  assert (Htc : to_char c = c) by (unfold to_char; apply Z.mod_small; lia).
  destruct (_buffer a) as [|x0 [|x1 tl]] eqn:Hbuf;
    try (rewrite ?Zlength_cons', ?Zlength_nil in Hlen; unfold AT_BUFFER_SIZE in Hlen;
         pose proof (Zlength_nonneg' (@nil Z)); lia).
  assert (Lp : Zlength pre = Z.of_nat (List.length pre)) by apply Zlength_correct.
  assert (Lpos : (0 < List.length pre)%nat) by (destruct pre; [congruence | simpl; lia]).
  assert (Hk : 1 - Zlength (pre ++ [c]) = - Zlength pre).
  { rewrite Zlength_app. change (Zlength [c]) with 1. lia. }
  assert (Hrun : forall st : Z -> Z, exists sess : ATParser,
    ATCmdParser_process_oob run_cb st 2 w
    = poll_run run_cb st 1
        (if bytes_eqb (cstr_from (map (fun n => st (- Zlength pre + Z.of_nat n))
                                      (seq 0 (List.length pre)) ++ c :: 0 :: tl))
                      (pre ++ [c])
         then PollAt {| session := sess;
                        io := []; log := (l0 ++ [EvGet c]) ++ [EvUnprocessed f [c]] |} 0
         else PollAt {| session := sess;
                        io := []; log := l0 ++ [EvGet c] |} 1)).
  { intros st. eexists. unfold ATCmdParser_process_oob, w. cbn [io ops_readable script_ops].
    cbn [Z.eqb].
    change (poll_run run_cb st 2 ?x) with (poll_run run_cb st 1 (poll_step run_cb st x)).
    f_equal. cbn [poll_step]. unfold poll_char.
    unfold get. unfold with_buffer, set_buffer, ATCmdParser_set_unprocessed_cb.
    cbn [session io log ops_get script_ops character_timeout _buffer _oobs
         unprocessed_data _input_delimiter _input_delim_size].
    replace (c <? 0) with false by lia.
    rewrite Hbuf.
    rewrite store_in_range by (unfold AT_BUFFER_SIZE; lia). cbn [bind].
    rewrite store_in_range by (unfold AT_BUFFER_SIZE; lia).
    change (Z.to_nat 0) with 0%nat. change (Z.to_nat (0 + 1)) with 1%nat. cbn [upd].
    cbn [session io log _buffer _oobs unprocessed_data _input_delimiter _input_delim_size].
    rewrite Hoobs. cbn [find].
    replace (0 + 1 + 1 >=? AT_BUFFER_SIZE) with false by (unfold AT_BUFFER_SIZE; lia).
    cbn [orb].
    unfold delimiter_seen. cbn [_buffer _input_delim_size _input_delimiter].
    rewrite Hsize, Hdel. change (0 + 1) with 1. rewrite Hk, Htc.
    unfold cstr_below. replace (- Zlength pre <? 0) with true by lia.
    rewrite Z.opp_involutive, Lp, Nat2Z.id.
    rewrite (cstr_from_nonzero (pre ++ [c]))
      by (apply Forall_app; split; [exact Hnz | repeat constructor; lia]).
    unfold emit. cbn [session io log].
    change (region (c :: 0 :: tl) 0 1) with [c].
    destruct (bytes_eqb _ _); reflexivity. }
  split.
  - destruct (Hrun stray) as [sess ->].
    assert (Hmap : map (fun n => stray (- Zlength pre + Z.of_nat n)) (seq 0 (List.length pre))
                   = pre).
    { rewrite <- (map_nth_seq pre) at 2. apply map_ext_in. intros n Hin.
      apply in_seq in Hin. rewrite <- Hstray by lia. f_equal. lia. }
    rewrite Hmap.
    replace (pre ++ c :: 0 :: tl) with ((pre ++ [c]) ++ 0 :: tl)
      by (rewrite <- app_assoc; reflexivity).
    rewrite cstr_from_cut
      by (apply Forall_app; split; [exact Hnz | repeat constructor; lia]).
    rewrite bytes_eqb_refl.
    cbn [poll_run poll_step]. unfold poll_char, get.
    cbn [session io log ops_get script_ops poll_world_of]. cbn [Z.ltb Z.compare].
    cbn [poll_world_of log]. rewrite <- !app_assoc. reflexivity.
  - destruct (Hrun (fun _ => 0)) as [sess ->].
    destruct (List.length pre) as [|n] eqn:Hn; [lia|].
    cbn [seq map app Z.of_nat Z.add cstr_from Z.eqb].
    rewrite bytes_eqb_neq by (destruct pre; discriminate).
    cbn [poll_run poll_step]. unfold poll_char, get.
    cbn [session io log ops_get script_ops poll_world_of]. cbn [Z.ltb Z.compare].
    cbn [poll_world_of log]. rewrite <- !app_assoc. reflexivity.
Qed.

Lemma poller_reads_in_front_of_buffer_witness :
  let w := {| session := ATCmdParser_set_unprocessed_cb fresh_session (Some 3%nat);
              io := [LF]; log := [] |} in
  let held := fun k : Z => if k =? -1 then CR else 0 in
  log (poll_world_of (ATCmdParser_process_oob quiet_cb held 2 w))
  = [EvGet LF; EvUnprocessed 3%nat [LF]; EvGet (-1)] /\
  log (poll_world_of (ATCmdParser_process_oob quiet_cb (fun _ => 0) 2 w))
  = [EvGet LF; EvGet (-1)].
Proof.
  intros w held.
  apply (poller_reads_in_front_of_buffer quiet_cb held fresh_session 3%nat [CR] LF []).
  - reflexivity.
  - reflexivity.
  - reflexivity.
  - discriminate.
  - repeat constructor; discriminate.
  - lia.
  - reflexivity.
  - intros n Hn. simpl in Hn. assert (n = 0%nat) by lia. subst n. reflexivity.
Defined.

(** ** A prefix that is waiting on the port *)

Lemma split_at_nul (m : list Z) (n : Z) :
  0 <= n < Zlength m -> rd m n = 0 ->
  m = region m 0 n ++ 0 :: skipn (Z.to_nat (n + 1)) m.
Proof.
  intros Hn Hnul. unfold region. change (Z.to_nat 0) with 0%nat. cbn [skipn].
  rewrite <- (firstn_skipn (Z.to_nat n) m) at 1. f_equal.
  rewrite rd_nth in Hnul by lia.
  rewrite Zlength_correct in Hn.
  replace (Z.to_nat (n + 1)) with (S (Z.to_nat n)) by lia.
  rewrite (skipn_nth_cons m (Z.to_nat n)) by lia. rewrite Hnul. reflexivity.
Qed.

(** With the candidate [q] at the head of the buffer and bytes [front] in
    front of it, the string that ends with the candidate is not the
    delimiter if the last byte of the delimiter is not in the candidate. *)
Lemma cstr_from_front (q r : list Z) (dl : Z) :
  q <> [] -> Forall (fun x => x <> 0 /\ x <> dl) q ->
  forall front dpre : list Z,
    (List.length front + List.length q = List.length dpre + 1)%nat ->
    cstr_from (front ++ q ++ 0 :: r) <> dpre ++ [dl].
Proof.
  intros Hq Hall. induction front as [|x front IH]; intros dpre Hlen Heq.
  - cbn [app] in Heq. rewrite cstr_from_cut in Heq
      by (eapply Forall_impl; [|exact Hall]; intros y [H _]; exact H).
    assert (Hin : In dl q) by (rewrite Heq; apply in_or_app; right; left; reflexivity).
    destruct (proj1 (Forall_forall _ _) Hall dl Hin) as [_ Hne]. congruence.
  - cbn [app cstr_from] in Heq. destruct (x =? 0).
    + destruct dpre; discriminate Heq.
    + destruct dpre as [|d dpre].
      * destruct q; [congruence | simpl in Hlen; lia].
      * cbn [app] in Heq. injection Heq as _ Heq.
        apply (IH dpre); [simpl in Hlen; lia | exact Heq].
Qed.

Lemma delimiter_not_seen (stray : Z -> Z) (a : ATParser) (q r dpre : list Z) (dl i : Z) :
  _buffer a = q ++ 0 :: r -> Zlength q = i ->
  q <> [] -> Forall (fun x => x <> 0 /\ x <> dl) q ->
  _input_delimiter a = dpre ++ [dl] ->
  _input_delim_size a = Zlength (dpre ++ [dl]) ->
  Forall (fun x => x <> 0) (dpre ++ [dl]) ->
  delimiter_seen stray a i = false.
Proof.
  intros Hbuf Hi Hq Hall Hdel Hsize Hdnz.
  unfold delimiter_seen. rewrite Hdel, Hsize, (cstr_from_nonzero _ Hdnz), Hbuf.
  apply bytes_eqb_neq.
  assert (Ld : Zlength (dpre ++ [dl]) = Z.of_nat (List.length dpre) + 1).
  { rewrite Zlength_app, (Zlength_correct dpre). reflexivity. }
  assert (Lq : i = Z.of_nat (List.length q)) by (rewrite <- Hi; apply Zlength_correct).
  assert (Hq0 : (0 < List.length q)%nat) by (destruct q; [congruence | simpl; lia]).
  unfold cstr_below. destruct (i - Zlength (dpre ++ [dl]) <? 0) eqn:E.
  - apply cstr_from_front; [exact Hq | exact Hall |].
    rewrite length_map, length_seq. lia.
  - unfold cstr. intros Heq.
    rewrite skipn_app in Heq.
    replace (Z.to_nat (i - Zlength (dpre ++ [dl])) - List.length q)%nat with 0%nat in Heq by lia.
    cbn [skipn] in Heq.
    assert (Hall' : Forall (fun x => x <> 0 /\ x <> dl)
                           (skipn (Z.to_nat (i - Zlength (dpre ++ [dl]))) q)).
    { rewrite <- (firstn_skipn (Z.to_nat (i - Zlength (dpre ++ [dl]))) q) in Hall.
      apply Forall_app in Hall. exact (proj2 Hall). }
    rewrite cstr_from_cut in Heq
      by (eapply Forall_impl; [|exact Hall']; intros y [H _]; exact H).
    assert (Hin : In dl (skipn (Z.to_nat (i - Zlength (dpre ++ [dl]))) q))
      by (rewrite Heq; apply in_or_app; right; left; reflexivity).
    destruct (proj1 (Forall_forall _ _) Hall' dl Hin) as [_ Hne]. congruence.
Qed.

Section PrefixFacts.

Variable run_cb : fnptr -> ATParser * list Z -> ATParser * list Z.
Variable stray : Z -> Z.
Variable a : ATParser.
Variable e : oob.
Variables p rest dpre : list Z.
Variable dl : Z.

Hypothesis e_registered : In e (_oobs a).
Hypothesis e_prefix : prefix e = p.
Hypothesis oobs_wf : Forall oob_wf (_oobs a).
Hypothesis e_first :
  forall e' k, In e' (_oobs a) -> (0 < k)%nat -> prefix e' = firstn k p -> e' = e.
Hypothesis p_plain : Forall (fun x => 0 < x < 256 /\ x <> dl) p.
Hypothesis p_fits : Zlength p + 1 < AT_BUFFER_SIZE.
Hypothesis delimiter : _input_delimiter a = dpre ++ [dl].
Hypothesis delimiter_size : _input_delim_size a = Zlength (dpre ++ [dl]).
Hypothesis delimiter_plain : Forall (fun x => x <> 0) (dpre ++ [dl]).

Lemma polling_round (k : nat) (w : World (list Z)) :
  (k < List.length p)%nat ->
  _oobs (session w) = _oobs a ->
  _input_delimiter (session w) = _input_delimiter a ->
  _input_delim_size (session w) = _input_delim_size a ->
  Zlength (_buffer (session w)) = AT_BUFFER_SIZE ->
  region (_buffer (session w)) 0 (Z.of_nat k) = firstn k p ->
  io w = skipn k p ++ rest ->
  exists w1,
    _oobs (session w1) = _oobs a /\
    _input_delimiter (session w1) = _input_delimiter a /\
    _input_delim_size (session w1) = _input_delim_size a /\
    Zlength (_buffer (session w1)) = AT_BUFFER_SIZE /\
    region (_buffer (session w1)) 0 (Z.of_nat (S k)) = firstn (S k) p /\
    rd (_buffer (session w1)) (Z.of_nat (S k)) = 0 /\
    io w1 = skipn (S k) p ++ rest /\
    log w1 = log w ++ [EvGet (nth k p 0)] /\
    poll_step run_cb stray (PollAt w (Z.of_nat k))
    = (if (S k =? List.length p)%nat then PollDone Handled (invoke run_cb e w1)
       else PollAt w1 (Z.of_nat (S k))).
Proof.
  intros Hk Hoobs Hdel Hsize Hlen Hreg Hio.
  set (c := nth k p 0).
  assert (Hc : 0 < c < 256 /\ c <> dl).
  { unfold c. apply Forall_nth; [exact p_plain | exact Hk]. }
  assert (Htc : to_char c = c) by (unfold to_char; apply Z.mod_small; lia).
  assert (Lp : Zlength p = Z.of_nat (List.length p)) by apply Zlength_correct.
  destruct (get w) as [c' w0] eqn:Hget.
  pose proof (get_inv _ _ _ Hget) as [Hses Hlog].
  assert (Hgot : c' = c /\ io w0 = skipn (S k) p ++ rest).
  { unfold get in Hget. rewrite Hio, (skipn_nth_cons p k Hk) in Hget.
    simpl in Hget. inversion Hget; subst. split; reflexivity. }
  destruct Hgot as [-> Hio0].
  destruct (store AT_BUFFER_SIZE (_buffer (session w0)) (Z.of_nat k) (to_char c))
    as [b1|x] eqn:S1.
  2: { rewrite store_in_range in S1 by lia. discriminate. }
  destruct (store AT_BUFFER_SIZE b1 (Z.of_nat k + 1) 0) as [b2|x] eqn:S2.
  2: { rewrite store_in_range in S2 by lia. discriminate. }
  pose proof (store_Zlength _ _ _ _ _ S1) as L1.
  pose proof (store_Zlength _ _ _ _ _ S2) as L2.
  rewrite Hses in L1.
  assert (Hreg2 : region b2 0 (Z.of_nat (S k)) = firstn (S k) p).
  { replace (Z.of_nat (S k)) with (Z.of_nat k + 1) by lia.
    rewrite (region_store_outside _ _ _ _ _ _ _ S2) by lia.
    rewrite (region_store_snoc _ (_buffer (session w0)) b1 (to_char c) 0 (Z.of_nat k))
      by first [exact S1 | rewrite ?Hses; lia].
    rewrite Hses, Hreg, Htc, (firstn_snoc_nth p k Hk). reflexivity. }
  assert (Hnul2 : rd b2 (Z.of_nat (S k)) = 0).
  { replace (Z.of_nat (S k)) with (Z.of_nat k + 1) by lia.
    apply (rd_store_same _ _ _ _ _ S2). lia. }
  set (w1 := with_buffer w0 b2).
  assert (Ho1 : _oobs (session w1) = _oobs a) by (cbn; rewrite Hses; exact Hoobs).
  assert (Hd1 : _input_delimiter (session w1) = _input_delimiter a)
    by (cbn; rewrite Hses; exact Hdel).
  assert (Hs1 : _input_delim_size (session w1) = _input_delim_size a)
    by (cbn; rewrite Hses; exact Hsize).
  assert (Hb1 : _buffer (session w1) = b2) by reflexivity.
  exists w1. rewrite Hb1.
  split; [exact Ho1|]. split; [exact Hd1|]. split; [exact Hs1|].
  split; [lia|]. split; [exact Hreg2|]. split; [exact Hnul2|].
  split; [exact Hio0|]. split; [exact Hlog|].
  cbn [poll_step]. unfold poll_char. rewrite Hget.
  replace (c <? 0) with false by lia.
  rewrite S1. cbn [bind]. rewrite S2.
  fold w1. rewrite Ho1.
  replace (Z.of_nat k + 1) with (Z.of_nat (S k)) by lia.
  destruct (Nat.eqb_spec (S k) (List.length p)) as [Hlast|Hmore].
  - assert (Hall : firstn (S k) p = p) by (rewrite Hlast; apply firstn_all).
    assert (Hewf : oob_wf e) by (apply (proj1 (Forall_forall _ _) oobs_wf e e_registered)).
    destruct (find (oob_hit b2 0 (Z.of_nat (S k))) (_oobs a)) as [e'|] eqn:Hf.
    + apply find_some in Hf. destruct Hf as [Hin Hhit].
      apply oob_hit_inv in Hhit. destruct Hhit as [Hje Hr].
      pose proof (proj1 (Forall_forall _ _) oobs_wf e' Hin) as Hewf'. unfold oob_wf in Hewf'.
      rewrite Hewf', firstn_Zlength, Hreg2 in Hr.
      rewrite (e_first e' (S k) Hin ltac:(lia) (eq_sym Hr)). reflexivity.
    + exfalso.
      apply (find_none _ _ Hf e) in e_registered as Hmiss.
      rewrite oob_hit_whole in Hmiss; [discriminate | exact Hewf | lia | |].
      * rewrite Hreg2, Hall, e_prefix. reflexivity.
      * apply region_Zlength; lia.
  - destruct (find (oob_hit b2 0 (Z.of_nat (S k))) (_oobs a)) as [e'|] eqn:Hf.
    + exfalso. apply find_some in Hf. destruct Hf as [Hin Hhit].
      apply oob_hit_inv in Hhit. destruct Hhit as [Hje Hr].
      pose proof (proj1 (Forall_forall _ _) oobs_wf e' Hin) as Hewf'. unfold oob_wf in Hewf'.
      rewrite Hewf', firstn_Zlength, Hreg2 in Hr.
      pose proof (e_first e' (S k) Hin ltac:(lia) (eq_sym Hr)) as He. subst e'.
      rewrite e_prefix in Hr.
      apply (f_equal (@List.length Z)) in Hr. rewrite length_firstn in Hr. lia.
    + rewrite Z.geb_leb.
      destruct (Z.leb_spec AT_BUFFER_SIZE (Z.of_nat (S k) + 1)) as [Hbad|_]; [lia|].
      cbn [orb].
      rewrite (delimiter_not_seen stray _ (firstn (S k) p) (skipn (Z.to_nat (Z.of_nat (S k) + 1)) b2)
                                  dpre dl (Z.of_nat (S k))).
      * reflexivity.
      * rewrite Hb1, <- Hreg2. apply split_at_nul; [lia | exact Hnul2].
      * rewrite Zlength_correct, length_firstn. lia.
      * destruct p; [simpl in Hk; lia | discriminate].
      * apply Forall_firstn'. eapply Forall_impl; [|exact p_plain]. intros y [H1 H2].
        split; [lia | exact H2].
      * rewrite Hd1. exact delimiter.
      * rewrite Hs1. exact delimiter_size.
      * exact delimiter_plain.
Qed.

Lemma polling_run (n : nat) :
  forall (k : nat) (w : World (list Z)),
    (k + S n = List.length p)%nat ->
    _oobs (session w) = _oobs a ->
    _input_delimiter (session w) = _input_delimiter a ->
    _input_delim_size (session w) = _input_delim_size a ->
    Zlength (_buffer (session w)) = AT_BUFFER_SIZE ->
    region (_buffer (session w)) 0 (Z.of_nat k) = firstn k p ->
    io w = skipn k p ++ rest ->
    exists w1,
      poll_run run_cb stray (S n) (PollAt w (Z.of_nat k))
      = PollDone Handled (invoke run_cb e w1) /\
      io w1 = rest /\
      log w1 = log w ++ map EvGet (skipn k p) /\
      cstr (_buffer (session w1)) 0 = p /\
      _oobs (session w1) = _oobs a.
Proof.
  pose proof (Zlength_correct p) as Lp.
  induction n as [|n IH]; intros k w Hk Hoobs Hdel Hsize Hlen Hreg Hio.
  - destruct (polling_round k w ltac:(lia) Hoobs Hdel Hsize Hlen Hreg Hio)
      as (w1 & Ho1 & _ & _ & L1 & Hreg1 & Hnul1 & Hio1 & Hlog1 & Hstep).
    replace (S k =? List.length p)%nat with true in Hstep by (symmetry; apply Nat.eqb_eq; lia).
    assert (Hall : firstn (S k) p = p) by (replace (S k) with (List.length p) by lia; apply firstn_all).
    exists w1. split; [cbn [poll_run]; exact Hstep|].
    split; [rewrite Hio1, skipn_all2 by lia; reflexivity|].
    split; [rewrite Hlog1, (skipn_nth_cons p k) by lia; rewrite skipn_all2 by lia; reflexivity|].
    split; [|exact Ho1].
    transitivity (region (_buffer (session w1)) 0 (Z.of_nat (S k)));
      [|rewrite Hreg1; exact Hall].
    apply cstr_region; try lia.
    + rewrite Hreg1. apply Forall_firstn'. eapply Forall_impl; [|exact p_plain].
      intros y [H _]; lia.
    + exact Hnul1.
  - destruct (polling_round k w ltac:(lia) Hoobs Hdel Hsize Hlen Hreg Hio)
      as (w1 & Ho1 & Hd1 & Hs1 & L1 & Hreg1 & _ & Hio1 & Hlog1 & Hstep).
    replace (S k =? List.length p)%nat with false in Hstep by (symmetry; apply Nat.eqb_neq; lia).
    destruct (IH (S k) w1 ltac:(lia) Ho1 Hd1 Hs1 L1 Hreg1 Hio1)
      as (w2 & Hrun & Hio2 & Hlog2 & Hcs & Ho2).
    exists w2.
    split.
    + change (poll_run run_cb stray (S (S n)) (PollAt w (Z.of_nat k)))
        with (poll_run run_cb stray (S n) (poll_step run_cb stray (PollAt w (Z.of_nat k)))).
      rewrite Hstep. exact Hrun.
    + split; [exact Hio2|]. split; [|split; [exact Hcs | exact Ho2]].
      rewrite Hlog2, Hlog1, (skipn_nth_cons p k) by lia.
      rewrite <- app_assoc. reflexivity.
Qed.

End PrefixFacts.

(** X17: a registered prefix that is waiting at the head of the input is
    handled by the idle poller: if no shorter piece of it is registered,
    the last byte of the input delimiter is not in it and it fits the
    buffer, the call reads the bytes of the prefix and no more, runs the
    handler of its entry with the prefix as the string in the buffer, and
    returns [true]. *)
Theorem process_oob_handles_waiting_prefix
        (run_cb : fnptr -> ATParser * list Z -> ATParser * list Z)
        (stray : Z -> Z) (a : ATParser) (e : oob)
        (p rest dpre : list Z) (dl : Z) (l0 : list event) :
  In e (_oobs a) -> prefix e = p ->
  Forall oob_wf (_oobs a) ->
  (forall e' k, In e' (_oobs a) -> (0 < k)%nat -> prefix e' = firstn k p -> e' = e) ->
  p <> [] -> Forall (fun x => 0 < x < 256 /\ x <> dl) p ->
  Zlength p + 1 < AT_BUFFER_SIZE ->
  _input_delimiter a = dpre ++ [dl] ->
  _input_delim_size a = Zlength (dpre ++ [dl]) ->
  Forall (fun x => x <> 0) (dpre ++ [dl]) ->
  Zlength (_buffer a) = AT_BUFFER_SIZE ->
  exists w1,
    ATCmdParser_process_oob run_cb stray (List.length p)
                            {| session := a; io := p ++ rest; log := l0 |}
    = PollDone Handled (invoke run_cb e w1) /\
    io w1 = rest /\
    log w1 = l0 ++ map EvGet p /\
    cstr (_buffer (session w1)) 0 = p /\
    _oobs (session w1) = _oobs a.
Proof.
  intros Hin Hpre Hwf Hfirst Hp Hplain Hfit Hdel Hsize Hdnz Hlen.
  destruct p as [|c0 pt] eqn:Ep; [congruence|]. rewrite <- Ep in *.
  assert (Hl : List.length p = S (List.length pt)) by (rewrite Ep; reflexivity).
  destruct (polling_run run_cb stray a e p rest dpre dl Hin Hpre Hwf Hfirst Hplain Hfit
              Hdel Hsize Hdnz (List.length pt) 0%nat
              {| session := a; io := p ++ rest; log := l0 |})
    as (w1 & Hrun & Hio & Hlog & Hcs & Hoobs); try reflexivity; try lia; try assumption.
  exists w1. split; [|split; [exact Hio | split; [exact Hlog | split; [exact Hcs | exact Hoobs]]]].
  unfold ATCmdParser_process_oob. cbn [io ops_readable script_ops].
  rewrite Ep at 1. cbn [Z.eqb]. rewrite Hl. exact Hrun.
Qed.

Lemma process_oob_handles_waiting_prefix_witness :
  let e := {| len := 2; prefix := bytes "+X"; cb := Some 1%nat |} in
  In e (_oobs session_plus_X) /\
  exists w1,
    ATCmdParser_process_oob quiet_cb (fun _ => 0) 2
                            {| session := session_plus_X; io := bytes "+X: 1"; log := [] |}
    = PollDone Handled (invoke quiet_cb e w1) /\
    io w1 = bytes ": 1" /\
    log w1 = [EvGet 43; EvGet 88].
Proof.
  intros e.
  assert (Hin : In e (_oobs session_plus_X)) by (left; reflexivity).
  split; [exact Hin|].
  destruct (process_oob_handles_waiting_prefix quiet_cb (fun _ => 0) session_plus_X e
              (bytes "+X") (bytes ": 1") [CR] LF [])
    as (w1 & Hrun & Hio & Hlog & _ & _).
  - exact Hin.
  - reflexivity.
  - repeat constructor.
  - intros e' k [<-|[]] _ _. reflexivity.
  - discriminate.
  - repeat constructor; try lia; discriminate.
  - vm_compute; reflexivity.
  - reflexivity.
  - reflexivity.
  - repeat constructor; discriminate.
  - reflexivity.
  - exists w1. split; [exact Hrun|]. split; [exact Hio | exact Hlog].
Defined.

(** ** A line for the sink *)

Lemma region_skipn (m : list Z) (k n : Z) :
  0 <= k -> 0 <= n -> region m k n = skipn (Z.to_nat k) (region m 0 (k + n)).
Proof.
  intros Hk Hn. unfold region. change (Z.to_nat 0) with 0%nat. cbn [skipn].
  rewrite skipn_firstn_comm. f_equal. lia.
Qed.

Lemma firstn_app_inside (a b : list Z) (k : nat) :
  (k <= List.length a)%nat -> firstn k (a ++ b) = firstn k a.
Proof.
  intros Hk. rewrite firstn_app.
  replace (k - List.length a)%nat with 0%nat by lia.
  cbn [firstn]. apply app_nil_r.
Qed.

Lemma delimiter_is_seen (stray : Z -> Z) (a : ATParser) (line delim r : list Z) :
  _buffer a = (line ++ delim) ++ 0 :: r ->
  _input_delimiter a = delim ->
  _input_delim_size a = Zlength delim ->
  Forall (fun x => x <> 0) delim ->
  delimiter_seen stray a (Zlength (line ++ delim)) = true.
Proof.
  intros Hbuf Hdel Hsize Hnz.
  unfold delimiter_seen. rewrite Hdel, Hsize, (cstr_from_nonzero _ Hnz), Hbuf.
  rewrite Zlength_app. replace (Zlength line + Zlength delim - Zlength delim) with (Zlength line) by lia.
  unfold cstr_below. pose proof (Zlength_nonneg' line) as Hl.
  replace (Zlength line <? 0) with false by lia.
  unfold cstr. rewrite <- !app_assoc.
  rewrite skipn_app, Zlength_correct, Nat2Z.id, skipn_all, Nat.sub_diag.
  cbn [skipn app]. rewrite cstr_from_cut by exact Hnz.
  apply bytes_eqb_refl.
Qed.

Lemma poll_run_last {port : Type} {ops : serial_ops port}
      (run_cb : fnptr -> ATParser * port -> ATParser * port) (stray : Z -> Z) (n : nat) :
  forall cf : pconfig,
    poll_run run_cb stray (S n) cf = poll_step run_cb stray (poll_run run_cb stray n cf).
Proof.
  induction n as [|n IH]; intros cf; [reflexivity|].
  change (poll_run run_cb stray (S (S n)) cf)
    with (poll_run run_cb stray (S n) (poll_step run_cb stray cf)).
  rewrite IH. reflexivity.
Qed.

Section LineFacts.

Variable run_cb : fnptr -> ATParser * list Z -> ATParser * list Z.
Variable stray : Z -> Z.
Variable f : fnptr.
Variables line dpre : list Z.
Variable dl : Z.

Hypothesis line_plain : Forall (fun x => 0 < x < 256 /\ x <> dl) (line ++ dpre).
Hypothesis dl_plain : 0 < dl < 256.
Hypothesis line_fits : Zlength (line ++ dpre ++ [dl]) + 1 < AT_BUFFER_SIZE.

Lemma line_round (k : nat) (w : World (list Z)) :
  (k < List.length (line ++ dpre ++ [dl]))%nat ->
  _oobs (session w) = [] ->
  unprocessed_data (session w) = Some f ->
  _input_delimiter (session w) = dpre ++ [dl] ->
  _input_delim_size (session w) = Zlength (dpre ++ [dl]) ->
  Zlength (_buffer (session w)) = AT_BUFFER_SIZE ->
  region (_buffer (session w)) 0 (Z.of_nat k) = firstn k (line ++ dpre ++ [dl]) ->
  io w = skipn k (line ++ dpre ++ [dl]) ->
  exists w1,
    _oobs (session w1) = [] /\
    unprocessed_data (session w1) = Some f /\
    _input_delimiter (session w1) = dpre ++ [dl] /\
    _input_delim_size (session w1) = Zlength (dpre ++ [dl]) /\
    Zlength (_buffer (session w1)) = AT_BUFFER_SIZE /\
    region (_buffer (session w1)) 0 (Z.of_nat (S k)) = firstn (S k) (line ++ dpre ++ [dl]) /\
    io w1 = skipn (S k) (line ++ dpre ++ [dl]) /\
    log w1 = log w ++ [EvGet (nth k (line ++ dpre ++ [dl]) 0)] /\
    poll_step run_cb stray (PollAt w (Z.of_nat k))
    = (if (S k =? List.length (line ++ dpre ++ [dl]))%nat
       then PollAt (emit w1 (EvUnprocessed f (line ++ dpre ++ [dl]))) 0
       else PollAt w1 (Z.of_nat (S k))).
Proof.
  set (script := line ++ dpre ++ [dl]) in *.
  intros Hk Hoobs Hsink Hdel Hsize Hlen Hreg Hio.
  assert (Hscript : script = (line ++ dpre) ++ [dl]) by (unfold script; apply app_assoc).
  assert (Hall : Forall (fun x => 0 < x < 256) script).
  { rewrite Hscript. apply Forall_app. split.
    - eapply Forall_impl; [|exact line_plain]. intros y [H _]; exact H.
    - repeat constructor; lia. }
  set (c := nth k script 0).
  assert (Hc : 0 < c < 256) by (unfold c; apply Forall_nth; [exact Hall | exact Hk]).
  assert (Htc : to_char c = c) by (unfold to_char; apply Z.mod_small; lia).
  assert (Lp : Zlength script = Z.of_nat (List.length script)) by apply Zlength_correct.
  assert (Lsc : List.length script = S (List.length (line ++ dpre))).
  { rewrite Hscript, length_app. simpl. lia. }
  destruct (get w) as [c' w0] eqn:Hget.
  pose proof (get_inv _ _ _ Hget) as [Hses Hlog].
  assert (Hgot : c' = c /\ io w0 = skipn (S k) script).
  { unfold get in Hget. rewrite Hio, (skipn_nth_cons script k Hk) in Hget.
    simpl in Hget. inversion Hget; subst. split; reflexivity. }
  destruct Hgot as [-> Hio0].
  destruct (store AT_BUFFER_SIZE (_buffer (session w0)) (Z.of_nat k) (to_char c))
    as [b1|x] eqn:S1.
  2: { rewrite store_in_range in S1 by lia. discriminate. }
  destruct (store AT_BUFFER_SIZE b1 (Z.of_nat k + 1) 0) as [b2|x] eqn:S2.
  2: { rewrite store_in_range in S2 by lia. discriminate. }
  pose proof (store_Zlength _ _ _ _ _ S1) as L1.
  pose proof (store_Zlength _ _ _ _ _ S2) as L2.
  rewrite Hses in L1.
  assert (Hreg2 : region b2 0 (Z.of_nat (S k)) = firstn (S k) script).
  { replace (Z.of_nat (S k)) with (Z.of_nat k + 1) by lia.
    rewrite (region_store_outside _ _ _ _ _ _ _ S2) by lia.
    rewrite (region_store_snoc _ (_buffer (session w0)) b1 (to_char c) 0 (Z.of_nat k))
      by first [exact S1 | rewrite ?Hses; lia].
    rewrite Hses, Hreg, Htc, (firstn_snoc_nth script k Hk). reflexivity. }
  assert (Hnul2 : rd b2 (Z.of_nat (S k)) = 0).
  { replace (Z.of_nat (S k)) with (Z.of_nat k + 1) by lia.
    apply (rd_store_same _ _ _ _ _ S2). lia. }
  assert (Hsplit : b2 = firstn (S k) script ++ 0 :: skipn (Z.to_nat (Z.of_nat (S k) + 1)) b2).
  { rewrite <- Hreg2. apply split_at_nul; [lia | exact Hnul2]. }
  set (w1 := with_buffer w0 b2).
  assert (Ho1 : _oobs (session w1) = []) by (cbn; rewrite Hses; exact Hoobs).
  assert (Hu1 : unprocessed_data (session w1) = Some f) by (cbn; rewrite Hses; exact Hsink).
  assert (Hd1 : _input_delimiter (session w1) = dpre ++ [dl])
    by (cbn; rewrite Hses; exact Hdel).
  assert (Hs1 : _input_delim_size (session w1) = Zlength (dpre ++ [dl]))
    by (cbn; rewrite Hses; exact Hsize).
  assert (Hb1 : _buffer (session w1) = b2) by reflexivity.
  exists w1. rewrite Hb1.
  split; [exact Ho1|]. split; [exact Hu1|]. split; [exact Hd1|]. split; [exact Hs1|].
  split; [lia|]. split; [exact Hreg2|].
  split; [exact Hio0|]. split; [exact Hlog|].
  cbn [poll_step]. unfold poll_char. rewrite Hget.
  replace (c <? 0) with false by lia.
  rewrite S1. cbn [bind]. rewrite S2.
  fold w1. rewrite Ho1. cbn [find]. rewrite Hu1.
  replace (Z.of_nat k + 1) with (Z.of_nat (S k)) by lia.
  rewrite Z.geb_leb.
  destruct (Z.leb_spec AT_BUFFER_SIZE (Z.of_nat (S k) + 1)) as [Hbad|_]; [lia|].
  cbn [orb].
  destruct (Nat.eqb_spec (S k) (List.length script)) as [Hlast|Hmore].
  - assert (Hfull : firstn (S k) script = script) by (rewrite Hlast; apply firstn_all).
    rewrite Hfull in Hsplit, Hreg2.
    replace (Z.of_nat (S k)) with (Zlength (line ++ dpre ++ [dl])) by (fold script; lia).
    rewrite (delimiter_is_seen stray (session w1) line (dpre ++ [dl])
                               (skipn (Z.to_nat (Z.of_nat (S k) + 1)) b2)).
    + fold script. replace (Zlength script) with (Z.of_nat (S k)) by lia.
      rewrite Hreg2. reflexivity.
    + rewrite Hb1. exact Hsplit.
    + exact Hd1.
    + exact Hs1.
    + apply Forall_app. split; [|repeat constructor; lia].
      apply Forall_app in line_plain. destruct line_plain as [_ Hd].
      eapply Forall_impl; [|exact Hd]. intros y [H _]; lia.
  - assert (Hpart : firstn (S k) script = firstn (S k) (line ++ dpre)).
    { rewrite Hscript. apply firstn_app_inside. lia. }
    rewrite (delimiter_not_seen stray (session w1) (firstn (S k) script)
                                (skipn (Z.to_nat (Z.of_nat (S k) + 1)) b2)
                                dpre dl (Z.of_nat (S k))).
    + reflexivity.
    + rewrite Hb1. exact Hsplit.
    + rewrite Zlength_correct, length_firstn. lia.
    + destruct script; [simpl in Hk; lia | discriminate].
    + rewrite Hpart. apply Forall_firstn'. eapply Forall_impl; [|exact line_plain].
      intros y [H1 H2]. split; [lia | exact H2].
    + exact Hd1.
    + exact Hs1.
    + apply Forall_app. split; [|repeat constructor; lia].
      apply Forall_app in line_plain. destruct line_plain as [_ Hd].
      eapply Forall_impl; [|exact Hd]. intros y [H _]; lia.
Qed.

Lemma line_run (n : nat) :
  forall (k : nat) (w : World (list Z)),
    (k + S n = List.length (line ++ dpre ++ [dl]))%nat ->
    _oobs (session w) = [] ->
    unprocessed_data (session w) = Some f ->
    _input_delimiter (session w) = dpre ++ [dl] ->
    _input_delim_size (session w) = Zlength (dpre ++ [dl]) ->
    Zlength (_buffer (session w)) = AT_BUFFER_SIZE ->
    region (_buffer (session w)) 0 (Z.of_nat k) = firstn k (line ++ dpre ++ [dl]) ->
    io w = skipn k (line ++ dpre ++ [dl]) ->
    exists w1,
      poll_run run_cb stray (S n) (PollAt w (Z.of_nat k)) = PollAt w1 0 /\
      io w1 = [] /\
      log w1 = log w ++ map EvGet (skipn k (line ++ dpre ++ [dl]))
                     ++ [EvUnprocessed f (line ++ dpre ++ [dl])].
Proof.
  induction n as [|n IH]; intros k w Hk Hoobs Hsink Hdel Hsize Hlen Hreg Hio.
  - destruct (line_round k w ltac:(lia) Hoobs Hsink Hdel Hsize Hlen Hreg Hio)
      as (w1 & _ & _ & _ & _ & _ & _ & Hio1 & Hlog1 & Hstep).
    replace (S k =? List.length (line ++ dpre ++ [dl]))%nat with true in Hstep
      by (symmetry; apply Nat.eqb_eq; lia).
    exists (emit w1 (EvUnprocessed f (line ++ dpre ++ [dl]))).
    split; [cbn [poll_run]; exact Hstep|].
    unfold emit. cbn [io log].
    split; [rewrite Hio1, skipn_all2 by lia; reflexivity|].
    rewrite Hlog1, (skipn_nth_cons (line ++ dpre ++ [dl]) k) by lia.
    rewrite skipn_all2 by lia. cbn [map]. rewrite <- !app_assoc. reflexivity.
  - destruct (line_round k w ltac:(lia) Hoobs Hsink Hdel Hsize Hlen Hreg Hio)
      as (w1 & Ho1 & Hu1 & Hd1 & Hs1 & L1 & Hreg1 & Hio1 & Hlog1 & Hstep).
    replace (S k =? List.length (line ++ dpre ++ [dl]))%nat with false in Hstep
      by (symmetry; apply Nat.eqb_neq; lia).
    destruct (IH (S k) w1 ltac:(lia) Ho1 Hu1 Hd1 Hs1 L1 Hreg1 Hio1)
      as (w2 & Hrun & Hio2 & Hlog2).
    exists w2. split; [|split; [exact Hio2|]].
    + change (poll_run run_cb stray (S (S n)) (PollAt w (Z.of_nat k)))
        with (poll_run run_cb stray (S n) (poll_step run_cb stray (PollAt w (Z.of_nat k)))).
      rewrite Hstep. exact Hrun.
    + rewrite Hlog2, Hlog1, (skipn_nth_cons (line ++ dpre ++ [dl]) k) by lia.
      cbn [map]. rewrite <- !app_assoc. reflexivity.
Qed.

End LineFacts.

(** X18: a line that matches no registered prefix goes to the sink whole: with
    nothing registered and a sink set by [ATCmdParser_set_unprocessed_cb],
    the idle poller reads a pending line up to the end of its input
    delimiter, calls the sink once with the line and its delimiter, and
    returns [false] when the next read times out. *)
Theorem process_oob_hands_line_to_sink
        (run_cb : fnptr -> ATParser * list Z -> ATParser * list Z)
        (stray : Z -> Z) (a : ATParser) (f : fnptr)
        (line dpre : list Z) (dl : Z) (l0 : list event) :
  let script := line ++ dpre ++ [dl] in
  _oobs a = [] ->
  Forall (fun x => 0 < x < 256 /\ x <> dl) (line ++ dpre) ->
  0 < dl < 256 ->
  Zlength script + 1 < AT_BUFFER_SIZE ->
  _input_delimiter a = dpre ++ [dl] ->
  _input_delim_size a = Zlength (dpre ++ [dl]) ->
  Zlength (_buffer a) = AT_BUFFER_SIZE ->
  exists w1,
    ATCmdParser_process_oob run_cb stray (S (List.length script))
                            {| session := ATCmdParser_set_unprocessed_cb a (Some f);
                               io := script; log := l0 |}
    = PollDone PollTimedOut w1 /\
    io w1 = [] /\
    log w1 = l0 ++ map EvGet script ++ [EvUnprocessed f script; EvGet (-1)].
Proof.
  intros script Hoobs Hplain Hdl Hfit Hdel Hsize Hlen.
  assert (Hl : List.length script = S (List.length (line ++ dpre))).
  { unfold script. rewrite app_assoc, length_app. simpl. lia. }
  destruct (line_run run_cb stray f line dpre dl Hplain Hdl Hfit
              (List.length (line ++ dpre)) 0%nat
              {| session := ATCmdParser_set_unprocessed_cb a (Some f);
                 io := script; log := l0 |})
    as (w1 & Hrun & Hio & Hlog); try reflexivity; try assumption.
  { fold script. lia. }
  fold script in Hrun, Hlog. cbn [log skipn] in Hlog.
  exists {| session := session w1; io := []; log := log w1 ++ [EvGet (-1)] |}.
  split; [|split; [reflexivity|]].
  - assert (Hr : ops_readable script = (1, script))
      by (destruct script; [simpl in Hl; lia | reflexivity]).
    change (Z.of_nat 0) with 0 in Hrun.
    unfold ATCmdParser_process_oob. cbn [io session log]. rewrite Hr. cbn [Z.eqb].
    rewrite Hl, poll_run_last, Hrun.
    cbn [poll_step]. unfold poll_char, get. rewrite Hio.
    cbn [ops_get script_ops]. reflexivity.
  - cbn [log]. rewrite Hlog, <- !app_assoc. reflexivity.
Qed.

Lemma process_oob_hands_line_to_sink_witness :
  let script := bytes "RING" ++ [CR] ++ [LF] in
  Forall (fun x => 0 < x < 256 /\ x <> LF) (bytes "RING" ++ [CR]) /\
  exists w1,
    ATCmdParser_process_oob quiet_cb (fun _ => 0) (S (List.length script))
                            {| session := ATCmdParser_set_unprocessed_cb fresh_session
                                                                         (Some 3%nat);
                               io := script; log := [] |}
    = PollDone PollTimedOut w1 /\
    io w1 = [] /\
    log w1 = [] ++ map EvGet script ++ [EvUnprocessed 3%nat script; EvGet (-1)].
Proof.
  intros script.
  assert (Hplain : Forall (fun x => 0 < x < 256 /\ x <> LF) (bytes "RING" ++ [CR])).
  { repeat constructor; try lia; discriminate. }
  split; [exact Hplain|].
  apply (process_oob_hands_line_to_sink quiet_cb (fun _ => 0) fresh_session 3%nat
           (bytes "RING") [CR] LF []).
  - reflexivity.
  - exact Hplain.
  - lia.
  - vm_compute; reflexivity.
  - reflexivity.
  - reflexivity.
  - reflexivity.
Defined.

(** ** Where a receive can leave the buffer *)

Lemma stage_line_total (buf response : list Z) (room : Z) :
  0 <= room -> 2 * Zlength response + 3 + room <= AT_BUFFER_SIZE ->
  exists buf1 i offset wlw,
    stage_line buf response = Ok (buf1, i, offset, wlw) /\
    offset + room <= AT_BUFFER_SIZE.
Proof.
  intros Hroom Hfit.
  pose proof (Zlength_nonneg' response) as Hr.
  destruct (stage_loop_total (S (List.length response)) (3 + room) response buf 0 0)
    as (buf' & i' & offset' & wlw & Hloop & Hi' & Ho' & Hfit'); try lia.
  unfold stage_line. rewrite Hloop. cbn [bind].
  rewrite store_in_range by lia. cbn [bind].
  rewrite store_in_range by lia. cbn [bind].
  rewrite store_in_range by lia. cbn [bind].
  do 4 eexists. split; [reflexivity | lia].
Qed.

Lemma Zlength_skipn_le (n : nat) (l : list Z) : Zlength (skipn n l) <= Zlength l.
Proof.
  rewrite !Zlength_correct, length_skipn. lia.
Qed.

Section RoomFacts.

Context {port : Type} {ops : serial_ops port}.
Variable sscanf : list Z -> list Z -> option Z.
Variable run_cb : fnptr -> ATParser * port -> ATParser * port.

Hypothesis run_cb_keeps_buffer :
  forall f a p, Zlength (_buffer a) = AT_BUFFER_SIZE ->
                Zlength (_buffer (fst (run_cb f (a, p)))) = AT_BUFFER_SIZE.

Lemma accept_line_response (w w' : World port) (fl fl' : flocals) (ll : llocals) :
  accept_line w fl ll = Ok (w', fl') ->
  v_response fl' = skipn (Z.to_nat (v_i ll)) (v_response fl).
Proof.
  unfold accept_line; intros Hacc.
  apply bind_Ok in Hacc; destruct Hacc as ([[buf1 dp1] j1] & _ & Hacc).
  apply bind_Ok in Hacc; destruct Hacc as (buf2 & _ & Hacc).
  apply bind_Ok in Hacc; destruct Hacc as (buf3 & _ & Hacc).
  inversion Hacc; subst; reflexivity.
Qed.

(** No step makes the rest of the pattern longer. *)
Lemma step_response_le (cf : config) :
  Zlength (v_response (frame_of (step sscanf run_cb cf)))
  <= Zlength (v_response (frame_of cf)).
Proof.
  destruct cf as [w fl | w fl | w fl ll | v w]; cbn [step frame_of v_response].
  - lia.
  - unfold next_line. destruct (rd (v_response fl) 0 =? 0).
    + cbn [frame_of v_response]. rewrite Zlength_nil. apply Zlength_nonneg'.
    + destruct (stage_line _ _) as [[[[buf1 i] offset] wlw]|k]; cbn [frame_of v_response].
      * lia.
      * rewrite Zlength_nil. apply Zlength_nonneg'.
  - unfold recv_char. destruct (get w) as [c w0].
    destruct (c <? 0); [cbn [frame_of v_response]; rewrite Zlength_nil; apply Zlength_nonneg'|].
    destruct (append_byte _ _ _ _) as [[buf1 ll1]|k];
      [|cbn [frame_of v_response]; rewrite Zlength_nil; apply Zlength_nonneg'].
    destruct (find _ _) as [e|].
    + cbn [v_aborted]. destruct (v_aborted fl); cbn [frame_of v_response];
        [rewrite Zlength_nil; apply Zlength_nonneg' | lia].
    + destruct (_ =? _).
      * destruct (accept_line _ _ _) as [[w3 fl3]|k] eqn:Hacc; cbn [frame_of v_response].
        -- rewrite (accept_line_response _ _ _ _ _ Hacc). cbn [v_response].
           apply Zlength_skipn_le.
        -- rewrite Zlength_nil. apply Zlength_nonneg'.
      * cbn [frame_of v_response]. lia.
  - rewrite Zlength_nil. lia.
Qed.

Lemma step_roomy (cf : config) : roomy cf -> roomy (step sscanf run_cb cf).
Proof.
  intros Hroomy.
  pose proof (step_response_le cf) as Hle.
  destruct cf as [w fl | w fl | w fl ll | v w].
  - cbn [step]. exact Hroomy.
  - destruct Hroomy as [Hlen Hfit]. cbn [step frame_of] in *. unfold next_line in *.
    destruct (rd (v_response fl) 0 =? 0); [intros k Hk; discriminate Hk|].
    destruct (stage_line_total (_buffer (session w)) (v_response fl) 2)
      as (buf1 & i & offset & wlw & Hst & Hoff); try lia.
    rewrite Hst. pose proof (stage_line_wf _ _ _ _ _ _ Hst) as [L1 Hi].
    unfold roomy, line_wf. cbn [session with_buffer set_buffer emit _buffer
                                v_i v_offset v_j v_dummy v_dummy_pos v_response].
    repeat split; try lia; try apply repeat_length.
  - destruct Hroomy as (Hwf & Hroom & Hfit).
    pose proof (step_config_wf sscanf run_cb run_cb_keeps_buffer (AtChar w fl ll) Hwf) as Hcwf.
    destruct (get w) as [c w0] eqn:Hget.
    pose proof (get_inv _ _ _ Hget) as [_ Hlog].
    destruct (Z_lt_dec c 0) as [Hneg|Hpos].
    + cbn [step]. unfold recv_char. rewrite Hget.
      replace (c <? 0) with true by lia. intros k Hk; discriminate Hk.
    + destruct (recv_char_cases sscanf run_cb w w0 fl ll c Hwf Hroom Hget ltac:(lia))
        as (_ & Hidx & Hnext & Hworld).
      cbn [frame_of] in Hle.
      destruct (step sscanf run_cb (AtChar w fl ll)) as [w' fl' | w' fl' | w' fl' ll' | v w'].
      * cbn [frame_of config_wf roomy] in *. split; [exact Hcwf | lia].
      * cbn [frame_of config_wf roomy] in *. split; [exact Hcwf | lia].
      * cbn [frame_of roomy] in *.
        destruct (Hnext w' fl' ll' eq_refl) as [H1 H2]. split; [exact H1 | split; [exact H2 | lia]].
      * cbn [roomy]. intros k ->.
        destruct (Hworld k w' eq_refl) as [-> Hlf].
        split; [exact (Hidx k w0 eq_refl)|].
        exists (log w), c. split; [exact Hlog | exact Hlf].
  - cbn [step]. exact Hroomy.
Qed.

Lemma run_roomy (n : nat) :
  forall cf : config, roomy cf -> roomy (run sscanf run_cb n cf).
Proof.
  induction n as [|n IH]; intros cf Hr; cbn [run]; [exact Hr|].
  apply IH, step_roomy, Hr.
Qed.

End RoomFacts.

(** X19: a receive leaves the scratch buffer in one way only.  With handlers
    that leave the buffer an array of [AT_BUFFER_SIZE] cells and a pattern
    of no more than [(AT_BUFFER_SIZE - 5) / 2] bytes, a call that ends by
    a write outside of the buffer has written to [_buffer[AT_BUFFER_SIZE]]
    in the round that read a line feed: neither the staging of a template
    nor the append of any other byte nor the extraction goes outside. *)
Theorem vrecv_overruns_only_at_line_feed
        {port : Type} {ops : serial_ops port}
        (sscanf : list Z -> list Z -> option Z)
        (run_cb : fnptr -> ATParser * port -> ATParser * port)
        (n : nat) (w w' : World port) (response : list Z) (k : Z) :
  (forall f a p, Zlength (_buffer a) = AT_BUFFER_SIZE ->
                 Zlength (_buffer (fst (run_cb f (a, p)))) = AT_BUFFER_SIZE) ->
  Zlength (_buffer (session w)) = AT_BUFFER_SIZE ->
  2 * Zlength response + 5 <= AT_BUFFER_SIZE ->
  ATCmdParser_vrecv sscanf run_cb n w response = Done (Overrun k) w' ->
  k = AT_BUFFER_SIZE /\
  exists l c, log w' = l ++ [EvGet c] /\ to_char c = LF.
Proof.
  intros Hkeep Hlen Hfit Hrun.
  pose proof (run_roomy sscanf run_cb Hkeep n
                (AtRestart w {| v_response := response; v_in_prev := 0;
                                v_aborted := false |})) as Hr.
  unfold ATCmdParser_vrecv in Hrun. rewrite Hrun in Hr.
  apply Hr; [split; [exact Hlen | exact Hfit] | reflexivity].
Qed.

Lemma vrecv_overruns_only_at_line_feed_witness :
  let w := world0 fresh_session (repeat 97 2039 ++ [ch_colon; LF]) in
  let pattern := bytes "OK" ++ [LF] in
  let cf := ATCmdParser_vrecv sscanf_plain quiet_cb 2050 w pattern in
  cf = Done (Overrun 2048) (world_of cf) /\
  exists l c, log (world_of cf) = l ++ [EvGet c] /\ to_char c = LF.
Proof.
  intros w pattern cf.
  assert (Hrun : cf = Done (Overrun 2048) (world_of cf)) by (vm_compute; reflexivity).
  split; [exact Hrun|].
  exact (proj2 (vrecv_overruns_only_at_line_feed sscanf_plain quiet_cb 2050 w (world_of cf)
                  pattern 2048 (fun _ a _ H => H) eq_refl ltac:(vm_compute; discriminate)
                  Hrun)).
Defined.
